(** * Haiku generator: a shallow embedding of [training.py]

    The development follows the Python source top-down: the Python and
    NumPy primitives the code relies on, the Keras preprocessing
    helpers ([Tokenizer], [pad_sequences], [to_categorical]), and then
    the methods of [HaikuGenerator] themselves.  The handlers of the
    bot in [haiku.py] that reach the generator follow in a part of
    their own.

    Conventions.
    - Token ids, lengths that the source negates or compares with [-1],
      and [max_length] are [Z]; loop counters are [nat].
    - Text is a [string] of 8-bit characters; the string operations
      are those of Python on ASCII text.
    - Floats are exact rationals ([Q]).  The one transcendental
      operation, [x ** y], and Python's Unicode-aware [str.lower] are
      parameters of the development, so every theorem holds for any
      behaviour of the two.
    - Python dictionaries whose iteration order matters
      ([word_counts]) are association lists in insertion order; the
      others ([word_index], the reverse map, the file system) are
      [gmap]s.
    - Exceptions are values of [exn]; a computation that may raise
      returns [result]. *)

From Stdlib Require Import QArith Qround.
From Stdlib Require Import Ascii.
From stdpp Require Import gmap strings list sorting.

Open Scope Z_scope.

(** ** Exceptions *)

(** The two [ValueError]s the source raises itself, and those raised by
    the libraries on its behalf. *)
Inductive value_error : Type :=
  | NotTrained          (* training.py:124, raised by generate_haiku_completion *)
  | NoSequences         (* training.py:81, raised by prepare_data *)
  | CannotBroadcast     (* NumPy: a slice assignment whose shapes do not match *)
  | NegativeDimension   (* NumPy: an array with a negative dimension *)
  | BadChoice.          (* numpy.random.choice: empty population or invalid p *)

Inductive exn : Type :=
  | ValueError (why : value_error)
  | TypeError           (* a None where NumPy expects an integer *)
  | ZeroDivisionError   (* Python float division by zero *)
  | IndexError          (* NumPy index out of bounds *)
  | FileNotFoundError   (* open() or load_model() on a missing path *)
  | UnpicklingError.    (* the file holds something else than expected *)

Inductive result (A : Type) : Type :=
  | Ok (a : A)
  | Raise (e : exn).
Arguments Ok {A} a.
Arguments Raise {A} e.

(** [result] is a monad in stdpp's sense, so that [x ← r; k] sequences
    two computations and propagates the first exception. *)
#[global] Instance result_ret : MRet result := λ A a, Ok a.
#[global] Instance result_bind : MBind result := λ A B k r,
  match r with
  | Ok a => k a
  | Raise e => Raise e
  end.

(** ** Python primitives *)

Module Py.

(** [range(lo, hi)] as a list. *)
Definition range (lo hi : Z) : list Z :=
  map (λ i, lo + Z.of_nat i) (seq 0 (Z.to_nat (hi - lo))).

(** [l[start:]], with Python's treatment of a negative [start]
    (counted from the end, clamped at the front). *)
Definition slice_from {A : Type} (l : list A) (start : Z) : list A :=
  let n := Z.of_nat (length l) in
  let s := if start <? 0 then Z.max (n + start) 0 else Z.min start n in
  drop (Z.to_nat s) l.

(** [l[:stop]] for a non-negative [stop]. *)
Definition slice_to {A : Type} (l : list A) (stop : nat) : list A :=
  take stop l.

(** [sep.join(l)]. *)
Fixpoint join (sep : string) (l : list string) : string :=
  match l with
  | [] => ""
  | [s] => s
  | s :: l' => s +:+ sep +:+ join sep l'
  end.

(** [s.startswith(p)]. *)
Fixpoint startswith (p s : string) : bool :=
  match p, s with
  | EmptyString, _ => true
  | String a p', String b s' => if Ascii.eqb a b then startswith p' s' else false
  | String _ _, EmptyString => false
  end.

(** Left-to-right scan shared by [split] and [replace]: [skip] counts
    the characters of a separator occurrence still to be jumped over,
    [cur] is the current piece, reversed. *)
Fixpoint split_scan (sep s : string) (skip : nat) (cur : string) : list string :=
  match s with
  | EmptyString => [String.rev cur]
  | String c s' =>
      match skip with
      | S k => split_scan sep s' k cur
      | O =>
          if startswith sep s
          then String.rev cur :: split_scan sep s' (String.length sep - 1) ""
          else split_scan sep s' 0 (String c cur)
      end
  end.

(** [s.split(sep)] for a non-empty separator: non-overlapping
    occurrences, leftmost first; empty pieces are kept. *)
Definition split (sep s : string) : list string := split_scan sep s 0 "".

(** [s.replace(old, new)] for a non-empty [old]. *)
Definition replace (old new s : string) : string := join new (split old s).

(** [str.isspace] on the characters below 128. *)
Definition isspace (c : Ascii.ascii) : bool :=
  let n := nat_of_ascii c in
  ((9 <=? n) && (n <=? 13) || (28 <=? n) && (n <=? 32))%nat.

Fixpoint lstrip (s : string) : string :=
  match s with
  | EmptyString => EmptyString
  | String c s' => if isspace c then lstrip s' else s
  end.

(** [s.strip()]. *)
Definition strip (s : string) : string :=
  String.rev (lstrip (String.rev (lstrip s))).

(** [str.lower] restricted to ASCII: the instance used when the
    development is run on concrete ASCII text. *)
Definition ascii_lower_char (c : Ascii.ascii) : ascii :=
  let n := nat_of_ascii c in
  if ((65 <=? n) && (n <=? 90))%nat then ascii_of_nat (n + 32) else c.

Fixpoint ascii_lower (s : string) : string :=
  match s with
  | EmptyString => EmptyString
  | String c s' => String (ascii_lower_char c) (ascii_lower s')
  end.

(** [x ** y] on exact rationals for an integral exponent [y]: the
    instance used when the development is run at temperature 1. *)
Definition integral_pow (x y : Q) : Q := Qpower x (Qfloor y).

End Py.

(** ** Keras preprocessing

    [keras.preprocessing.text.Tokenizer] with the arguments of
    training.py:35 ([char_level=False], [lower=True], [split=" "],
    [num_words=None]), [pad_sequences] with [padding='pre'] (and the
    default [truncating='pre'], [value=0]), and [to_categorical]. *)

Module Keras.

Record Tokenizer : Type := mkTokenizer {
  filters : string;
  oov_token : option string;
  word_counts : list (string * nat);   (* insertion-ordered dict *)
  word_index : gmap string Z
}.

(** [Tokenizer(filters=..., oov_token=...)]. *)
Definition new (filters : string) (oov_token : option string) : Tokenizer :=
  mkTokenizer filters oov_token [] ∅.

Fixpoint mem_char (c : Ascii.ascii) (s : string) : bool :=
  match s with
  | EmptyString => false
  | String d s' => if Ascii.eqb c d then true else mem_char c s'
  end.

(** [text.translate({c: " " for c in filters})]. *)
Fixpoint translate (filters s : string) : string :=
  match s with
  | EmptyString => EmptyString
  | String c s' =>
      String (if mem_char c filters then " "%char else c) (translate filters s')
  end.

Definition nonempty (s : string) : bool :=
  match s with EmptyString => false | _ => true end.

(** [word_counts[w] += 1], or [word_counts[w] = 1] for a new key,
    which goes to the end. *)
Fixpoint count_word (w : string) (wc : list (string * nat)) : list (string * nat) :=
  match wc with
  | [] => [(w, 1%nat)]
  | (w', c) :: wc' =>
      if String.eqb w w' then (w', S c) :: wc' else (w', c) :: count_word w wc'
  end.

(** Insertion step of [wcounts.sort(key=lambda x: x[1], reverse=True)]:
    Python's sort is stable, so an entry goes after the entries of
    strictly larger count only. *)
Fixpoint insert_desc (x : string * nat) (l : list (string * nat)) : list (string * nat) :=
  match l with
  | [] => [x]
  | y :: l' => if (x.2 <? y.2)%nat then y :: insert_desc x l' else x :: l
  end.

Definition sort_desc (l : list (string * nat)) : list (string * nat) :=
  foldr insert_desc [] l.

(** [dict(zip(keys, range(1, len(keys) + 1)))]: a later duplicate of
    a key overwrites the value of the earlier one. *)
Definition dict_zip (keys : list string) : gmap string Z :=
  foldl (λ m kv, <[kv.1 := kv.2]> m) ∅
        (zip keys (Py.range 1 (Z.of_nat (length keys) + 1))).

Section Lower.

(** Python's [str.lower]. *)
Variable str_lower : string → string.

(** [text_to_word_sequence(text, filters, lower=True, split=" ")]. *)
Definition text_to_word_sequence (filters text : string) : list string :=
  filter (λ w, nonempty w = true) (Py.split " " (translate filters (str_lower text))).

(** [tokenizer.fit_on_texts(texts)]. *)
Definition fit_on_texts (t : Tokenizer) (texts : list string) : Tokenizer :=
  let wc :=
    foldl (λ wc text, foldl (λ wc w, count_word w wc) wc
                            (text_to_word_sequence (filters t) text))
          (word_counts t) texts in
  let wcounts := sort_desc wc in
  let sorted_voc :=
    match oov_token t with
    | None => []
    | Some oov => [oov]
    end ++ map fst wcounts in
  mkTokenizer (filters t) (oov_token t) wc (dict_zip sorted_voc).

(** [tokenizer.texts_to_sequences([text])[0]].  Where Keras would
    append [None] (an out-of-vocabulary word while [oov_token] is
    set but has no index), the embedding raises the [TypeError] that
    NumPy raises on the first conversion of such a list. *)
Definition texts_to_sequences (t : Tokenizer) (text : string) : result (list Z) :=
  let oov_token_index := oov ← oov_token t; word_index t !! oov in
  foldr (λ w acc,
           match word_index t !! w with
           | Some i => vect ← acc; Ok (i :: vect)
           | None =>
               match oov_token t, oov_token_index with
               | None, _ => acc
               | Some _, Some i => vect ← acc; Ok (i :: vect)
               | Some _, None => Raise TypeError
               end
           end)
        (Ok []) (text_to_word_sequence (filters t) text).

End Lower.

(** One row of [pad_sequences(sequences, maxlen=maxlen, padding='pre')]:
    [trunc = s[-maxlen:]] followed by [x[idx, -len(trunc):] = trunc]
    on a row of [maxlen] zeros.  NumPy accepts the assignment when the
    two lengths agree or when [trunc] has a single element, which it
    then repeats over the window. *)
Definition pad_row (maxlen : Z) (s : list Z) : result (list Z) :=
  let row := replicate (Z.to_nat maxlen) 0 in
  match s with
  | [] => Ok row
  | _ =>
      let trunc := Py.slice_from s (- maxlen) in
      let k := length trunc in
      let window := Py.slice_from row (- Z.of_nat k) in
      let w := length window in
      if (k =? w)%nat then Ok (take (length row - w) row ++ trunc)
      else match trunc with
           | [v] => Ok (take (length row - w) row ++ replicate w v)
           | _ => Raise (ValueError CannotBroadcast)
           end
  end.

Definition pad_sequences (sequences : list (list Z)) (maxlen : Z) : result (list (list Z)) :=
  if maxlen <? 0 then Raise (ValueError NegativeDimension)
  else mapM (pad_row maxlen) sequences.

(** One row of [to_categorical(y, num_classes)]:
    [categorical[i, y[i]] = 1], with NumPy's wrap-around of a negative
    index. *)
Definition one_hot (num_classes : Z) (y : Z) : result (list Z) :=
  if (y <? - num_classes) || (num_classes <=? y) then Raise IndexError
  else
    let j := if y <? 0 then y + num_classes else y in
    Ok (map (λ i, if i =? j then 1 else 0) (Py.range 0 num_classes)).

Definition to_categorical (y : list Z) (num_classes : Z) : result (list (list Z)) :=
  let num_classes :=
    if num_classes =? 0 then foldr Z.max 0 y + 1 else num_classes in
  mapM (one_hot num_classes) y.

End Keras.

(** ** NumPy *)

Module Np.

Definition sum (l : list Q) : Q := foldr Qplus 0%Q l.

(** [l / d], element-wise.  Division by zero gives [0] in [Q] where
    NumPy gives [nan] or [inf]; either way the weights that reach
    [random_choice] do not sum to 1 and are rejected there. *)
Definition div (l : list Q) (d : Q) : list Q := map (λ p, (p / d)%Q) l.

(** [p.cumsum()]. *)
Fixpoint cumsum_from (acc : Q) (p : list Q) : list Q :=
  match p with
  | [] => []
  | x :: p' => (acc + x)%Q :: cumsum_from (acc + x)%Q p'
  end.

(** [cdf.searchsorted(u, side='right')] on a non-decreasing [cdf]:
    the number of leading entries that are at most [u]. *)
Fixpoint searchsorted_right (cdf : list Q) (u : Q) : nat :=
  match cdf with
  | [] => 0%nat
  | c :: cdf' => if Qle_bool c u then S (searchsorted_right cdf' u) else 0%nat
  end.

(** [numpy.random.choice(a, p=p)] for the uniform draw [u] of the
    generator: the population must be non-empty, [p] must have its
    size, be non-negative and sum to 1; the result is the entry of
    [a] at the rank of [u] in the cumulative distribution. *)
Definition random_choice (a : list Z) (p : list Q) (u : Q) : result Z :=
  match a with
  | [] => Raise (ValueError BadChoice)
  | _ =>
      if negb (length p =? length a)%nat then Raise (ValueError BadChoice)
      else if existsb (λ x, negb (Qle_bool 0 x)) p then Raise (ValueError BadChoice)
      else if negb (Qeq_bool (sum p) 1) then Raise (ValueError BadChoice)
      else
        let cdf := cumsum_from 0%Q p in
        let cdf := div cdf (List.last cdf 0%Q) in
        match a !! searchsorted_right cdf u with
        | Some x => Ok x
        | None => Raise IndexError
        end
  end.

End Np.

(** ** The sequence model

    The network of training.py:85-90 is kept abstract: what the code
    depends on is that [predict] returns one row of [Dense] outputs,
    that is [output_units] numbers, whatever the weights are.  The
    weights are a function from the padded input to the output row;
    it may raise, as Keras does on an input it cannot process. *)

Definition Weights : Type := list Z → result (nat → Q).

Record Model : Type := mkModel {
  input_length : Z;        (* Embedding(..., input_length=...) *)
  output_units : nat;      (* Dense(units, activation='softmax') *)
  forward : Weights
}.

(** [model.predict(x, verbose=0)[0]] for a batch [x] of one row. *)
Definition predict (m : Model) (row : list Z) : result (list Q) :=
  f ← forward m row; Ok (map f (seq 0 (output_units m))).

(** ** The file system seen by [save_model] and [load_model] *)

Inductive File : Type :=
  | H5 (m : Model)                   (* written by model.save *)
  | Pickle (t : Keras.Tokenizer).    (* written by pickle.dump *)

(** ** [class HaikuGenerator] *)

Record HaikuGenerator : Type := mkGenerator {
  tokenizer : option Keras.Tokenizer;
  model : option Model;
  vocab_size : Z;
  max_sequence_length : Z
}.

(** [HaikuGenerator()], training.py:14-18. *)
Definition init : HaikuGenerator := mkGenerator None None 0 0.

(** A haiku of the corpus: [haiku[0]], [haiku[1]], [haiku[2]]. *)
Definition Haiku : Type := string * string * string.

(** The [filters] argument of training.py:36, in the order of the
    source; the characters after [~] are tab and newline. *)
Definition FILTERS : string :=
  String (ascii_of_nat 33) (String (ascii_of_nat 34)
    ("#$%&()*+,-./:;=?@[\]^_`{|}~" +:+
     String (ascii_of_nat 9) (String (ascii_of_nat 10) ""))).

Definition LINE : string := "<line>".
Definition END : string := "<end>".
Definition UNK : string := "<unk>".

(** training.py:31 and training.py:48. *)
Definition full_haiku (haiku : Haiku) : string :=
  haiku.1.1 +:+ " <line> " +:+ haiku.1.2 +:+ " <line> " +:+ haiku.2 +:+ " <end>".

(** training.py:53-58: the index of the first [line_token_id] in
    [full_sequence], counted from [i], or [-1]. *)
Fixpoint first_line_end_from (i : Z) (line_token_id : Z) (full_sequence : list Z) : Z :=
  match full_sequence with
  | [] => -1
  | token_id :: rest =>
      if token_id =? line_token_id then i
      else first_line_end_from (i + 1) line_token_id rest
  end.

(** [full_sequence[i]]. *)
Definition item (full_sequence : list Z) (i : Z) : result Z :=
  match full_sequence !! Z.to_nat i with
  | Some x => Ok x
  | None => Raise IndexError
  end.

(** training.py:51-69: the (input, target) pairs of one haiku. *)
Definition haiku_pairs (line_token_id : Z) (full_sequence : list Z) : result (list (list Z * Z)) :=
  let first_line_end := first_line_end_from 0 line_token_id full_sequence in
  if first_line_end =? -1 then Ok []
  else
    mapM (λ i, target_word ← item full_sequence i;
               Ok (Py.slice_to full_sequence (Z.to_nat i), target_word))
         (Py.range (first_line_end + 1) (Z.of_nat (length full_sequence))).

(** training.py:127. The values of a fitted [word_index] are distinct,
    so the order in which the comprehension visits the items does not
    show. *)
Definition reverse_word_map (word_index : gmap string Z) : gmap Z string :=
  foldl (λ m kv, <[kv.2 := kv.1]> m) ∅ (map_to_list word_index).

(** training.py:155: [reverse_word_map.get(predicted_id, "<unk>")]. *)
Definition decode (word_index : gmap string Z) (predicted_id : Z) : string :=
  default UNK (reverse_word_map word_index !! predicted_id).

(** training.py:167-184: the formatting of the generated words. *)
Definition format_result (generated_words : list string) : string :=
  let result_text := Py.join " " generated_words in
  let lines := Py.split " <line> " result_text in
  let formatted_lines :=
    filter (λ clean_line, Keras.nonempty clean_line = true)
           (map (λ line, Py.strip (Py.replace "<end>" "" (Py.replace "<line>" "" line)))
                lines) in
  let formatted_lines :=
    if (2 <? length formatted_lines)%nat then take 2 formatted_lines
    else formatted_lines in
  Py.join (String (ascii_of_nat 10) "") formatted_lines.

(** training.py:186-193.  Both guards test the truth value of an
    object that is either [None] or a Keras object, which is true. *)
Definition save_model (self : HaikuGenerator) (model_path tokenizer_path : string)
    (disk : gmap string File) : gmap string File :=
  let disk :=
    match model self with
    | Some m => <[model_path := H5 m]> disk
    | None => disk
    end in
  match tokenizer self with
  | Some t => <[tokenizer_path := Pickle t]> disk
  | None => disk
  end.

(** training.py:195-202.  The generator is returned as the call leaves
    it, also when the call raises halfway. *)
Definition load_model (self : HaikuGenerator) (model_path tokenizer_path : string)
    (disk : gmap string File) : HaikuGenerator * result unit :=
  match disk !! model_path with
  | None => (self, Raise FileNotFoundError)
  | Some (Pickle _) => (self, Raise UnpicklingError)
  | Some (H5 m) =>
      let self := mkGenerator (tokenizer self) (Some m) (vocab_size self)
                              (max_sequence_length self) in
      match disk !! tokenizer_path with
      | None => (self, Raise FileNotFoundError)
      | Some (H5 _) => (self, Raise UnpicklingError)
      | Some (Pickle t) =>
          (mkGenerator (Some t) (model self)
                       (Z.of_nat (size (Keras.word_index t)) + 1)
                       (max_sequence_length self),
           Ok ())
      end
  end.

Definition MODEL_PATH : string := "haiku_model.h5".
Definition TOKENIZER_PATH : string := "tokenizer.pkl".

(** The state of the loop of training.py:134-165, with two ghost
    fields that record its history: the ids returned by
    [random.choice], oldest first, and the number of times the body
    was entered. *)
Record Loop : Type := mkLoop {
  generated_words : list string;
  current_text : string;
  sampled : list Z;
  iterations : nat
}.

(** How the loop was left: [range(max_length)] ran out, [break], or an
    exception. *)
Inductive Exit : Type :=
  | Exhausted
  | Break
  | Raised (e : exn).

Section Runtime.

(** Python's [str.lower] and the float power [x ** y]. *)
Variable str_lower : string → string.
Variable float_pow : Q → Q → Q.

(** training.py:45-69, the loop over the corpus. *)
Definition training_pairs (t : Keras.Tokenizer) (haikus : list Haiku)
    : result (list (list Z * Z)) :=
  per_haiku ← mapM (λ haiku,
      full_sequence ← Keras.texts_to_sequences str_lower t (full_haiku haiku);
      let line_token_id := default 0 (Keras.word_index t !! LINE) in
      haiku_pairs line_token_id full_sequence) haikus;
  Ok (concat per_haiku).

(** training.py:20-81.  The generator is returned as the call leaves
    it, also when the call raises. *)
Definition prepare_data (self : HaikuGenerator) (haikus : list Haiku)
    : HaikuGenerator * result (list (list Z) * list (list Z)) :=
  let all_text := map full_haiku haikus in
  let t := Keras.fit_on_texts str_lower (Keras.new FILTERS (Some UNK)) all_text in
  let self := mkGenerator (Some t) (model self)
                          (Z.of_nat (size (Keras.word_index t)) + 1)
                          (max_sequence_length self) in
  match training_pairs t haikus with
  | Raise e => (self, Raise e)
  | Ok pairs =>
      let input_sequences := map fst pairs in
      let target_sequences := map snd pairs in
      match input_sequences with
      | [] => (self, Raise (ValueError NoSequences))
      | _ =>
          let self := mkGenerator (tokenizer self) (model self) (vocab_size self)
                        (foldr Z.max 0 (map (λ s, Z.of_nat (length s)) input_sequences)) in
          (self,
           X ← Keras.pad_sequences input_sequences (max_sequence_length self);
           y ← Keras.to_categorical target_sequences (vocab_size self);
           Ok (X, y))
      end
  end.

(** training.py:83-98, with the freshly initialised weights [w]. *)
Definition create_model (self : HaikuGenerator) (w : Weights) : HaikuGenerator :=
  mkGenerator (tokenizer self)
              (Some (mkModel (max_sequence_length self) (Z.to_nat (vocab_size self)) w))
              (vocab_size self) (max_sequence_length self).

(** [self.model.fit(X, y, ...)]: the optimiser replaces the weights by
    those it arrives at, [fitted]. *)
Definition fit (self : HaikuGenerator) (fitted : Weights) : HaikuGenerator :=
  mkGenerator (tokenizer self)
              (m ← model self; Some (mkModel (input_length m) (output_units m) fitted))
              (vocab_size self) (max_sequence_length self).

(** training.py:100-117. *)
Definition train (self : HaikuGenerator) (haikus : list Haiku) (w fitted : Weights)
    : HaikuGenerator * result unit :=
  let '(self, r) := prepare_data self haikus in
  match r with
  | Raise e => (self, Raise e)
  | Ok _ => (fit (create_model self w) fitted, Ok ())
  end.

(** training.py:135-152: one prediction and one draw, for the uniform
    number [u] that the random generator yields. *)
Definition sample_id (t : Keras.Tokenizer) (m : Model) (max_sequence_length : Z)
    (temperature u : Q) (current_text : string) : result Z :=
  token_list ← Keras.texts_to_sequences str_lower t current_text;
  let token_list :=
    if max_sequence_length <? Z.of_nat (length token_list)
    then Py.slice_from token_list (- max_sequence_length)
    else token_list in
  padded ← Keras.pad_sequences [token_list] max_sequence_length;
  predicted_probs ← predict m (concat padded);
  exponent ← (if Qeq_bool temperature 0 then Raise ZeroDivisionError
              else Ok (1 / temperature)%Q);
  let predicted_probs := map (λ p, float_pow p exponent) predicted_probs in
  let predicted_probs := Np.div predicted_probs (Np.sum predicted_probs) in
  let rest := Py.slice_from predicted_probs 1 in
  Np.random_choice (Py.range 1 (Z.of_nat (length predicted_probs)))
                   (Np.div rest (Np.sum rest)) u.

(** training.py:134-165: [n] more rounds of the loop, the [k]-th
    round drawing [draws k]. *)
Fixpoint generation_loop (t : Keras.Tokenizer) (m : Model) (max_sequence_length : Z)
    (temperature : Q) (draws : nat → Q) (n : nat) (st : Loop) : Loop * Exit :=
  match n with
  | O => (st, Exhausted)
  | S n' =>
      match sample_id t m max_sequence_length temperature
                      (draws (iterations st)) (current_text st) with
      | Raise e =>
          (mkLoop (generated_words st) (current_text st) (sampled st)
                  (S (iterations st)), Raised e)
      | Ok predicted_id =>
          let output_word := decode (Keras.word_index t) predicted_id in
          let sampled := sampled st ++ [predicted_id] in
          if String.eqb output_word END then
            (mkLoop (generated_words st) (current_text st) sampled
                    (S (iterations st)), Break)
          else if String.eqb output_word UNK then
            generation_loop t m max_sequence_length temperature draws n'
              (mkLoop (generated_words st) (current_text st) sampled
                      (S (iterations st)))
          else
            generation_loop t m max_sequence_length temperature draws n'
              (mkLoop (generated_words st ++ [output_word])
                      (current_text st +:+ " " +:+ output_word) sampled
                      (S (iterations st)))
      end
  end.

(** The loop as [generate_haiku_completion] starts it. *)
Definition run_loop (t : Keras.Tokenizer) (m : Model) (max_sequence_length : Z)
    (first_line : string) (max_length : Z) (temperature : Q) (draws : nat → Q)
    : Loop * Exit :=
  let seed_text := first_line +:+ " <line>" in
  generation_loop t m max_sequence_length temperature draws (Z.to_nat max_length)
                  (mkLoop [] seed_text [] 0).

(** training.py:119-184. *)
Definition generate_haiku_completion (self : HaikuGenerator) (first_line : string)
    (max_length : Z) (temperature : Q) (draws : nat → Q) : result string :=
  match model self, tokenizer self with
  | Some m, Some t =>
      match run_loop t m (max_sequence_length self) first_line max_length
                     temperature draws with
      | (_, Raised e) => Raise e
      | (st, _) => Ok (format_result (generated_words st))
      end
  | _, _ => Raise (ValueError NotTrained)
  end.

End Runtime.

(** ** Definitions used to state the properties *)

(** A state that a caller reaches without touching the object's fields:
    [train] on an empty corpus fits the tokenizer and then raises, so
    the generator is left with a tokenizer and no model. *)
Definition half_trained (str_lower : string → string) (w : Weights) : HaikuGenerator :=
  (train str_lower init [] w w).1.

(** What the id drawn in one round of the loop adds to
    [generated_words] (training.py:155-164): nothing when it decodes to
    ["<end>"] or ["<unk>"], its word otherwise. *)
Definition kept (word_index : gmap string Z) (predicted_id : Z) : option string :=
  let output_word := decode word_index predicted_id in
  if String.eqb output_word END then None
  else if String.eqb output_word UNK then None
  else Some output_word.

(** The number of ids in [ids] that decode to ["<unk>"], by name or for
    want of an entry in the reverse map. *)
Definition unk_count (word_index : gmap string Z) (ids : list Z) : nat :=
  length (filter (λ id, decode word_index id = UNK) ids).

(** A generator whose model has one output per vocabulary id, as
    [create_model] builds it with [Dense(self.vocab_size)]. *)
Definition consistent (self : HaikuGenerator) : Prop :=
  ∀ m, model self = Some m → Z.of_nat (output_units m) = vocab_size self.

(** The distinct words of [ws], in the order of their first
    occurrence. *)
Definition first_seen (ws : list string) : list string :=
  foldl (λ acc w, if decide (w ∈ acc) then acc else acc ++ [w]) [] ws.

(** The number of times [w] occurs in [ws]. *)
Definition occurrences (w : string) (ws : list string) : nat :=
  length (filter (λ w', w' = w) ws).

(** The words of the corpus in the order in which [fit_on_texts] meets
    them. *)
Definition corpus_words (str_lower : string → string) (haikus : list Haiku) : list string :=
  concat (map (λ haiku, Keras.text_to_word_sequence str_lower FILTERS (full_haiku haiku))
              haikus).

(** [x] stands before [y] in [l]. *)
Definition before {A : Type} (x y : A) (l : list A) : Prop := [x; y] `sublist_of` l.

(** The tokenizer that [prepare_data] fits (training.py:35-38). *)
Definition fitted (str_lower : string → string) (haikus : list Haiku) : Keras.Tokenizer :=
  Keras.fit_on_texts str_lower (Keras.new FILTERS (Some UNK)) (map full_haiku haikus).

(** The distinct words of the corpus with the number of their
    occurrences, sorted as [fit_on_texts] sorts them. *)
Definition sorted_counts (str_lower : string → string) (haikus : list Haiku)
    : list (string * nat) :=
  Keras.sort_desc (map (λ w, (w, occurrences w (corpus_words str_lower haikus)))
                       (first_seen (corpus_words str_lower haikus))).

(** ** Words of a string *)

(** The words of a string, Python's [s.split()]: the maximal runs of
    characters that are not whitespace. *)
Fixpoint words (s : string) : list string :=
  match s with
  | EmptyString => []
  | String c s' =>
      if Py.isspace c then words s'
      else
        match s' with
        | EmptyString => [String c ""]
        | String d _ =>
            if Py.isspace d then String c "" :: words s'
            else match words s' with
                 | w :: ws => String c w :: ws
                 | [] => [String c ""]
                 end
        end
  end.

(** [s] has a whitespace character. *)
Fixpoint has_space (s : string) : bool :=
  match s with
  | EmptyString => false
  | String c s' => Py.isspace c || has_space s'
  end.

(** [old in s]. *)
Fixpoint contains (old s : string) : bool :=
  Py.startswith old s
  || match s with
     | EmptyString => false
     | String _ s' => contains old s'
     end.

(** [s] is empty or starts with a whitespace character. *)
Definition starts_space (s : string) : bool :=
  match s with
  | EmptyString => true
  | String c _ => Py.isspace c
  end.

(** [s] consists of whitespace. *)
Fixpoint all_space (s : string) : bool :=
  match s with
  | EmptyString => true
  | String c s' => Py.isspace c && all_space s'
  end.

(** A token that has neither whitespace nor the text of a marker in
    it. *)
Definition plain (w : string) : Prop :=
  has_space w = false ∧ contains LINE w = false ∧ contains END w = false.

(** ** A worked example

    A corpus of one haiku, a network that gives every id but the last
    the probability 1/8 and the last one, ["<end>"], the probability
    2/8, and generation at temperature 1, where [x ** (1/temperature)]
    is [x].  After the padding id is dropped and the rest is
    renormalised, a draw [u] below 1/7 selects id 1, a draw in
    [1/7, 2/7) id 2, and so on; a draw from 5/7 on selects id 6. *)

Definition example_corpus : list Haiku := [("a", "b", "c")].

Definition example_weights : Weights :=
  λ _, Ok (λ i, if (i <? 6)%nat then (1 # 8)%Q else (2 # 8)%Q).

(** The draws of a run: those listed, then 6/7 for ever. *)
Definition draws_of (us : list Q) : nat → Q := λ k, nth k us (6 # 7)%Q.

Definition example_generator : HaikuGenerator :=
  (train Py.ascii_lower init example_corpus example_weights example_weights).1.

(** The example generator after [save_model] and, in a new process,
    [load_model], training.py:229 and haiku.py:41. *)
Definition reloaded_generator : HaikuGenerator :=
  (load_model init MODEL_PATH TOKENIZER_PATH
              (save_model example_generator MODEL_PATH TOKENIZER_PATH ∅)).1.

(** A corpus whose first line has the marker inside a word. *)
Definition marker_corpus : list Haiku := [("x<line>y", "b", "c")].

Definition marker_generator : HaikuGenerator :=
  (train Py.ascii_lower init marker_corpus example_weights example_weights).1.

(** The example generator after a second [train], on an empty corpus,
    has raised: the tokenizer and vocab_size are those of the empty
    corpus, the model is the one of the first training. *)
Definition failed_retrain : HaikuGenerator :=
  (train Py.ascii_lower example_generator [] example_weights example_weights).1.

(** [generate_haiku_completion] and its loop as the examples run them. *)
Definition example_generate (self : HaikuGenerator) (first_line : string)
    (us : list Q) : result string :=
  generate_haiku_completion Py.ascii_lower Py.integral_pow self first_line 15 1
                            (draws_of us).

Definition example_run (self : HaikuGenerator) (first_line : string) (us : list Q)
    : option (Loop * Exit) :=
  m ← model self; t ← tokenizer self;
  Some (run_loop Py.ascii_lower Py.integral_pow t m (max_sequence_length self)
                 first_line 15 1 (draws_of us)).

(** * The bot, [haiku.py]

    The handlers of [HaikuTelegramBot] that reach the generator:
    [load_or_train_model], [generate_haiku] and [button_handler] with
    the three commands it forwards to.

    - What a handler does to the outside is the list of the Telegram
      calls it awaits, in order.  Each of them may raise; whether it
      does is a parameter, [telegram].
    - The texts the bot sends are constants and f-strings of haiku.py;
      [Text] names them and carries the values that are interpolated.
      An inline keyboard is the list of the [callback_data] of its
      buttons.
    - A handler ends with [Some] result or with an exception in
      flight, [None]; the handlers never look at the exception they
      catch.
    - [train_model], which starts a thread and polls for its end, is a
      parameter of [load_or_train_model].
    - The text of a message is any Unicode text, in UTF-8.  Python's
      [len], which counts its code points, and [str.strip], which
      removes Unicode whitespace, are parameters of [generate_haiku],
      [str_len] and [str_strip], as [str.lower] is one of the
      tokenizer. *)

Module Bot.

(** [self.stats], haiku.py:28-33. *)
Record Stats : Type := mkStats {
  total_requests : Z;
  successful_generations : Z;
  failed_generations : Z;
  users : gset Z
}.

(** The fields of [HaikuTelegramBot] that the handlers read or write. *)
Record HaikuTelegramBot : Type := mkBot {
  generator : HaikuGenerator;
  model_loaded : bool;
  training_in_progress : bool;
  stats : Stats
}.

(** [HaikuTelegramBot(token)], haiku.py:20-33. *)
Definition init : HaikuTelegramBot := mkBot init false false (mkStats 0 0 0 ∅).

Inductive Text : Type :=
  | StillTraining                                  (* haiku.py:214 *)
  | NotLoaded                                      (* haiku.py:219 *)
  | TooLong                                        (* haiku.py:233 *)
  | TooShort                                       (* haiku.py:239 *)
  | YourHaiku (first_line completion : string)     (* haiku.py:256-259 *)
  | NoHaiku                                        (* haiku.py:277 *)
  | GenerationError                                (* haiku.py:284 *)
  | NewVariant (first_line completion : string)    (* haiku.py:329-332 *)
  | NoVariant                                      (* haiku.py:350 *)
  | VariantError                                   (* haiku.py:357 *)
  | SavedHaiku (first_line completion : string)    (* haiku.py:365-368 *)
  | RandomStart (random_start : nat)               (* haiku.py:309, the index in random_starts *)
  | Examples                                       (* haiku.py:169-173 *)
  | Help                                           (* haiku.py:121-151 *)
  | Statistics (users : nat) (total successful failed : Z) (rate : Q)
               (loaded training : bool).           (* haiku.py:188-201, less the clock *)

Inductive Call : Type :=
  | Answer                                             (* query.answer() *)
  | SendChatAction                                     (* context.bot.send_chat_action, "typing" *)
  | ReplyText (text : Text) (keyboard : list string)   (* message.reply_text *)
  | EditMessageText (text : Text) (keyboard : list string).  (* query.edit_message_text *)

(** A coroutine of the bot: from the bot as it finds it to the bot as
    it leaves it, the calls awaited and the result. *)
Definition Handler (A : Type) : Type :=
  HaikuTelegramBot → HaikuTelegramBot * list Call * option A.

#[global] Instance handler_ret : MRet Handler := λ A a self, (self, [], Some a).
#[global] Instance handler_bind : MBind Handler := λ A B k h self,
  match h self with
  | (self, calls, Some a) =>
      match k a self with
      | (self, calls', b) => (self, calls ++ calls', b)
      end
  | (self, calls, None) => (self, calls, None)
  end.

(** Reading and writing [self]. *)
Definition gets {A : Type} (field : HaikuTelegramBot → A) : Handler A :=
  λ self, (self, [], Some (field self)).

Definition modify (f : HaikuTelegramBot → HaikuTelegramBot) : Handler unit :=
  λ self, (f self, [], Some ()).

(** A call into [HaikuGenerator]. *)
Definition lift {A : Type} (r : result A) : Handler A :=
  λ self, (self, [], match r with Ok a => Some a | Raise _ => None end).

(** [try: body except Exception: handler]. *)
Definition try_except {A : Type} (body handler : Handler A) : Handler A :=
  λ self,
    match body self with
    | (self, calls, None) =>
        match handler self with
        | (self, calls', r) => (self, calls ++ calls', r)
        end
    | returned => returned
    end.

Definition set_stats (f : Stats → Stats) (self : HaikuTelegramBot) : HaikuTelegramBot :=
  mkBot (generator self) (model_loaded self) (training_in_progress self) (f (stats self)).

(** [self.stats['users'].add(user_id)]. *)
Definition add_user (user_id : Z) : HaikuTelegramBot → HaikuTelegramBot :=
  set_stats (λ s, mkStats (total_requests s) (successful_generations s)
                          (failed_generations s) ({[user_id]} ∪ users s)).

(** [self.stats['total_requests'] += 1] and the like. *)
Definition count_request : HaikuTelegramBot → HaikuTelegramBot :=
  set_stats (λ s, mkStats (total_requests s + 1) (successful_generations s)
                          (failed_generations s) (users s)).

Definition count_success : HaikuTelegramBot → HaikuTelegramBot :=
  set_stats (λ s, mkStats (total_requests s) (successful_generations s + 1)
                          (failed_generations s) (users s)).

Definition count_failure : HaikuTelegramBot → HaikuTelegramBot :=
  set_stats (λ s, mkStats (total_requests s) (successful_generations s)
                          (failed_generations s + 1) (users s)).

(** The success rate of haiku.py:195. *)
Definition success_rate (s : Stats) : Q :=
  (inject_Z (successful_generations s) / inject_Z (Z.max 1 (total_requests s)) * 100)%Q.

(** [s.split(sep, maxsplit)] for a non-empty separator: as [split],
    but after [maxsplit] cuts the rest of the string is the last
    piece. *)
Fixpoint split_max_scan (sep s : string) (maxsplit skip : nat) (cur : string)
    : list string :=
  match s with
  | EmptyString => [String.rev cur]
  | String c s' =>
      match skip, maxsplit with
      | S k, _ => split_max_scan sep s' maxsplit k cur
      | O, O => [String.rev cur +:+ s]
      | O, S n =>
          if Py.startswith sep s
          then String.rev cur :: split_max_scan sep s' n (String.length sep - 1) ""
          else split_max_scan sep s' maxsplit 0 (String c cur)
      end
  end.

Definition split_max (sep s : string) (maxsplit : nat) : list string :=
  split_max_scan sep s maxsplit 0 "".

(** The two buttons under a haiku, haiku.py:262-265 and 335-338. *)
Definition haiku_keyboard (first_line completion : string) : list string :=
  ["regenerate:" +:+ first_line; "save:" +:+ first_line +:+ ":" +:+ completion].

(** [completion and completion.strip()] as a condition.  The
    completion is a result of [format_result], whose lines are
    stripped already, so that the first half decides. *)
Definition truthy (completion : string) : bool :=
  Keras.nonempty completion && Keras.nonempty (Py.strip completion).

Section Handlers.

Variable str_lower : string → string.
Variable float_pow : Q → Q → Q.

(** Whether a call to Telegram returns ([true]) or raises. *)
Variable telegram : Call → bool.

(** Python's [len] and [str.strip] on the text of a message. *)
Variable str_len : string → nat.
Variable str_strip : string → string.

Definition await (call : Call) : Handler unit :=
  λ self, (self, [call], if telegram call then Some () else None).

(** haiku.py:35-49.  The files are looked up in [disk]; [train_model]
    catches what is raised in it. *)
Definition load_or_train_model (train_model : Handler unit) (disk : gmap string File)
    : Handler unit :=
  try_except
    (if bool_decide (is_Some (disk !! MODEL_PATH))
        && bool_decide (is_Some (disk !! TOKENIZER_PATH))
     then
       g ← gets generator;
       let '(g, r) := load_model g MODEL_PATH TOKENIZER_PATH disk in
       modify (λ self, mkBot g (model_loaded self) (training_in_progress self)
                             (stats self));;
       lift r;;
       modify (λ self, mkBot (generator self) true (training_in_progress self)
                             (stats self))
     else train_model)
    train_model.

(** haiku.py:119-157, 159-184 and 186-207: the three commands, called
    for a command message or, with [callback], for a button. *)
Definition send (callback : bool) (text : Text) (keyboard : list string) : Handler unit :=
  if callback then await (EditMessageText text keyboard)
  else await (ReplyText text keyboard).

Definition help_command (callback : bool) : Handler unit := send callback Help [].

Definition example_command (callback : bool) : Handler unit :=
  send callback Examples ["random_start"].

Definition stats_command (callback : bool) : Handler unit :=
  s ← gets stats;
  loaded ← gets model_loaded;
  training ← gets training_in_progress;
  send callback
       (Statistics (size (users s)) (total_requests s) (successful_generations s)
                   (failed_generations s) (success_rate s) loaded training)
       [].

(** haiku.py:246-286 and 319-359: one generation and the reply to it,
    at the given temperature, with the three texts of the place. *)
Definition generate_and_reply (first_line : string) (temperature : Q) (draws : nat → Q)
    (haiku : string → string → Text) (nothing failure : Text) : Handler unit :=
  try_except
    (g ← gets generator;
     completion ← lift (generate_haiku_completion str_lower float_pow g first_line
                                                  15 temperature draws);
     if truthy completion then
       await (ReplyText (haiku first_line completion)
                        (haiku_keyboard first_line completion));;
       modify count_success
     else
       await (ReplyText nothing []);;
       modify count_failure)
    (await (ReplyText failure []);;
     modify count_failure).

(** haiku.py:209-286, for a message with the text [text] from the user
    [user_id]; [draws] are the random numbers of the generation. *)
Definition generate_haiku (text : string) (user_id : Z) (draws : nat → Q) : Handler unit :=
  loaded ← gets model_loaded;
  if negb loaded then
    training ← gets training_in_progress;
    if (training : bool) then await (ReplyText StillTraining [])
    else await (ReplyText NotLoaded [])
  else
    let first_line := str_strip text in
    modify (add_user user_id);;
    modify count_request;;
    if (100 <? str_len first_line)%nat then await (ReplyText TooLong [])
    else if (str_len first_line <? 3)%nat then await (ReplyText TooShort [])
    else
      await SendChatAction;;
      generate_and_reply first_line (8 # 10) draws YourHaiku NoHaiku GenerationError.

(** haiku.py:288-370, for a button with the data [data];
    [random_start] is the index that [random.choice] picks. *)
Definition button_handler (data : string) (random_start : nat) (draws : nat → Q)
    : Handler unit :=
  await Answer;;
  if String.eqb data "examples" then example_command true
  else if String.eqb data "help" then help_command true
  else if String.eqb data "stats" then stats_command true
  else if String.eqb data "random_start" then
    await (EditMessageText (RandomStart random_start) [])
  else if Py.startswith "regenerate:" data then
    first_line ← lift (match split_max ":" data 1 !! 1%nat with
                       | Some part => Ok part
                       | None => Raise IndexError
                       end);
    await SendChatAction;;
    generate_and_reply first_line (9 # 10) draws NewVariant NoVariant VariantError
  else if Py.startswith "save:" data then
    let parts := split_max ":" data 2 in
    match parts with
    | [_; first_line; completion] =>
        await (EditMessageText (SavedHaiku first_line completion) [])
    | _ => mret ()
    end
  else mret ().

End Handlers.

End Bot.

(** The bot with the example generator loaded, and a Telegram that
    accepts every call.  The examples of the bot are run on ASCII
    text, where [len] is [String.length] and [str.strip] is
    [Py.strip]; at the temperatures 0.8 and 0.9 of the bot
    [Py.integral_pow] stands in for the power, with the exponent
    rounded down to 1. *)
Definition example_bot : Bot.HaikuTelegramBot :=
  Bot.mkBot example_generator true false (Bot.mkStats 0 0 0 ∅).

Definition accepting : Bot.Call → bool := λ _, true.

(** * Properties *)

(** ** The exception monad *)

Lemma bind_Ok {A B : Type} (r : result A) (k : A → result B) (b : B) :
  (x ← r; k x) = Ok b → ∃ a, r = Ok a ∧ k a = Ok b.
Proof. destruct r as [a|e]; simpl; [eauto | discriminate]. Qed.

Lemma bind_Raise {A B : Type} (r : result A) (k : A → result B) (e : exn) :
  (x ← r; k x) = Raise e → r = Raise e ∨ ∃ a, r = Ok a ∧ k a = Raise e.
Proof. destruct r as [a|e']; simpl; [eauto | intros [= ->]; auto]. Qed.

Lemma mapM_cons {A B : Type} (f : A → result B) (x : A) (l : list A) :
  mapM f (x :: l) = (y ← f x; k ← mapM f l; Ok (y :: k)).
Proof. reflexivity. Qed.

Lemma mapM_Raise {A B : Type} (f : A → result B) (l : list A) (e : exn) :
  mapM f l = Raise e → ∃ x, x ∈ l ∧ f x = Raise e.
Proof.
  induction l as [|x l IH]; [discriminate|].
  rewrite mapM_cons. intros H.
  apply bind_Raise in H as [H | (y & Hy & H)].
  - exists x. split; [left | done].
  - apply bind_Raise in H as [H | (k & _ & H)]; [|discriminate].
    destruct (IH H) as (x' & Hin & Hx'). exists x'. split; [by right | done].
Qed.

Lemma mapM_total {A B : Type} (f : A → result B) (g : A → B) (l : list A) :
  (∀ x, x ∈ l → f x = Ok (g x)) → mapM f l = Ok (map g l).
Proof.
  induction l as [|x l IH]; intros H; [done|].
  rewrite mapM_cons, (H x) by left. simpl.
  rewrite IH; [done|]. intros y Hy. apply H. by right.
Qed.

(** ** The model store *)

Lemma save_model_lookup (self : HaikuGenerator) (model_path tokenizer_path p : string)
    (disk : gmap string File) (f : File) :
  save_model self model_path tokenizer_path disk !! p = Some f →
  disk !! p = Some f
  ∨ (p = model_path ∧ ∃ m, model self = Some m ∧ f = H5 m)
  ∨ (p = tokenizer_path ∧ ∃ t, tokenizer self = Some t ∧ f = Pickle t).
Proof.
  unfold save_model. destruct (model self) as [m|], (tokenizer self) as [t|]; intros H.
  - destruct (decide (tokenizer_path = p)) as [->|Hne].
    + rewrite lookup_insert_eq in H. injection H as <-. right; right; eauto.
    + rewrite lookup_insert_ne in H by done.
      destruct (decide (model_path = p)) as [->|Hne'].
      * rewrite lookup_insert_eq in H. injection H as <-. right; left; eauto.
      * rewrite lookup_insert_ne in H by done. by left.
  - destruct (decide (model_path = p)) as [->|Hne'].
    + rewrite lookup_insert_eq in H. injection H as <-. right; left; eauto.
    + rewrite lookup_insert_ne in H by done. by left.
  - destruct (decide (tokenizer_path = p)) as [->|Hne].
    + rewrite lookup_insert_eq in H. injection H as <-. right; right; eauto.
    + rewrite lookup_insert_ne in H by done. by left.
  - by left.
Qed.

(** C10. [save_model] is total, so it returns on every state.  With no
    model it writes no model file (every model file on the disk
    afterwards was there before), with no tokenizer it writes no
    tokenizer file, and with neither it leaves the disk as it was.  The
    two files are not written as a unit: after [train] has raised on an
    empty corpus, [save_model] writes the tokenizer file and no model
    file. *)
Theorem save_model_absent_state (self : HaikuGenerator)
    (model_path tokenizer_path : string) (disk : gmap string File) :
  (model self = None →
     ∀ p m, save_model self model_path tokenizer_path disk !! p = Some (H5 m) →
            disk !! p = Some (H5 m))
  ∧ (tokenizer self = None →
     ∀ p t, save_model self model_path tokenizer_path disk !! p = Some (Pickle t) →
            disk !! p = Some (Pickle t))
  ∧ (model self = None → tokenizer self = None →
     save_model self model_path tokenizer_path disk = disk)
  ∧ (∀ str_lower w,
       let g := half_trained str_lower w in
       let disk' := save_model g MODEL_PATH TOKENIZER_PATH ∅ in
       model g = None ∧ disk' !! MODEL_PATH = None
       ∧ ∃ t, tokenizer g = Some t ∧ disk' !! TOKENIZER_PATH = Some (Pickle t)).
Proof.
  split; [|split; [|split]].
  - intros Hm p m H. apply save_model_lookup in H as [H | [(_ & m' & Hm' & _) | (_ & t & _ & [=])]].
    + done.
    + congruence.
  - intros Ht p t H. apply save_model_lookup in H as [H | [(_ & m' & _ & [=]) | (_ & t' & Ht' & _)]].
    + done.
    + congruence.
  - intros Hm Ht. unfold save_model. by rewrite Hm, Ht.
  - intros str_lower w. simpl. split; [done|]. split; [done|].
    eexists. split; [reflexivity|]. unfold save_model. simpl.
    apply lookup_insert_eq.
Qed.

(** ** Python and NumPy primitives *)

Lemma elem_of_range (lo hi x : Z) : x ∈ Py.range lo hi ↔ lo ≤ x < hi.
Proof.
  unfold Py.range. rewrite list_elem_of_fmap. split.
  - intros (i & -> & Hi). apply elem_of_seq in Hi. lia.
  - intros H. exists (Z.to_nat (x - lo)). split; [lia|]. apply elem_of_seq. lia.
Qed.

Lemma length_range (lo hi : Z) : length (Py.range lo hi) = Z.to_nat (hi - lo).
Proof. unfold Py.range. by rewrite length_map, length_seq. Qed.

Lemma lookup_range (lo hi : Z) (i : nat) :
  (i < Z.to_nat (hi - lo))%nat → Py.range lo hi !! i = Some (lo + Z.of_nat i).
Proof.
  intros Hi. unfold Py.range. rewrite list_lookup_fmap, lookup_seq_lt by done. done.
Qed.

Lemma length_div (l : list Q) (d : Q) : length (Np.div l d) = length l.
Proof. unfold Np.div. apply length_map. Qed.

Lemma random_choice_elem_of (a : list Z) (p : list Q) (u : Q) (x : Z) :
  Np.random_choice a p u = Ok x → x ∈ a.
Proof.
  unfold Np.random_choice. destruct a as [|a0 a]; [discriminate|].
  repeat (case_match; [discriminate|]).
  case_match eqn:Hx; [|discriminate]. intros [= <-].
  by eapply list_elem_of_lookup_2.
Qed.

Lemma length_predict (m : Model) (row : list Z) (probs : list Q) :
  predict m row = Ok probs → length probs = output_units m.
Proof.
  unfold predict. intros H. apply bind_Ok in H as (f & _ & [= <-]).
  by rewrite length_map, length_seq.
Qed.

(** ** The decoder *)

Section Decoder.

Variable str_lower : string → string.
Variable float_pow : Q → Q → Q.

Abbreviation sample_id := (sample_id str_lower float_pow).
Abbreviation generation_loop := (generation_loop str_lower float_pow).
Abbreviation run_loop := (run_loop str_lower float_pow).
Abbreviation generate_haiku_completion := (generate_haiku_completion str_lower float_pow).

(** [random.choice] draws from [range(1, len(predicted_probs))], and
    the model returns [output_units] probabilities. *)
Lemma sample_id_range t m msl temperature u text (id : Z) :
  sample_id t m msl temperature u text = Ok id →
  1 ≤ id < Z.of_nat (output_units m).
Proof.
  unfold sample_id. intros H.
  apply bind_Ok in H as (token_list & _ & H).
  apply bind_Ok in H as (padded & _ & H).
  apply bind_Ok in H as (probs & Hprobs & H).
  apply bind_Ok in H as (exponent & _ & H).
  apply random_choice_elem_of, elem_of_range in H.
  rewrite length_div, length_map, (length_predict _ _ _ Hprobs) in H. done.
Qed.

(** What a sampled id contributes to [generated_words]. *)
Lemma kept_Some wi id w :
  kept wi id = Some w ↔ decode wi id = w ∧ w ≠ END ∧ w ≠ UNK.
Proof.
  unfold kept.
  destruct (String.eqb_spec (decode wi id) END) as [He|He];
    destruct (String.eqb_spec (decode wi id) UNK) as [Hu|Hu];
    split; try (intros [= <-]); try (intros (<- & ? & ?)); try done.
Qed.

Lemma kept_None wi id :
  kept wi id = None ↔ decode wi id = END ∨ decode wi id = UNK.
Proof.
  unfold kept.
  destruct (String.eqb_spec (decode wi id) END) as [He|He];
    destruct (String.eqb_spec (decode wi id) UNK) as [Hu|Hu];
    split; try (intros [= <-]); try (intros [?|?]); auto; done.
Qed.

(** The history of a run of the loop: the ids drawn, what they leave
    in [generated_words], how many rounds they took and how the loop
    was left. *)
Lemma generation_loop_history t m msl temperature draws n st st' e :
  generation_loop t m msl temperature draws n st = (st', e) →
  ∃ ids,
    sampled st' = sampled st ++ ids
    ∧ generated_words st' = generated_words st ++ omap (kept (Keras.word_index t)) ids
    ∧ Forall (λ id, 1 ≤ id < Z.of_nat (output_units m)) ids
    ∧ (iterations st' ≤ iterations st + n)%nat
    ∧ match e with
      | Exhausted =>
          iterations st' = (iterations st + length ids)%nat ∧ length ids = n
          ∧ Forall (λ id, decode (Keras.word_index t) id ≠ END) ids
      | Break =>
          iterations st' = (iterations st + length ids)%nat
          ∧ ∃ ids0 last, ids = ids0 ++ [last]
              ∧ decode (Keras.word_index t) last = END
              ∧ Forall (λ id, decode (Keras.word_index t) id ≠ END) ids0
      | Raised _ =>
          iterations st' = S (iterations st + length ids)
          ∧ Forall (λ id, decode (Keras.word_index t) id ≠ END) ids
      end.
Proof.
  revert st. induction n as [|n IH]; intros st; simpl.
  - intros [= <- <-]. exists []. rewrite !app_nil_r. simpl.
    repeat split; auto with lia.
  - destruct (sample_id t m msl temperature (draws (iterations st))
                (current_text st)) as [id|err] eqn:Hid.
    + pose proof (sample_id_range _ _ _ _ _ _ _ Hid) as Hrange.
      destruct (String.eqb_spec (decode (Keras.word_index t) id) END) as [Hend|Hend].
      * intros [= <- <-]. exists [id]. simpl.
        rewrite (proj2 (kept_None _ _)) by auto. rewrite app_nil_r.
        repeat split; auto with lia.
        exists [], id. auto.
      * destruct (String.eqb_spec (decode (Keras.word_index t) id) UNK) as [Hunk|Hunk];
          intros H; apply IH in H as (ids & Hs & Hg & Hr & Hi & He); simpl in *;
          exists (id :: ids); simpl.
        -- rewrite (proj2 (kept_None _ _)) by auto.
           rewrite <- app_assoc in Hs. repeat split; auto with lia.
           destruct e; [destruct He as (? & ? & ?) | destruct He as (? & ids0 & last & -> & ? & ?)
                       | destruct He as (? & ?)];
             repeat split; auto with lia.
           exists (id :: ids0), last. auto.
        -- rewrite (proj2 (kept_Some _ _ _)) by auto.
           rewrite <- app_assoc in Hs, Hg. repeat split; auto with lia.
           destruct e; [destruct He as (? & ? & ?) | destruct He as (? & ids0 & last & -> & ? & ?)
                       | destruct He as (? & ?)];
             repeat split; auto with lia.
           exists (id :: ids0), last. auto.
    + intros [= <- <-]. exists []. rewrite !app_nil_r. simpl.
      repeat split; auto with lia.
Qed.


Lemma reverse_word_map_fold (l : list (string * Z)) (m0 : gmap Z string) id w :
  foldl (λ m kv, <[kv.2 := kv.1]> m) m0 l !! id = Some w →
  m0 !! id = Some w ∨ (w, id) ∈ l.
Proof.
  revert m0. induction l as [|[w' id'] l IH]; intros m0; simpl; [auto|].
  intros H. apply IH in H as [H|H]; [|right; by right].
  destruct (decide (id' = id)) as [->|Hne].
  - rewrite lookup_insert_eq in H. injection H as ->. right; left.
  - rewrite lookup_insert_ne in H by done. auto.
Qed.

(** Every entry of the reverse map comes from the word index. *)
Lemma reverse_word_map_Some (wi : gmap string Z) id w :
  reverse_word_map wi !! id = Some w → wi !! w = Some id.
Proof.
  unfold reverse_word_map. intros H.
  apply reverse_word_map_fold in H as [H|H]; [by rewrite lookup_empty in H|].
  by apply elem_of_map_to_list in H.
Qed.

Lemma kept_in_word_index (wi : gmap string Z) id w :
  kept wi id = Some w → wi !! w = Some id ∧ w ≠ UNK ∧ w ≠ END.
Proof.
  intros H. apply kept_Some in H as (Hd & He & Hu). split; [|done].
  unfold decode in Hd. destruct (reverse_word_map wi !! id) as [w'|] eqn:Hr; simpl in Hd.
  - subst w'. by apply reverse_word_map_Some.
  - congruence.
Qed.

Lemma length_omap_kept (wi : gmap string Z) (ids : list Z) :
  Forall (λ id, decode wi id ≠ END) ids →
  (length (omap (kept wi) ids) + unk_count wi ids = length ids)%nat.
Proof.
  unfold unk_count. induction 1 as [|id ids Hid _ IH]; [done|]. simpl.
  rewrite filter_cons. destruct (kept wi id) as [w|] eqn:Hk.
  - apply kept_Some in Hk as (Hd & _ & Hu).
    rewrite decide_False by congruence. simpl. f_equal. exact IH.
  - apply kept_None in Hk as [Hk|Hk]; [done|].
    rewrite decide_True by done. simpl. rewrite Nat.add_succ_r. f_equal. exact IH.
Qed.

Lemma length_omap_le {A B : Type} (f : A → option B) (l : list A) :
  (length (omap f l) ≤ length l)%nat.
Proof.
  induction l as [|x l IH]; [done|]. cbn [omap list_omap].
  destruct (f x); cbn [length]; fold (omap f l); lia.
Qed.

(** C3, amended. In a run of the generation loop every id that
    [random.choice] returns is at least 1 and below the number of
    outputs of the model, whatever the weights of the model, the
    temperature and the random draws: 0, the padding id, is never
    sampled.  For a generator whose model has one output per
    vocabulary id, as [train] leaves it when it returns, the ids lie
    in 1..vocab_size-1. *)
Theorem sampled_ids_exclude_padding self m t first_line max_length temperature draws st e :
  model self = Some m → tokenizer self = Some t →
  run_loop t m (max_sequence_length self) first_line max_length temperature draws
    = (st, e) →
  Forall (λ id, 1 ≤ id ≤ Z.of_nat (output_units m) - 1) (sampled st)
  ∧ (consistent self → Forall (λ id, 1 ≤ id ≤ vocab_size self - 1) (sampled st)).
Proof.
  intros Hm Ht Hrun. unfold run_loop in Hrun.
  apply generation_loop_history in Hrun as (ids & Hs & _ & Hr & _).
  simpl in Hs. subst ids.
  assert (Hunits : Forall (λ id, 1 ≤ id ≤ Z.of_nat (output_units m) - 1) (sampled st)).
  { eapply Forall_impl; [exact Hr|]. simpl. lia. }
  split; [done|]. intros Hc. by rewrite <- (Hc m Hm).
Qed.

(** C4. For a max_length m >= 0 the body of the generation loop is
    entered at most m times and at most m words are generated,
    whatever the seed line, the temperature, the draws and the way
    the loop is left. *)
Theorem generation_bounded t m msl first_line max_length temperature draws st e :
  0 ≤ max_length →
  run_loop t m msl first_line max_length temperature draws = (st, e) →
  Z.of_nat (iterations st) ≤ max_length
  ∧ Z.of_nat (length (generated_words st)) ≤ max_length.
Proof.
  intros Hm Hrun. unfold run_loop in Hrun.
  apply generation_loop_history in Hrun as (ids & _ & Hg & _ & Hi & He).
  simpl in *. split; [lia|].
  rewrite Hg. pose proof (length_omap_le (kept (Keras.word_index t)) ids).
  assert (length ids ≤ iterations st)%nat; [|lia].
  destruct e; [destruct He as (-> & _) | destruct He as (-> & _) | destruct He as (-> & _)]; lia.
Qed.

(** C5, amended. If the id drawn at step k of the loop (counting from
    0) decodes to ["<end>"], the loop is left by [break] in that
    step, after k+1 rounds with k < max_length, and [generated_words] then
    holds k words less one for every earlier draw that decoded to
    ["<unk>"]. *)
Theorem end_stops_generation t m msl first_line max_length temperature draws st e k id :
  run_loop t m msl first_line max_length temperature draws = (st, e) →
  sampled st !! k = Some id →
  decode (Keras.word_index t) id = END →
  e = Break
  ∧ iterations st = S k
  ∧ Z.of_nat k < max_length
  ∧ (length (generated_words st)
     + unk_count (Keras.word_index t) (take k (sampled st)) = k)%nat.
Proof.
  intros Hrun Hk Hend. unfold run_loop in Hrun.
  apply generation_loop_history in Hrun as (ids & Hs & Hg & _ & Hi & He).
  simpl in *. rewrite Hs in *.
  assert (Hno : ∀ l : list Z, Forall (λ i, decode (Keras.word_index t) i ≠ END) l →
                l !! k = Some id → False).
  { intros l Hl Hlk. eapply Forall_lookup_1 in Hl; [|exact Hlk]. done. }
  destruct e.
  - destruct He as (_ & _ & He). destruct (Hno _ He Hk).
  - destruct He as (Hit & ids0 & last & -> & Hlast & He).
    destruct (decide (k < length ids0)%nat) as [Hlt|Hge].
    + rewrite lookup_app_l in Hk by done. destruct (Hno _ He Hk).
    + apply lookup_lt_Some in Hk as Hlen. rewrite length_app in Hlen. simpl in Hlen.
      assert (k = length ids0) as -> by lia.
      rewrite take_app_length, omap_app, length_app in *. simpl in *.
      rewrite (proj2 (kept_None _ _)) in Hg by auto.
      rewrite Hg, app_nil_r.
      repeat split; [lia | lia |].
      by apply length_omap_kept.
  - destruct He as (_ & He). destruct (Hno _ He Hk).
Qed.

(** C8. Without a model or without a tokenizer
    [generate_haiku_completion] raises the [ValueError] of
    training.py:124, whatever its arguments and before anything is
    tokenized, predicted or drawn; with both it runs the loop and
    returns what the loop gives. *)
Theorem generate_requires_training self first_line max_length temperature draws :
  (model self = None ∨ tokenizer self = None →
     generate_haiku_completion self first_line max_length temperature draws
     = Raise (ValueError NotTrained))
  ∧ (∀ m t, model self = Some m → tokenizer self = Some t →
       generate_haiku_completion self first_line max_length temperature draws
       = match run_loop t m (max_sequence_length self) first_line max_length
                        temperature draws with
         | (_, Raised e) => Raise e
         | (st, _) => Ok (format_result (generated_words st))
         end).
Proof.
  unfold generate_haiku_completion. split.
  - intros [H|H]; rewrite H; [done|]. by destruct (model self).
  - intros m t -> ->. done.
Qed.

End Decoder.

(** ** Training pairs *)

Lemma first_line_end_from_app (i line : Z) (pre post : list Z) :
  line ∉ pre →
  first_line_end_from i line (pre ++ line :: post) = i + Z.of_nat (length pre).
Proof.
  revert i. induction pre as [|x pre IH]; intros i Hpre; simpl.
  - rewrite Z.eqb_refl. lia.
  - apply not_elem_of_cons in Hpre as [Hx Hpre].
    destruct (Z.eqb_spec x line) as [->|_]; [done|].
    rewrite IH by done. lia.
Qed.

Lemma first_line_end_from_absent (i line : Z) (full_sequence : list Z) :
  line ∉ full_sequence → first_line_end_from i line full_sequence = -1.
Proof.
  revert i. induction full_sequence as [|x l IH]; intros i Hl; simpl; [done|].
  apply not_elem_of_cons in Hl as [Hx Hl].
  destruct (Z.eqb_spec x line) as [->|_]; [done|]. by apply IH.
Qed.

(** A sequence either lacks the marker or splits at its first
    occurrence. *)
Lemma first_occurrence (line : Z) (l : list Z) :
  line ∉ l ∨ ∃ pre post, l = pre ++ line :: post ∧ line ∉ pre.
Proof.
  induction l as [|x l IH]; [left; apply not_elem_of_nil|].
  destruct (decide (x = line)) as [->|Hx].
  - right. exists [], l. split; [done | apply not_elem_of_nil].
  - destruct IH as [IH | (pre & post & -> & Hpre)].
    + left. by apply not_elem_of_cons.
    + right. exists (x :: pre), post. split; [done|]. by apply not_elem_of_cons.
Qed.

(** A haiku without the marker is skipped (training.py:60-61). *)
Lemma haiku_pairs_absent (line : Z) (full_sequence : list Z) :
  line ∉ full_sequence → haiku_pairs line full_sequence = Ok [].
Proof.
  intros H. unfold haiku_pairs. by rewrite first_line_end_from_absent.
Qed.

(** The pairs of a haiku whose first marker stands after [pre]: one for
    every token of [post], the input being everything before it. *)
Lemma haiku_pairs_split (line : Z) (pre post : list Z) :
  line ∉ pre →
  haiku_pairs line (pre ++ line :: post)
  = Ok (imap (λ j y, (pre ++ line :: take j post, y)) post).
Proof.
  intros Hpre. unfold haiku_pairs. rewrite first_line_end_from_app by done.
  destruct (Z.eqb_spec (0 + Z.of_nat (length pre)) (-1)) as [?|_]; [lia|].
  set (full := pre ++ line :: post).
  rewrite (mapM_total _ (λ i, (take (Z.to_nat i) full, default 0 (full !! Z.to_nat i)))).
  - f_equal. apply list_eq. intros j.
    rewrite list_lookup_fmap, list_lookup_imap.
    assert (Hlen : length full = (length pre + S (length post))%nat).
    { unfold full. by rewrite length_app. }
    destruct (decide (j < length post)%nat) as [Hj|Hj].
    + rewrite lookup_range by lia. simpl.
      destruct (lookup_lt_is_Some_2 post j Hj) as [y Hy]. rewrite Hy. simpl.
      replace (Z.to_nat (0 + Z.of_nat (length pre) + 1 + Z.of_nat j))
        with (length pre + S j)%nat by lia.
      unfold full. rewrite take_app_add'. 2: done.
      rewrite lookup_app_r by lia.
      replace (length pre + S j - length pre)%nat with (S j) by lia.
      simpl. by rewrite Hy.
    + rewrite (proj2 (lookup_ge_None _ _)).
      * by rewrite (proj2 (lookup_ge_None post j)) by lia.
      * rewrite length_range. lia.
  - intros i Hi. apply elem_of_range in Hi. unfold item.
    destruct (lookup_lt_is_Some_2 full (Z.to_nat i)) as [y Hy]; [lia|].
    by rewrite Hy.
Qed.

(** [haiku_pairs] never raises: the indices it uses are in range. *)
Lemma haiku_pairs_total (line : Z) (full_sequence : list Z) :
  ∃ pairs, haiku_pairs line full_sequence = Ok pairs.
Proof.
  destruct (first_occurrence line full_sequence) as [H | (pre & post & -> & H)].
  - eexists. by apply haiku_pairs_absent.
  - eexists. by apply haiku_pairs_split.
Qed.

Lemma pad_row_fits (maxlen : Z) (s : list Z) :
  Z.of_nat (length s) ≤ maxlen →
  Keras.pad_row maxlen s = Ok (replicate (Z.to_nat maxlen - length s) 0 ++ s).
Proof.
  intros Hlen. unfold Keras.pad_row. destruct s as [|x s'] eqn:Hs.
  - simpl. by rewrite Nat.sub_0_r, app_nil_r.
  - rewrite <- Hs in *. assert (0 < length s)%nat by (subst s; simpl; lia).
    assert (Hts : Py.slice_from s (- maxlen) = s).
    { unfold Py.slice_from. destruct (Z.ltb_spec (- maxlen) 0); [|lia].
      by replace (Z.to_nat (Z.max (Z.of_nat (length s) + - maxlen) 0)) with 0%nat by lia. }
    rewrite Hts.
    assert (Hw : Py.slice_from (replicate (Z.to_nat maxlen) 0) (- Z.of_nat (length s))
                 = replicate (length s) 0).
    { unfold Py.slice_from. rewrite length_replicate.
      destruct (Z.ltb_spec (- Z.of_nat (length s)) 0); [|lia].
      rewrite drop_replicate. f_equal. lia. }
    rewrite Hw, length_replicate, Nat.eqb_refl, take_replicate, length_replicate.
    do 3 f_equal. lia.
Qed.

(** Padding to the length of the longest sequence never raises and
    puts the zeros in front. *)
Lemma pad_sequences_to_longest (sequences : list (list Z)) :
  let maxlen := foldr Z.max 0 (map (λ s, Z.of_nat (length s)) sequences) in
  Keras.pad_sequences sequences maxlen
  = Ok (map (λ s, replicate (Z.to_nat maxlen - length s) 0 ++ s) sequences).
Proof.
  intros maxlen. unfold Keras.pad_sequences.
  assert (Hmax : ∀ s, s ∈ sequences → Z.of_nat (length s) ≤ maxlen).
  { subst maxlen. induction sequences as [|s0 l IH]; intros s Hs.
    - by apply elem_of_nil in Hs.
    - simpl. apply elem_of_cons in Hs as [->|Hs]; [lia|]. specialize (IH s Hs). lia. }
  assert (0 ≤ maxlen).
  { subst maxlen. destruct sequences; simpl; lia. }
  destruct (Z.ltb_spec maxlen 0); [lia|].
  apply mapM_total. intros s Hs. apply pad_row_fits. by apply Hmax.
Qed.

Lemma to_categorical_Raise (y : list Z) (num_classes : Z) (e : exn) :
  Keras.to_categorical y num_classes = Raise e → e = IndexError.
Proof.
  unfold Keras.to_categorical. intros H.
  apply mapM_Raise in H as (x & _ & H). unfold Keras.one_hot in H.
  by case_match; [injection H as <-|].
Qed.

Section Corpus.

Variable str_lower : string → string.

Abbreviation texts_to_sequences := (Keras.texts_to_sequences str_lower).
Abbreviation fit_on_texts := (Keras.fit_on_texts str_lower).
Abbreviation training_pairs := (training_pairs str_lower).
Abbreviation prepare_data := (prepare_data str_lower).

Lemma texts_to_sequences_Raise t text e :
  texts_to_sequences t text = Raise e → e = TypeError.
Proof.
  unfold texts_to_sequences.
  destruct (Keras.oov_token t) as [oov|]; simpl;
    [destruct (Keras.word_index t !! oov) as [j|]|];
    induction (Keras.text_to_word_sequence str_lower (Keras.filters t) text)
      as [|w ws IH]; simpl; try discriminate;
    destruct (Keras.word_index t !! w) as [i|]; try done;
    intros H; try (by injection H as <-);
    apply bind_Raise in H as [H | (? & _ & [=])]; auto.
Qed.

(** The pairs of a corpus are those of its first haiku followed by
    those of the rest. *)
Lemma training_pairs_cons t haiku haikus :
  training_pairs t (haiku :: haikus)
  = (full_sequence ← texts_to_sequences t (full_haiku haiku);
     pairs ← haiku_pairs (default 0 (Keras.word_index t !! LINE)) full_sequence;
     rest ← training_pairs t haikus;
     Ok (pairs ++ rest)).
Proof.
  unfold training_pairs. rewrite mapM_cons.
  destruct (texts_to_sequences t (full_haiku haiku)) as [s|e]; simpl; [|done].
  destruct (haiku_pairs _ s) as [ps|e]; simpl; [|done].
  by destruct (mapM _ haikus).
Qed.

Lemma training_pairs_Raise t haikus e :
  training_pairs t haikus = Raise e → e = TypeError.
Proof.
  induction haikus as [|h hs IH]; [discriminate|].
  rewrite training_pairs_cons. intros H.
  apply bind_Raise in H as [H | (s & _ & H)].
  { by apply texts_to_sequences_Raise in H. }
  destruct (haiku_pairs_total (default 0 (Keras.word_index t !! LINE)) s) as [ps Hps].
  rewrite Hps in H. simpl in H.
  apply bind_Raise in H as [H | (? & _ & [=])]. auto.
Qed.

(** The outcome of [prepare_data] on a corpus whose pairs could be
    built: the [ValueError] of training.py:81 when there are none,
    otherwise the padded inputs and whatever [to_categorical]
    makes of the targets. *)
Lemma prepare_data_outcome self haikus pairs :
  training_pairs (fit_on_texts (Keras.new FILTERS (Some UNK)) (map full_haiku haikus))
                 haikus = Ok pairs →
  (pairs = [] ∧ (prepare_data self haikus).2 = Raise (ValueError NoSequences))
  ∨ (pairs ≠ [] ∧ ((prepare_data self haikus).2 = Raise IndexError
                   ∨ ∃ Xy, (prepare_data self haikus).2 = Ok Xy)).
Proof.
  intros Hpairs. unfold prepare_data. rewrite Hpairs.
  destruct pairs as [|p pairs]; [left; done|]. right. split; [done|].
  simpl. set (inputs := p.1 :: map fst pairs).
  pose proof (pad_sequences_to_longest inputs) as Hpad. simpl in Hpad.
  unfold inputs in *. simpl in Hpad. rewrite Hpad. simpl.
  match goal with |- context [Keras.to_categorical ?y ?n] =>
    destruct (Keras.to_categorical y n) as [cat|e] eqn:Hcat end; simpl.
  - right. eauto.
  - left. by apply to_categorical_Raise in Hcat as ->.
Qed.

(** C2, amended. Let the flattened sequence of a haiku be
    [pre ++ line :: post], with the first marker after the tokens
    [pre], so that n = [length post] tokens follow the marker.  Then
    the haiku adds exactly n pairs to those of the rest of the
    corpus; the j-th of them (from 0) has the input
    [pre ++ line :: take j post] and the target [post !! j], so the
    input lengths are the consecutive numbers
    [length pre + 1], ..., [length pre + n]. *)
Theorem pairs_after_first_line t haiku haikus pre post rest :
  let line := default 0 (Keras.word_index t !! LINE) in
  texts_to_sequences t (full_haiku haiku) = Ok (pre ++ line :: post) →
  line ∉ pre →
  training_pairs t haikus = Ok rest →
  ∃ pairs,
    training_pairs t (haiku :: haikus) = Ok (pairs ++ rest)
    ∧ length pairs = length post
    ∧ map (λ p, length p.1) pairs = seq (S (length pre)) (length post)
    ∧ ∀ j y, post !! j = Some y →
             pairs !! j = Some (pre ++ line :: take j post, y).
Proof.
  intros line Hseq Hpre Hrest.
  exists (imap (λ j y, (pre ++ line :: take j post, y)) post).
  split; [|split; [|split]].
  - rewrite training_pairs_cons, Hseq. simpl.
    fold line. rewrite haiku_pairs_split by done. simpl. by rewrite Hrest.
  - apply length_imap.
  - apply list_eq. intros j. rewrite list_lookup_fmap, list_lookup_imap.
    destruct (post !! j) as [y|] eqn:Hy; simpl.
    + apply lookup_lt_Some in Hy as Hj. rewrite lookup_seq_lt by done.
      f_equal. rewrite length_app. simpl. rewrite length_take. lia.
    + apply lookup_ge_None in Hy. by rewrite lookup_seq_ge.
  - intros j y Hy. by rewrite list_lookup_imap, Hy.
Qed.

(** C6. [prepare_data] raises the [ValueError] of training.py:81
    exactly when the loop over the corpus has produced no pair, and
    it raises no other [ValueError].  A haiku whose sequence lacks the
    marker yields no pair and no error: the corpus has the pairs it
    has without that haiku. *)
Theorem prepare_data_fails_iff_no_pairs self haikus :
  let t := fit_on_texts (Keras.new FILTERS (Some UNK)) (map full_haiku haikus) in
  ((prepare_data self haikus).2 = Raise (ValueError NoSequences)
   ↔ training_pairs t haikus = Ok [])
  ∧ (∀ why, (prepare_data self haikus).2 = Raise (ValueError why) → why = NoSequences)
  ∧ (∀ line full_sequence,
       line ∉ full_sequence → haiku_pairs line full_sequence = Ok [])
  ∧ (∀ t' haiku haikus' full_sequence,
       texts_to_sequences t' (full_haiku haiku) = Ok full_sequence →
       default 0 (Keras.word_index t' !! LINE) ∉ full_sequence →
       training_pairs t' (haiku :: haikus') = training_pairs t' haikus').
Proof.
  intros t. split; [|split; [|split]].
  - destruct (training_pairs t haikus) as [pairs|e] eqn:Hpairs.
    + destruct (prepare_data_outcome self haikus pairs Hpairs)
        as [(-> & H) | (Hne & [H | (Xy & H)])]; rewrite H; split; congruence.
    + unfold prepare_data. fold t. rewrite Hpairs. simpl.
      apply training_pairs_Raise in Hpairs as ->. split; discriminate.
  - intros why. destruct (training_pairs t haikus) as [pairs|e] eqn:Hpairs.
    + destruct (prepare_data_outcome self haikus pairs Hpairs)
        as [(-> & H) | (Hne & [H | (Xy & H)])]; rewrite H; congruence.
    + unfold prepare_data. fold t. rewrite Hpairs. simpl.
      apply training_pairs_Raise in Hpairs as ->. discriminate.
  - apply haiku_pairs_absent.
  - intros t' haiku haikus' s Hs Hline.
    rewrite training_pairs_cons, Hs. simpl.
    rewrite haiku_pairs_absent by done. simpl.
    by destruct (training_pairs t' haikus').
Qed.

End Corpus.

(** ** The vocabulary *)

Lemma first_seen_snoc (ws : list string) (w : string) :
  first_seen (ws ++ [w])
  = if decide (w ∈ first_seen ws) then first_seen ws else first_seen ws ++ [w].
Proof. unfold first_seen. by rewrite foldl_snoc. Qed.

Lemma elem_of_first_seen (ws : list string) (w : string) :
  w ∈ first_seen ws ↔ w ∈ ws.
Proof.
  induction ws as [|w' ws IH] using rev_ind.
  - done.
  - rewrite first_seen_snoc, elem_of_app, list_elem_of_singleton.
    case_decide as Hin.
    + rewrite IH. split; [auto|]. intros [?| ->]; [done|]. by apply IH.
    + by rewrite elem_of_app, list_elem_of_singleton, IH.
Qed.

Lemma NoDup_first_seen (ws : list string) : NoDup (first_seen ws).
Proof.
  induction ws as [|w ws IH] using rev_ind.
  - constructor.
  - rewrite first_seen_snoc. case_decide as Hin; [done|].
    apply NoDup_app. split; [done|]. split; [|apply NoDup_singleton].
    intros x Hx ->%list_elem_of_singleton. done.
Qed.

Lemma occurrences_snoc (w w' : string) (ws : list string) :
  occurrences w (ws ++ [w'])
  = (occurrences w ws + if decide (w' = w) then 1 else 0)%nat.
Proof.
  unfold occurrences. rewrite filter_app, length_app. f_equal.
  rewrite filter_cons, filter_nil. by case_decide.
Qed.

Lemma occurrences_absent (w : string) (ws : list string) :
  w ∉ ws → occurrences w ws = 0%nat.
Proof.
  intros Hw. unfold occurrences.
  destruct (filter (λ w', w' = w) ws) as [|x l] eqn:Hf; [done|].
  assert (Hx : x ∈ filter (λ w', w' = w) ws) by (rewrite Hf; left).
  apply list_elem_of_filter in Hx as [-> Hx]. done.
Qed.

(** [count_word] on a table with distinct keys. *)
Lemma count_word_table (w' : string) (f : string → nat) (ks : list string) :
  NoDup ks →
  Keras.count_word w' (map (λ w, (w, f w)) ks)
  = if decide (w' ∈ ks)
    then map (λ w, (w, if decide (w' = w) then S (f w) else f w)) ks
    else map (λ w, (w, f w)) ks ++ [(w', 1%nat)].
Proof.
  induction 1 as [|k ks Hk Hnd IH].
  - by rewrite decide_False by apply not_elem_of_nil.
  - cbn [map Keras.count_word]. destruct (String.eqb_spec w' k) as [->|Hne].
    + rewrite decide_True by left. rewrite decide_True by done. f_equal.
      apply map_ext_in. intros w Hw%list_elem_of_In.
      rewrite decide_False; [done|]. by intros ->.
    + rewrite IH. destruct (decide (w' ∈ ks)) as [Hin|Hin].
      * rewrite decide_True by by right. by rewrite decide_False by done.
      * rewrite decide_False; [done|]. by intros [?|?]%elem_of_cons.
Qed.

(** The table that [fit_on_texts] builds: the distinct words in the
    order of their first occurrence, each with the number of its
    occurrences. *)
Lemma word_counts_table (ws : list string) :
  foldl (λ wc w, Keras.count_word w wc) [] ws
  = map (λ w, (w, occurrences w ws)) (first_seen ws).
Proof.
  induction ws as [|w' ws IH] using rev_ind; [done|].
  rewrite foldl_snoc, IH, count_word_table by apply NoDup_first_seen.
  rewrite first_seen_snoc. case_decide as Hin.
  - apply map_ext_in. intros w Hw. rewrite occurrences_snoc.
    f_equal. repeat case_decide; subst; try done; lia.
  - rewrite map_app. simpl. f_equal.
    + apply map_ext_in. intros w Hw%list_elem_of_In. rewrite occurrences_snoc.
      rewrite decide_False; [f_equal; lia|]. by intros ->.
    + rewrite occurrences_snoc, decide_True by done.
      rewrite occurrences_absent; [done|]. by rewrite <- elem_of_first_seen.
Qed.

(** [sort_desc] is a stable sort by decreasing count. *)

Lemma insert_desc_Permutation (x : string * nat) (l : list (string * nat)) :
  Keras.insert_desc x l ≡ₚ x :: l.
Proof.
  induction l as [|y l IH]; simpl; [done|].
  case_match; [|done]. rewrite IH. apply Permutation_swap.
Qed.

Lemma sort_desc_Permutation (l : list (string * nat)) : Keras.sort_desc l ≡ₚ l.
Proof.
  induction l as [|x l IH]; simpl; [done|].
  by rewrite insert_desc_Permutation, IH.
Qed.

Lemma insert_desc_sorted (x : string * nat) (l : list (string * nat)) :
  StronglySorted (λ a b, b.2 ≤ a.2)%nat l →
  StronglySorted (λ a b, b.2 ≤ a.2)%nat (Keras.insert_desc x l).
Proof.
  induction 1 as [|y l Hl IH Hy]; simpl.
  - repeat constructor.
  - destruct (Nat.ltb_spec x.2 y.2) as [Hlt|Hge].
    + constructor; [done|]. rewrite insert_desc_Permutation.
      constructor; [lia | done].
    + constructor; [by constructor|]. constructor; [done|].
      eapply Forall_impl; [exact Hy|]. simpl. lia.
Qed.

Lemma sort_desc_sorted (l : list (string * nat)) :
  StronglySorted (λ a b, b.2 ≤ a.2)%nat (Keras.sort_desc l).
Proof.
  induction l as [|x l IH]; simpl; [constructor | by apply insert_desc_sorted].
Qed.

Lemma insert_desc_stable (c : nat) (x : string * nat) (l : list (string * nat)) :
  filter (λ y, y.2 = c) (Keras.insert_desc x l) = filter (λ y, y.2 = c) (x :: l).
Proof.
  induction l as [|y l IH]; simpl; [done|].
  destruct (Nat.ltb_spec x.2 y.2) as [Hlt|Hge]; [|done].
  rewrite (filter_cons _ y), IH, !filter_cons.
  repeat case_decide; try done; lia.
Qed.

(** Entries of equal count keep the order they had. *)
Lemma sort_desc_stable (c : nat) (l : list (string * nat)) :
  filter (λ y, y.2 = c) (Keras.sort_desc l) = filter (λ y, y.2 = c) l.
Proof.
  induction l as [|x l IH]; simpl; [done|].
  by rewrite insert_desc_stable, !filter_cons, IH.
Qed.

(** [dict_zip] numbers the keys from 1. *)

Lemma range_snoc (n : nat) :
  Py.range 1 (Z.of_nat (S n) + 1) = Py.range 1 (Z.of_nat n + 1) ++ [Z.of_nat n + 1].
Proof.
  unfold Py.range.
  replace (Z.to_nat (Z.of_nat (S n) + 1 - 1)) with (S n) by lia.
  replace (Z.to_nat (Z.of_nat n + 1 - 1)) with n by lia.
  rewrite seq_S, map_app. simpl. do 2 f_equal. lia.
Qed.

Lemma dict_zip_snoc (keys : list string) (k : string) :
  Keras.dict_zip (keys ++ [k])
  = <[k := Z.of_nat (length keys) + 1]> (Keras.dict_zip keys).
Proof.
  unfold Keras.dict_zip. rewrite length_app. simpl.
  replace (length keys + 1)%nat with (S (length keys)) by lia.
  rewrite range_snoc, zip_with_app by (rewrite length_range; lia).
  cbn [zip_with]. by rewrite foldl_snoc.
Qed.

Lemma dict_zip_lookup_Some (keys : list string) (w : string) (id : Z) :
  Keras.dict_zip keys !! w = Some id →
  1 ≤ id ≤ Z.of_nat (length keys) ∧ keys !! Z.to_nat (id - 1) = Some w.
Proof.
  induction keys as [|k keys IH] using rev_ind.
  - unfold Keras.dict_zip. simpl. by rewrite lookup_empty.
  - rewrite dict_zip_snoc, length_app. simpl.
    destruct (decide (k = w)) as [->|Hne].
    + rewrite lookup_insert_eq. intros [= <-]. split; [lia|].
      replace (Z.to_nat (Z.of_nat (length keys) + 1 - 1)) with (length keys) by lia.
      by rewrite lookup_app_r, Nat.sub_diag by done.
    + rewrite lookup_insert_ne by done. intros [Hid Hw]%IH. split; [lia|].
      by rewrite lookup_app_l by (apply lookup_lt_Some in Hw; done).
Qed.

Lemma dict_zip_is_Some (keys : list string) (w : string) :
  is_Some (Keras.dict_zip keys !! w) ↔ w ∈ keys.
Proof.
  induction keys as [|k keys IH] using rev_ind.
  - unfold Keras.dict_zip. simpl. rewrite lookup_empty, elem_of_nil.
    split; [by intros [? ?] | done].
  - rewrite dict_zip_snoc, elem_of_app, list_elem_of_singleton.
    destruct (decide (k = w)) as [->|Hne].
    + rewrite lookup_insert_eq. split; eauto.
    + rewrite lookup_insert_ne, IH by done. split; [auto|]. by intros [?| ->].
Qed.

(** With distinct keys, the key at position i gets the id i + 1 and the
    dictionary has one entry per key. *)
Lemma dict_zip_NoDup (keys : list string) :
  NoDup keys →
  size (Keras.dict_zip keys) = length keys
  ∧ ∀ i w, keys !! i = Some w → Keras.dict_zip keys !! w = Some (Z.of_nat i + 1).
Proof.
  induction keys as [|k keys IH] using rev_ind; intros Hnd.
  - unfold Keras.dict_zip. simpl. rewrite map_size_empty. split; [done|].
    intros i w. by rewrite lookup_nil.
  - apply NoDup_app in Hnd as (Hnd & Hk & _).
    destruct (IH Hnd) as [Hsize Hlook].
    assert (Hfresh : k ∉ keys).
    { intros Hin. apply (Hk k Hin). left. }
    rewrite dict_zip_snoc, length_app. simpl. split.
    + rewrite map_size_insert_None; [lia|].
      apply eq_None_not_Some. by rewrite dict_zip_is_Some.
    + intros i w Hi. destruct (decide (i < length keys)%nat) as [Hlt|Hge].
      * rewrite lookup_app_l in Hi by done.
        rewrite lookup_insert_ne; [by apply Hlook|].
        intros ->. apply Hfresh. by eapply list_elem_of_lookup_2.
      * rewrite lookup_app_r in Hi by lia.
        destruct (i - length keys)%nat eqn:Hd; [|done].
        injection Hi as ->. rewrite lookup_insert_eq. do 2 f_equal. lia.
Qed.

(** The order of two elements of a list. *)

Lemma before_lookup {A : Type} (l : list A) (i j : nat) (x y : A) :
  l !! i = Some x → l !! j = Some y → (i < j)%nat → before x y l.
Proof.
  intros Hi Hj Hlt. unfold before.
  rewrite <- (take_drop_middle l i x Hi).
  change [x; y] with ([] ++ x :: [y]).
  apply sublist_app; [apply sublist_nil_l|].
  constructor. apply singleton_sublist_l.
  apply list_elem_of_lookup. exists (j - S i)%nat.
  rewrite lookup_drop. rewrite <- Hj. f_equal. lia.
Qed.

Lemma before_NoDup_ne {A : Type} (l : list A) (x : A) :
  NoDup l → ¬ before x x l.
Proof.
  intros Hnd Hb. apply (sublist_NoDup _ _ Hnd) in Hb.
  apply NoDup_cons in Hb as [Hx _]. apply Hx. left.
Qed.

Lemma before_antisym {A : Type} (l : list A) (x y : A) :
  NoDup l → before x y l → before y x l → False.
Proof.
  unfold before. induction 1 as [|a l Ha Hnd IH]; intros H1 H2.
  - by apply sublist_nil_r in H1.
  - apply sublist_cons_r in H1 as [H1 | (l1 & [= <- <-] & H1)];
      apply sublist_cons_r in H2 as [H2 | (l2 & [= <- <-] & H2)].
    + by apply IH.
    + apply Ha. eapply elem_of_sublist; [|exact H1]. right; left.
    + apply Ha. eapply elem_of_sublist; [|exact H2]. right; left.
    + apply Ha. apply singleton_sublist_l in H1. done.
Qed.

Lemma before_sorted {A : Type} (R : relation A) (l : list A) (x y : A) :
  StronglySorted R l → before x y l → R x y.
Proof.
  unfold before. induction 1 as [|a l Hl IH Ha]; intros H.
  - by apply sublist_nil_r in H.
  - apply sublist_cons_r in H as [H | (l1 & [= <- <-] & H)]; [by apply IH|].
    apply singleton_sublist_l in H. rewrite Forall_forall in Ha. by apply Ha.
Qed.

Lemma sublist_filter_mono {A : Type} (P : A → Prop) `{∀ x, Decision (P x)}
    (l1 l2 : list A) :
  l1 `sublist_of` l2 → filter P l1 `sublist_of` filter P l2.
Proof.
  induction 1 as [|x l1 l2 _ IH|x l1 l2 _ IH]; [done| |].
  - rewrite !filter_cons. case_decide; [by constructor | done].
  - rewrite filter_cons. case_decide; [by constructor | done].
Qed.

Lemma before_filter {A : Type} (P : A → Prop) `{∀ x, Decision (P x)}
    (l : list A) (x y : A) :
  P x → P y → before x y l → before x y (filter P l).
Proof.
  intros Hx Hy Hb. unfold before in *.
  apply (sublist_filter_mono P) in Hb.
  by rewrite !filter_cons, decide_True, decide_True, filter_nil in Hb.
Qed.

Lemma keys_of_table (f : string → nat) (ks : list string) :
  map fst (map (λ w, (w, f w)) ks) = ks.
Proof. induction ks as [|k ks IH]; simpl; [done | by f_equal]. Qed.

(** In the sorted table, an entry stands before another one only if
    its count is larger, or equal and met earlier. *)
Lemma sort_desc_order (f : string → nat) (ks : list string) (i j : nat) (a b : string) :
  let s := Keras.sort_desc (map (λ w, (w, f w)) ks) in
  s !! i = Some (a, f a) → s !! j = Some (b, f b) → (i < j)%nat →
  (f b < f a)%nat ∨ (f a = f b ∧ before a b ks).
Proof.
  intros s Hi Hj Hlt.
  pose proof (before_lookup s i j _ _ Hi Hj Hlt) as Hb.
  pose proof (before_sorted _ s _ _ (sort_desc_sorted _) Hb) as Hle. simpl in Hle.
  destruct (decide (f b < f a)%nat) as [?|Hnlt]; [by left|]. right.
  assert (Heq : f a = f b) by lia. split; [done|].
  apply (before_filter (λ y, y.2 = f a)) in Hb; [|done|by simpl].
  unfold s in Hb. rewrite sort_desc_stable in Hb.
  assert (Hsub : before (a, f a) (b, f b) (map (λ w, (w, f w)) ks)).
  { unfold before in *. etrans; [exact Hb|]. apply sublist_filter. }
  unfold before in *. apply (fmap_sublist fst) in Hsub.
  by rewrite keys_of_table in Hsub.
Qed.

Lemma foldl_concat_map {A B C : Type} (f : A → B → A) (g : C → list B) (a : A) (l : list C) :
  foldl (λ acc x, foldl f acc (g x)) a l = foldl f a (concat (map g l)).
Proof.
  revert a. induction l as [|x l IH]; intros a; simpl; [done|].
  by rewrite foldl_app, IH.
Qed.

Section Vocabulary.

Variable str_lower : string → string.

Abbreviation fit_on_texts := (Keras.fit_on_texts str_lower).
Abbreviation prepare_data := (prepare_data str_lower).
Abbreviation corpus_words := (corpus_words str_lower).

Abbreviation fitted := (fitted str_lower).
Abbreviation sorted_counts := (sorted_counts str_lower).

Lemma fitted_word_index haikus :
  Keras.word_index (fitted haikus)
  = Keras.dict_zip (UNK :: map fst (sorted_counts haikus)).
Proof.
  unfold fitted, sorted_counts, Keras.fit_on_texts. simpl.
  rewrite foldl_concat_map, map_map.
  fold (corpus_words haikus). by rewrite word_counts_table.
Qed.

Lemma prepare_data_tokenizer self haikus :
  tokenizer (prepare_data self haikus).1 = Some (fitted haikus)
  ∧ vocab_size (prepare_data self haikus).1
    = Z.of_nat (size (Keras.word_index (fitted haikus))) + 1.
Proof.
  unfold prepare_data. fold (fitted haikus).
  destruct (training_pairs str_lower (fitted haikus) haikus) as [[|p pairs]|e]; done.
Qed.

Lemma sorted_counts_keys haikus :
  map fst (sorted_counts haikus) ≡ₚ first_seen (corpus_words haikus).
Proof.
  unfold sorted_counts.
  etrans; [apply Permutation_map, sort_desc_Permutation|]. by rewrite keys_of_table.
Qed.

Lemma sorted_counts_entry haikus i x :
  sorted_counts haikus !! i = Some x →
  x.1 ∈ corpus_words haikus ∧ x.2 = occurrences x.1 (corpus_words haikus).
Proof.
  intros Hi. apply list_elem_of_lookup_2 in Hi.
  unfold sorted_counts in Hi. rewrite sort_desc_Permutation in Hi.
  apply list_elem_of_fmap in Hi as (w & -> & Hw). simpl.
  split; [by apply elem_of_first_seen | done].
Qed.

Lemma NoDup_sorted_voc haikus :
  UNK ∉ corpus_words haikus → NoDup (UNK :: map fst (sorted_counts haikus)).
Proof.
  intros Hunk. apply NoDup_cons. split.
  - rewrite sorted_counts_keys, elem_of_first_seen. done.
  - rewrite sorted_counts_keys. apply NoDup_first_seen.
Qed.

(** The position of a corpus word in the sorted table gives its id. *)
Lemma word_position haikus w id :
  UNK ∉ corpus_words haikus → w ∈ corpus_words haikus →
  Keras.word_index (fitted haikus) !! w = Some id →
  ∃ i, id = Z.of_nat i + 2
       ∧ sorted_counts haikus !! i = Some (w, occurrences w (corpus_words haikus)).
Proof.
  intros Hunk Hw Hid. rewrite fitted_word_index in Hid.
  apply dict_zip_lookup_Some in Hid as [Hrange Hkey].
  destruct (Z.to_nat (id - 1)) as [|i] eqn:Hi; simpl in Hkey.
  { injection Hkey as <-. done. }
  exists i. split; [lia|].
  rewrite list_lookup_fmap in Hkey.
  destruct (sorted_counts haikus !! i) as [[w' c]|] eqn:Hx; [|done].
  injection Hkey as ->. apply sorted_counts_entry in Hx as Hc.
  simpl in Hc. by destruct Hc as [_ ->].
Qed.

(** C7, amended. The tokenizer that [prepare_data] fits never gives
    the id 0 to a token, gives no id to two tokens, and vocab_size
    is the number of entries of its word index plus 1.  When
    ["<unk>"] is not a word of the corpus: ["<unk>"] has the id 1;
    the distinct words of the corpus have the ids 2, 3, ... without
    gaps, so vocab_size is their number plus 2; and the ids follow
    the number of occurrences, the more frequent word having the
    smaller id and, among words of equal count, the one seen first. *)
Theorem vocabulary_ids self haikus :
  let t := fitted haikus in
  let ws := corpus_words haikus in
  tokenizer (prepare_data self haikus).1 = Some t
  ∧ vocab_size (prepare_data self haikus).1 = Z.of_nat (size (Keras.word_index t)) + 1
  ∧ (∀ w id, Keras.word_index t !! w = Some id → 1 ≤ id)
  ∧ (∀ w1 w2 id, Keras.word_index t !! w1 = Some id →
                 Keras.word_index t !! w2 = Some id → w1 = w2)
  ∧ (UNK ∉ ws →
       Keras.word_index t !! UNK = Some 1
       ∧ size (Keras.word_index t) = S (length (first_seen ws))
       ∧ (∀ w, w ∈ ws →
            ∃ id, Keras.word_index t !! w = Some id
                  ∧ 2 ≤ id ≤ Z.of_nat (size (Keras.word_index t)))
       ∧ (∀ id, 1 ≤ id ≤ Z.of_nat (size (Keras.word_index t)) →
            ∃ w, Keras.word_index t !! w = Some id)
       ∧ (∀ w1 w2 id1 id2,
            w1 ∈ ws → w2 ∈ ws →
            Keras.word_index t !! w1 = Some id1 →
            Keras.word_index t !! w2 = Some id2 →
            (id1 < id2 ↔
             (occurrences w2 ws < occurrences w1 ws)%nat
             ∨ (occurrences w1 ws = occurrences w2 ws
                ∧ before w1 w2 (first_seen ws))))).
Proof.
  intros t ws. destruct (prepare_data_tokenizer self haikus) as [Ht Hv].
  split; [done|]. split; [done|]. split; [|split].
  - intros w id Hid. unfold t in Hid. rewrite fitted_word_index in Hid.
    apply dict_zip_lookup_Some in Hid. lia.
  - intros w1 w2 id H1 H2. unfold t in H1, H2. rewrite fitted_word_index in H1, H2.
    apply dict_zip_lookup_Some in H1 as [_ H1], H2 as [_ H2]. congruence.
  - intros Hunk. pose proof (NoDup_sorted_voc haikus Hunk) as Hnd.
    destruct (dict_zip_NoDup _ Hnd) as [Hsize Hlook].
    assert (Hlen : length (UNK :: map fst (sorted_counts haikus))
                   = S (length (first_seen ws))).
    { simpl. f_equal. apply Permutation_length, sorted_counts_keys. }
    unfold t. rewrite fitted_word_index, Hsize, Hlen.
    split; [|split; [|split; [|split]]].
    + by apply (Hlook 0%nat).
    + done.
    + intros w Hw. assert (Hin : w ∈ map fst (sorted_counts haikus)).
      { rewrite sorted_counts_keys. by apply elem_of_first_seen. }
      apply list_elem_of_lookup in Hin as [i Hi].
      exists (Z.of_nat (S i) + 1). split; [by apply Hlook|].
      apply lookup_lt_Some in Hi.
      rewrite <- Hlen. simpl. lia.
    + intros id Hid.
      destruct (lookup_lt_is_Some_2 (UNK :: map fst (sorted_counts haikus))
                  (Z.to_nat (id - 1))) as [w Hw]; [rewrite Hlen; lia|].
      exists w. apply Hlook in Hw. rewrite Hw. f_equal. lia.
    + intros w1 w2 id1 id2 Hw1 Hw2 H1 H2.
      rewrite <- fitted_word_index in H1, H2.
      destruct (word_position haikus w1 id1 Hunk Hw1 H1) as (i1 & -> & Hi1).
      destruct (word_position haikus w2 id2 Hunk Hw2 H2) as (i2 & -> & Hi2).
      pose proof (NoDup_first_seen ws) as Hfs.
      split.
      * intros Hlt. eapply (sort_desc_order (λ w, occurrences w ws));
          [exact Hi1 | exact Hi2 | lia].
      * intros Hrhs. destruct (Nat.lt_trichotomy i1 i2) as [?|[->|Hgt]]; [lia| |].
        -- rewrite Hi1 in Hi2. injection Hi2 as ->.
           destruct Hrhs as [?|[_ Hb]]; [lia|]. by apply before_NoDup_ne in Hb.
        -- pose proof (sort_desc_order (λ w, occurrences w ws) _ _ _ _ _ Hi2 Hi1 Hgt)
             as [?|[? Hb']]; destruct Hrhs as [?|[? Hb]]; try lia.
           destruct (before_antisym _ _ _ Hfs Hb Hb').
Qed.

End Vocabulary.

(** ** Training and the model store *)

Lemma haiku_pairs_input_length (line : Z) (full_sequence : list Z) pairs p :
  haiku_pairs line full_sequence = Ok pairs → p ∈ pairs → (1 ≤ length p.1)%nat.
Proof.
  destruct (first_occurrence line full_sequence) as [H | (pre & post & -> & H)].
  - rewrite haiku_pairs_absent by done. intros [= <-] Hp. by apply elem_of_nil in Hp.
  - rewrite haiku_pairs_split by done. intros [= <-] Hp.
    apply list_elem_of_lookup in Hp as [j Hj]. rewrite list_lookup_imap in Hj.
    destruct (post !! j); [|done]. injection Hj as <-. simpl.
    rewrite length_app. simpl. lia.
Qed.

Lemma max_length_positive (inputs : list (list Z)) :
  inputs ≠ [] → (∀ s, s ∈ inputs → (1 ≤ length s)%nat) →
  1 ≤ foldr Z.max 0 (map (λ s, Z.of_nat (length s)) inputs).
Proof.
  destruct inputs as [|s inputs]; [done|]. intros _ H. simpl.
  specialize (H s (list_elem_of_here _ _)). lia.
Qed.

Section Store.

Variable str_lower : string → string.

Abbreviation training_pairs := (training_pairs str_lower).
Abbreviation prepare_data := (prepare_data str_lower).
Abbreviation train := (train str_lower).
Abbreviation fitted := (fitted str_lower).

Lemma training_pairs_input_length t haikus pairs p :
  training_pairs t haikus = Ok pairs → p ∈ pairs → (1 ≤ length p.1)%nat.
Proof.
  revert pairs. induction haikus as [|h hs IH]; intros pairs.
  - intros [= <-] Hp. by apply elem_of_nil in Hp.
  - rewrite training_pairs_cons. intros H.
    apply bind_Ok in H as (s & _ & H). apply bind_Ok in H as (ps & Hps & H).
    apply bind_Ok in H as (rest & Hrest & [= <-]).
    intros [Hp|Hp]%elem_of_app.
    + by eapply haiku_pairs_input_length.
    + by eapply IH.
Qed.

(** What a successful [train] leaves in the generator: the fitted
    tokenizer, a model with one output per vocabulary id, and the
    length of the longest training input, which is at least 1. *)
Lemma train_Ok self haikus w weights g :
  train self haikus w weights = (g, Ok ()) →
  tokenizer g = Some (fitted haikus)
  ∧ vocab_size g = Z.of_nat (size (Keras.word_index (fitted haikus))) + 1
  ∧ (∃ m, model g = Some m ∧ Z.of_nat (output_units m) = vocab_size g
          ∧ input_length m = max_sequence_length g)
  ∧ 1 ≤ max_sequence_length g.
Proof.
  unfold train, prepare_data. fold (fitted haikus).
  destruct (training_pairs (fitted haikus) haikus) as [pairs|e] eqn:Hpairs; [|done].
  destruct pairs as [|p pairs]; [done|]. cbn [map].
  match goal with |- context [Keras.pad_sequences ?i ?n ≫= ?k] =>
    destruct (Keras.pad_sequences i n ≫= k) as [Xy|e] end; [|done].
  intros [= <-]. simpl. split; [done|]. split; [done|]. split.
  - eexists. split; [done|]. simpl. split; [lia | done].
  - pose proof (max_length_positive (map fst (p :: pairs))) as Hmax.
    simpl in Hmax. apply Hmax; [done|].
    intros s Hs. change (s ∈ map fst (p :: pairs)) in Hs.
    apply list_elem_of_fmap in Hs as (q & -> & Hq).
    by eapply training_pairs_input_length.
Qed.

Lemma train_consistent self haikus w weights g :
  train self haikus w weights = (g, Ok ()) → consistent g.
Proof.
  intros (_ & _ & (m & Hm & Hu & _) & _)%train_Ok m' Hm'. congruence.
Qed.

(** What [load_model] makes of the files of [save_model] in a new
    generator: model, tokenizer and vocab_size are those saved, and
    max_sequence_length is the 0 of [__init__]. *)
Lemma load_saved self m t model_path tokenizer_path disk :
  model self = Some m → tokenizer self = Some t → model_path ≠ tokenizer_path →
  load_model init model_path tokenizer_path
             (save_model self model_path tokenizer_path disk)
  = (mkGenerator (Some t) (Some m) (Z.of_nat (size (Keras.word_index t)) + 1) 0, Ok ()).
Proof.
  intros Hm Ht Hne. unfold load_model, save_model. rewrite Hm, Ht.
  rewrite lookup_insert_ne, lookup_insert_eq by done. simpl.
  by rewrite lookup_insert_eq.
Qed.

(** Every trained generator loses its max_sequence_length in the
    round trip through the store, and keeps the rest. *)
Lemma trained_round_trip self haikus w weights g model_path tokenizer_path disk :
  train self haikus w weights = (g, Ok ()) → model_path ≠ tokenizer_path →
  let loaded := load_model init model_path tokenizer_path
                           (save_model g model_path tokenizer_path disk) in
  loaded.2 = Ok ()
  ∧ model loaded.1 = model g
  ∧ tokenizer loaded.1 = tokenizer g
  ∧ vocab_size loaded.1 = vocab_size g
  ∧ consistent loaded.1
  ∧ max_sequence_length loaded.1 = 0
  ∧ max_sequence_length loaded.1 < max_sequence_length g.
Proof.
  intros (Ht & Hv & (m & Hm & Hu & _) & Hmsl)%train_Ok Hne. simpl.
  rewrite (load_saved g m _ _ _ _ Hm Ht Hne). simpl.
  rewrite Hm, Ht, Hv. repeat split; try lia.
  intros m' [= <-]. simpl. by rewrite Hu, Hv.
Qed.

End Store.


(** ** Strings *)

(** stdpp keeps [+:+] folded; the lemmas below compute with it. *)
#[local] Arguments String.append !_ _ / : simpl nomatch.

Lemma append_nil_r (s : string) : s +:+ "" = s.
Proof. induction s as [|c s IH]; simpl; [done | by rewrite IH]. Qed.

Lemma append_assoc (a b c : string) : (a +:+ b) +:+ c = a +:+ (b +:+ c).
Proof. induction a as [|x a IH]; simpl; [done | by rewrite IH]. Qed.

Lemma rev_app_append (a b : string) : String.rev_app a b = String.rev a +:+ b.
Proof.
  unfold String.rev. revert b. induction a as [|c a IH]; intros b; simpl; [done|].
  rewrite IH, (IH (String c "")), append_assoc. done.
Qed.

Lemma rev_cons (c : Ascii.ascii) (s : string) :
  String.rev (String c s) = String.rev s +:+ String c "".
Proof. unfold String.rev at 1. simpl. apply rev_app_append. Qed.

Lemma rev_append (a b : string) : String.rev (a +:+ b) = String.rev b +:+ String.rev a.
Proof.
  induction a as [|c a IH]; simpl.
  - change (String.rev "") with "". by rewrite append_nil_r.
  - by rewrite !rev_cons, IH, append_assoc.
Qed.

Lemma rev_involutive (s : string) : String.rev (String.rev s) = s.
Proof.
  induction s as [|c s IH]; [done|].
  by rewrite rev_cons, rev_append, IH.
Qed.

(** *** [words] *)

Lemma words_space (c : Ascii.ascii) (s : string) :
  Py.isspace c = true → words (String c s) = words s.
Proof. intros H. simpl. by rewrite H. Qed.

Lemma words_starts_nonspace (s : string) :
  starts_space s = false → words s ≠ [].
Proof.
  destruct s as [|c s]; [done|]. simpl. intros ->.
  destruct s as [|d s]; [done|]. destruct (Py.isspace d); [done|].
  by destruct (words (String d s)).
Qed.

(** Words do not join across a whitespace. *)
Lemma words_app_r (a b : string) :
  starts_space b = true → words (a +:+ b) = words a ++ words b.
Proof.
  intros Hb. induction a as [|c a IH]; [done|].
  cbn [String.append words]. destruct (Py.isspace c) eqn:Hc; [done|].
  destruct a as [|d a].
  - simpl. destruct b as [|e b]; [done|]. simpl in Hb. by rewrite Hb.
  - cbn [String.append] in *. destruct (Py.isspace d) eqn:Hd.
    + by rewrite IH.
    + rewrite IH. assert (Hne : words (String d a) ≠ []).
      { apply words_starts_nonspace. exact Hd. }
      by destruct (words (String d a)).
Qed.

Lemma words_plain (w : string) :
  w ≠ "" → has_space w = false → words w = [w].
Proof.
  induction w as [|c w IH]; [done|]. intros _ H. simpl in H.
  apply orb_false_iff in H as [Hc Hw]. cbn [words]. rewrite Hc.
  destruct w as [|d w]; [done|].
  simpl in Hw. apply orb_false_iff in Hw as [Hd Hw]. rewrite Hd.
  rewrite IH; [done | done |]. simpl. by rewrite Hd, Hw.
Qed.

Lemma words_nil_or_plain (w : string) :
  has_space w = false → words w = [] ∧ w = "" ∨ words w = [w].
Proof.
  destruct w as [|c w]; [by left|]. intros H. right. by apply words_plain.
Qed.

(** Every word is free of whitespace and not empty. *)
Lemma words_has_space (s w : string) : w ∈ words s → w ≠ "" ∧ has_space w = false.
Proof.
  revert w. induction s as [|c s IH]; intros w; [by intros ?%elem_of_nil|].
  cbn [words]. destruct (Py.isspace c) eqn:Hc; [apply IH|].
  destruct s as [|d s].
  - intros ->%list_elem_of_singleton. simpl. by rewrite Hc.
  - destruct (Py.isspace d) eqn:Hd.
    + intros [->|Hw]%elem_of_cons; [simpl; by rewrite Hc | by apply IH].
    + destruct (words (String d s)) as [|w1 ws] eqn:Hws.
      * intros ->%list_elem_of_singleton. simpl. by rewrite Hc.
      * intros [->|Hw]%elem_of_cons.
        -- destruct (IH w1) as [_ H1]; [left|]. simpl. by rewrite Hc, H1.
        -- apply IH. by right.
Qed.

(** Words of a text joined with a whitespace character. *)
Lemma words_join (c : Ascii.ascii) (l : list string) :
  Py.isspace c = true → words (Py.join (String c "") l) = concat (map words l).
Proof.
  intros Hc. induction l as [|s l IH]; [done|].
  destruct l as [|s' l].
  - simpl. by rewrite app_nil_r.
  - change (Py.join (String c "") (s :: s' :: l))
      with (s +:+ String c "" +:+ Py.join (String c "") (s' :: l)).
    rewrite words_app_r by (simpl; done).
    change (String c "" +:+ ?x) with (String c x).
    rewrite words_space by done. rewrite IH. done.
Qed.

(** *** [startswith], [split], [replace] and [join] *)

Lemma startswith_append (p s : string) : Py.startswith p (p +:+ s) = true.
Proof. induction p as [|c p IH]; simpl; [done|]. by rewrite Ascii.eqb_refl. Qed.

Lemma startswith_inv (p s : string) :
  Py.startswith p s = true → ∃ r, s = p +:+ r.
Proof.
  revert s. induction p as [|c p IH]; intros s; simpl; [by exists s|].
  destruct s as [|d s]; [done|].
  destruct (Ascii.eqb_spec c d) as [->|_]; [|done].
  intros [r ->]%IH. by exists r.
Qed.

Lemma length_append (a b : string) :
  String.length (a +:+ b) = (String.length a + String.length b)%nat.
Proof. induction a as [|c a IH]; simpl; [done | by rewrite IH]. Qed.

Lemma join_cons_cons (sep s s' : string) (l : list string) :
  Py.join sep (s :: s' :: l) = s +:+ sep +:+ Py.join sep (s' :: l).
Proof. reflexivity. Qed.

Lemma join_head_cons (sep : string) (c : Ascii.ascii) (p : string) (ps : list string) :
  Py.join sep (String c p :: ps) = String c (Py.join sep (p :: ps)).
Proof. destruct ps; [done|]. by rewrite !join_cons_cons. Qed.

(** The piece under construction only prefixes the first piece. *)
Lemma split_scan_cur (sep s : string) (skip : nat) (cur : string) :
  ∃ p ps, Py.split_scan sep s skip "" = p :: ps
          ∧ Py.split_scan sep s skip cur = (String.rev cur +:+ p) :: ps.
Proof.
  revert skip cur. induction s as [|c s IH]; intros skip cur.
  - exists "", []. simpl. by rewrite append_nil_r.
  - cbn [Py.split_scan]. destruct skip as [|k]; [|apply IH].
    destruct (Py.startswith sep (String c s)).
    + eexists "", _. split; [done|]. by rewrite append_nil_r.
    + destruct (IH 0%nat (String c "")) as (p & ps & Hnil & Hc).
      destruct (IH 0%nat (String c cur)) as (p' & ps' & Hnil' & Hcur).
      rewrite Hnil in Hnil'. injection Hnil' as <- <-.
      exists (String c p), ps. rewrite Hc, Hcur. split; [done|].
      by rewrite rev_cons, append_assoc.
Qed.

Lemma split_scan_skip (sep a s : string) (cur : string) :
  Py.split_scan sep (a +:+ s) (String.length a) cur = Py.split_scan sep s 0 cur.
Proof. induction a as [|c a IH]; simpl; [by destruct s | done]. Qed.

Lemma split_nil (sep : string) : Py.split sep "" = [""].
Proof. reflexivity. Qed.

Lemma split_nonempty (sep s : string) : Py.split sep s ≠ [].
Proof.
  unfold Py.split. destruct (split_scan_cur sep s 0 "") as (p & ps & -> & _). done.
Qed.

(** No occurrence at the head: the first character goes to the first
    piece. *)
Lemma split_skip (sep : string) (c : Ascii.ascii) (s : string) :
  Py.startswith sep (String c s) = false →
  ∃ p ps, Py.split sep s = p :: ps ∧ Py.split sep (String c s) = String c p :: ps.
Proof.
  intros H. unfold Py.split. cbn [Py.split_scan]. rewrite H.
  destruct (split_scan_cur sep s 0 (String c "")) as (p & ps & Hnil & Hc).
  exists p, ps. by rewrite Hnil, Hc.
Qed.

(** An occurrence at the head ends a piece. *)
Lemma split_match (sep s : string) :
  sep ≠ "" → Py.split sep (sep +:+ s) = "" :: Py.split sep s.
Proof.
  intros Hsep. unfold Py.split. destruct sep as [|c sep]; [done|].
  change (String c sep +:+ s) with (String c (sep +:+ s)).
  cbn [Py.split_scan].
  change (String c (sep +:+ s)) with (String c sep +:+ s).
  rewrite startswith_append.
  replace (String.length (String c sep) - 1)%nat with (String.length sep)
    by (simpl; lia).
  by rewrite split_scan_skip.
Qed.

Lemma replace_nil (old new : string) : Py.replace old new "" = "".
Proof. reflexivity. Qed.

Lemma replace_skip (old new : string) (c : Ascii.ascii) (s : string) :
  Py.startswith old (String c s) = false →
  Py.replace old new (String c s) = String c (Py.replace old new s).
Proof.
  intros H. unfold Py.replace.
  destruct (split_skip old c s H) as (p & ps & -> & ->). apply join_head_cons.
Qed.

Lemma replace_match (old new s : string) :
  old ≠ "" → Py.replace old new (old +:+ s) = new +:+ Py.replace old new s.
Proof.
  intros H. unfold Py.replace. rewrite split_match by done.
  pose proof (split_nonempty old s) as Hne.
  destruct (Py.split old s) as [|p ps]; [done|]. by rewrite join_cons_cons.
Qed.

(** Joining the pieces with the separator gives the text back. *)
Lemma join_split (sep s : string) :
  sep ≠ "" → Py.join sep (Py.split sep s) = s.
Proof.
  intros Hsep. remember (String.length s) as n eqn:Hn. revert s Hn.
  induction n as [n IH] using lt_wf_ind. intros s Hn.
  destruct s as [|c s]; [done|].
  destruct (Py.startswith sep (String c s)) eqn:Hs.
  - apply startswith_inv in Hs as [r Hr]. rewrite Hr, split_match by done.
    pose proof (split_nonempty sep r) as Hne.
    destruct (Py.split sep r) as [|p ps] eqn:Hsplit; [done|].
    rewrite join_cons_cons, <- Hsplit.
    rewrite (IH (String.length r)); [done| |done].
    rewrite Hn, Hr, length_append. destruct sep; [done|]. simpl. lia.
  - destruct (split_skip sep c s Hs) as (p & ps & Hsplit & ->).
    rewrite join_head_cons, <- Hsplit. f_equal.
    apply (IH (String.length s)); [|done]. rewrite Hn. simpl. lia.
Qed.

(** *** Replacing a marker in a text whose words are tidy *)

Lemma words_nonspace (c : Ascii.ascii) (s : string) :
  Py.isspace c = false →
  words (String c s)
  = if starts_space s then String c "" :: words s
    else match words s with
         | w :: ws => String c w :: ws
         | [] => [String c ""]
         end.
Proof. intros Hc. destruct s as [|d s]; simpl; by rewrite Hc. Qed.

(** A text that starts with a word splits into that word and the rest. *)
Lemma first_word (s : string) :
  starts_space s = false →
  ∃ w r, s = w +:+ r ∧ w ≠ "" ∧ has_space w = false ∧ starts_space r = true
         ∧ words s = w :: words r.
Proof.
  induction s as [|c s IH]; [done|]. intros Hc. simpl in Hc.
  rewrite words_nonspace by done.
  destruct (starts_space s) eqn:Hs.
  - exists (String c ""), s. repeat split; try done. simpl. by rewrite Hc.
  - destruct (IH eq_refl) as (w & r & -> & Hw & Hsp & Hr & ->).
    exists (String c w), r. repeat split; try done. simpl. by rewrite Hc, Hsp.
Qed.

(** A text free of whitespace that starts before a whitespace ends
    before it. *)
Lemma startswith_boundary (old w r : string) :
  has_space old = false → starts_space r = true →
  Py.startswith old (w +:+ r) = true → Py.startswith old w = true.
Proof.
  revert w. induction old as [|a old IH]; intros w Hold Hr; [done|].
  simpl in Hold. apply orb_false_iff in Hold as [Ha Hold].
  destruct w as [|b w]; simpl.
  - destruct r as [|c r]; [done|]. simpl in Hr.
    destruct (Ascii.eqb_spec a c) as [->|_]; [congruence | done].
  - destruct (Ascii.eqb a b); [by apply IH | done].
Qed.

Lemma contains_cons (old : string) (c : Ascii.ascii) (s : string) :
  contains old (String c s) = false →
  Py.startswith old (String c s) = false ∧ contains old s = false.
Proof. simpl. by intros ?%orb_false_iff. Qed.

Lemma contains_self (old : string) : contains old old = true.
Proof.
  pose proof (startswith_append old "") as H. rewrite append_nil_r in H.
  destruct old; simpl in *; [done | by rewrite H].
Qed.

Lemma startswith_space (old : string) (c : Ascii.ascii) (s : string) :
  old ≠ "" → has_space old = false → Py.isspace c = true →
  Py.startswith old (String c s) = false.
Proof.
  destruct old as [|a old]; [done|]. intros _ H Hc. simpl in *.
  apply orb_false_iff in H as [Ha _].
  destruct (Ascii.eqb_spec a c) as [->|_]; [congruence | done].
Qed.

(** A word without the marker is copied. *)
Lemma replace_plain_prefix (old new w r : string) :
  has_space old = false → contains old w = false → starts_space r = true →
  Py.replace old new (w +:+ r) = w +:+ Py.replace old new r.
Proof.
  intros Hold Hw Hr. induction w as [|c w IH]; [done|].
  apply contains_cons in Hw as [Hs Hw]. simpl.
  rewrite replace_skip, IH; [done | done |].
  destruct (Py.startswith old (String c (w +:+ r))) eqn:H; [|done].
  apply (startswith_boundary old (String c w) r Hold Hr) in H. congruence.
Qed.

Lemma replace_starts_space (old new r : string) :
  old ≠ "" → has_space old = false → starts_space r = true →
  starts_space (Py.replace old new r) = true.
Proof.
  intros Hne Hold Hr. destruct r as [|c r]; [done|]. simpl in Hr.
  by rewrite replace_skip by by apply startswith_space.
Qed.

(** Deleting a marker from a text in which it only occurs as a word of
    its own deletes these words and leaves the others. *)
Lemma words_replace (old s : string) :
  old ≠ "" → has_space old = false →
  (∀ w, w ∈ words s → w = old ∨ contains old w = false) →
  words (Py.replace old "" s) = filter (λ w, w ≠ old) (words s).
Proof.
  intros Hne Hold. remember (String.length s) as n eqn:Hn. revert s Hn.
  induction n as [n IH] using lt_wf_ind. intros s Hn Htidy.
  destruct s as [|c s]; [done|].
  destruct (Py.isspace c) eqn:Hc.
  - rewrite replace_skip by by apply startswith_space.
    rewrite !words_space by done. rewrite words_space in Htidy by done.
    apply (IH (String.length s)); [rewrite Hn; simpl; lia | done | done].
  - destruct (first_word (String c s) Hc) as (w & r & Hs & Hw & Hsp & Hr & Hws).
    rewrite Hws in *. rewrite Hs in *.
    assert (Hlen : (String.length r < n)%nat).
    { rewrite Hn, length_append. destruct w; [done|]. simpl. lia. }
    assert (Hrest : words (Py.replace old "" r) = filter (λ w, w ≠ old) (words r)).
    { apply (IH _ Hlen); [done|]. intros x Hx. apply Htidy. by right. }
    rewrite filter_cons. destruct (Htidy w) as [->|Hcw]; [left| |].
    + rewrite replace_match by done. rewrite decide_False by (intros H; by apply H).
      done.
    + assert (w ≠ old) by (intros ->; by rewrite contains_self in Hcw).
      rewrite decide_True by done.
      rewrite replace_plain_prefix by done.
      rewrite words_app_r by by apply replace_starts_space.
      by rewrite words_plain, Hrest.
Qed.

(** *** [strip] *)

Lemma all_space_append (a b : string) :
  all_space (a +:+ b) = all_space a && all_space b.
Proof. induction a as [|c a IH]; simpl; [done | by rewrite IH, andb_assoc]. Qed.

Lemma all_space_rev (a : string) : all_space (String.rev a) = all_space a.
Proof.
  induction a as [|c a IH]; [done|].
  rewrite rev_cons, all_space_append, IH. simpl. rewrite andb_true_r. apply andb_comm.
Qed.

Lemma all_space_words (a : string) :
  all_space a = true → starts_space a = true ∧ words a = [].
Proof.
  induction a as [|c a IH]; [done|]. simpl. intros [Hc Ha]%andb_true_iff.
  rewrite Hc. split; [done | by apply IH].
Qed.

Lemma lstrip_prefix (s : string) :
  ∃ a, all_space a = true ∧ s = a +:+ Py.lstrip s.
Proof.
  induction s as [|c s IH]; [by exists ""|]. simpl.
  destruct (Py.isspace c) eqn:Hc; [|by exists ""].
  destruct IH as (a & Ha & Hs). exists (String c a). simpl. rewrite Hc, Ha.
  split; [done | by rewrite <- Hs].
Qed.

Lemma words_lstrip (s : string) : words (Py.lstrip s) = words s.
Proof.
  induction s as [|c s IH]; [done|]. cbn [Py.lstrip].
  destruct (Py.isspace c) eqn:Hc; [|done]. by rewrite words_space.
Qed.

Lemma words_strip (s : string) : words (Py.strip s) = words s.
Proof.
  unfold Py.strip. rewrite <- (words_lstrip s).
  destruct (lstrip_prefix (String.rev (Py.lstrip s))) as (a & Ha & Hs).
  apply (f_equal String.rev) in Hs. rewrite rev_involutive, rev_append in Hs.
  rewrite Hs at 2.
  destruct (all_space_words (String.rev a)) as [Hsp Hw]; [by rewrite all_space_rev|].
  by rewrite words_app_r, Hw, app_nil_r.
Qed.

(** *** The words of the formatted result *)

Lemma elem_of_concat {A : Type} (x : A) (ls : list (list A)) :
  x ∈ concat ls → ∃ l, x ∈ l ∧ l ∈ ls.
Proof.
  induction ls as [|l ls IH]; simpl; [by intros ?%elem_of_nil|].
  intros [H|H]%elem_of_app.
  - exists l. split; [done | left].
  - destruct (IH H) as (l' & ? & ?). exists l'. split; [done | by right].
Qed.

Lemma words_join_line (p rest : string) :
  words (p +:+ " <line> " +:+ rest) = words p ++ LINE :: words rest.
Proof.
  rewrite words_app_r by done.
  change (" <line> " +:+ rest) with (String " " (LINE +:+ String " " rest)).
  rewrite words_space by done.
  rewrite (words_app_r LINE) by done.
  by rewrite words_space by done.
Qed.

Lemma words_split_line (pieces : list string) (p w : string) :
  p ∈ pieces → w ∈ words p → w ∈ words (Py.join " <line> " pieces).
Proof.
  induction pieces as [|q pieces IH]; [by intros ?%elem_of_nil|].
  destruct pieces as [|q' pieces].
  - by intros ->%list_elem_of_singleton.
  - rewrite join_cons_cons, words_join_line.
    intros [->|Hp]%elem_of_cons Hw; apply elem_of_app; [by left|].
    right; right. by apply IH.
Qed.

(** The words of the string that [format_result] returns are among the
    words it is given, provided these are [plain] or the marker
    ["<line>"]; the markers are not among them. *)
Lemma format_result_words (ws : list string) (w : string) :
  Forall (λ x, x = LINE ∨ plain x) ws →
  w ∈ words (format_result ws) → w ∈ ws ∧ w ≠ LINE.
Proof.
  intros Hws. unfold format_result.
  set (text := Py.join " " ws).
  set (clean := λ line, Py.strip (Py.replace "<end>" "" (Py.replace "<line>" "" line))).
  assert (Htext : ∀ x, x ∈ words text → x ∈ ws ∧ (x = LINE ∨ plain x)).
  { intros x Hx. unfold text in Hx. rewrite (words_join " "%char) in Hx by done.
    apply elem_of_concat in Hx as (l & Hx & Hl).
    apply list_elem_of_fmap in Hl as (y & -> & Hy).
    rewrite Forall_forall in Hws. destruct (Hws y Hy) as [->|Hplain].
    - apply list_elem_of_singleton in Hx as ->. split; [done | by left].
    - destruct (words_nil_or_plain y (proj1 Hplain)) as [[Hnil _]|Hone];
        [rewrite Hnil in Hx; by apply elem_of_nil in Hx|].
      rewrite Hone in Hx. apply list_elem_of_singleton in Hx as ->.
      split; [done | by right]. }
  assert (Hclean : ∀ line, line ∈ Py.split " <line> " text →
                   ∀ x, x ∈ words (clean line) → x ∈ ws ∧ x ≠ LINE).
  { intros line Hline x Hx.
    assert (Hsub : ∀ y, y ∈ words line → y ∈ ws ∧ (y = LINE ∨ plain y)).
    { intros y Hy. apply Htext. rewrite <- (join_split " <line> " text) by done.
      by eapply words_split_line. }
    unfold clean in Hx. rewrite words_strip in Hx.
    assert (H1 : words (Py.replace "<line>" "" line)
                 = filter (λ y, y ≠ LINE) (words line)).
    { apply words_replace; [done | done |]. intros y Hy.
      destruct (Hsub y Hy) as [_ [->|(_ & Hl & _)]]; [by left | by right]. }
    rewrite words_replace in Hx; [|done|done|].
    - apply list_elem_of_filter in Hx as [_ Hx]. rewrite H1 in Hx.
      apply list_elem_of_filter in Hx as [Hne Hx].
      split; [by apply Hsub | done].
    - intros y Hy. rewrite H1 in Hy. apply list_elem_of_filter in Hy as [Hne Hy].
      destruct (Hsub y Hy) as [_ [->|(_ & _ & He)]]; [done | by right]. }
  set (formatted := filter (λ clean_line, Keras.nonempty clean_line = true)
                           (map clean (Py.split " <line> " text))).
  assert (Hformatted : ∀ l, l ∈ formatted → ∀ x, x ∈ words l → x ∈ ws ∧ x ≠ LINE).
  { intros l Hl. apply list_elem_of_filter in Hl as [_ Hl].
    apply list_elem_of_fmap in Hl as (line & -> & Hline). by apply Hclean. }
  intros Hw. rewrite (words_join (ascii_of_nat 10)) in Hw by done.
  apply elem_of_concat in Hw as (l & Hw & Hl).
  apply list_elem_of_fmap in Hl as (line & -> & Hline).
  apply (Hformatted line); [|done].
  destruct (2 <? length formatted)%nat; [|done].
  eapply elem_of_sublist; [exact Hline|]. apply sublist_take.
Qed.

(** ** The completion returned *)

Section Completion.

Variable str_lower : string → string.
Variable float_pow : Q → Q → Q.

Abbreviation run_loop := (run_loop str_lower float_pow).
Abbreviation generate_haiku_completion := (generate_haiku_completion str_lower float_pow).

(** C9, amended. Every word of [generated_words] is a key of the word
    index other than ["<unk>"] and ["<end>"]: the list holds, in
    order, the words of the sampled ids, without those that have no
    entry in the reverse map (they decode to ["<unk>"]) and without
    those that decode to ["<unk>"] or ["<end>"].  The string returned
    is [format_result] of that list; when every key of the word index
    other than ["<line>"] and ["<end>"] is free of whitespace and of
    the texts ["<line>"] and ["<end>"], every word of the string
    returned is a key of the word index, and none of them is a
    marker. *)
Theorem generated_words_in_vocabulary self m t first_line max_length temperature draws st e :
  model self = Some m → tokenizer self = Some t →
  run_loop t m (max_sequence_length self) first_line max_length temperature draws
    = (st, e) →
  generated_words st = omap (kept (Keras.word_index t)) (sampled st)
  ∧ Forall (λ w, is_Some (Keras.word_index t !! w) ∧ w ≠ UNK ∧ w ≠ END)
           (generated_words st)
  ∧ (∀ id, reverse_word_map (Keras.word_index t) !! id = None →
           decode (Keras.word_index t) id = UNK ∧ kept (Keras.word_index t) id = None)
  ∧ (∀ s, generate_haiku_completion self first_line max_length temperature draws = Ok s →
          s = format_result (generated_words st)
          ∧ ((∀ w id, Keras.word_index t !! w = Some id →
                      w = LINE ∨ w = END ∨ plain w) →
             ∀ w, w ∈ words s →
                  is_Some (Keras.word_index t !! w) ∧ w ≠ UNK ∧ w ≠ END ∧ w ≠ LINE)).
Proof.
  intros Hm Ht Hrun. pose proof Hrun as Hrun'. unfold run_loop in Hrun'.
  apply generation_loop_history in Hrun' as (ids & Hs & Hg & _).
  simpl in *. subst ids.
  assert (Hkeys : Forall (λ w, is_Some (Keras.word_index t !! w) ∧ w ≠ UNK ∧ w ≠ END)
                         (generated_words st)).
  { rewrite Hg. apply Forall_forall. intros w Hw.
    apply list_elem_of_omap in Hw as (id & _ & Hk).
    apply kept_in_word_index in Hk as (Hk & ? & ?). rewrite Hk. eauto. }
  split; [done|]. split; [done|]. split.
  - intros id Hid. split.
    + unfold decode. by rewrite Hid.
    + apply kept_None. right. unfold decode. by rewrite Hid.
  - intros s Hgen.
    assert (Hret : s = format_result (generated_words st)).
    { unfold generate_haiku_completion in Hgen. rewrite Hm, Ht, Hrun in Hgen.
      destruct e; congruence. }
    split; [done|]. intros Hplain w Hw. rewrite Hret in Hw.
    rewrite Forall_forall in Hkeys.
    apply format_result_words in Hw as [Hw Hline].
    + destruct (Hkeys w Hw) as (Hsome & Hunk & Hend). done.
    + apply Forall_forall. intros x Hx.
      destruct (Hkeys x Hx) as ([id Hid] & _ & Hend).
      destruct (Hplain x id Hid) as [?|[?|?]]; [by left | done | by right].
Qed.

End Completion.
(** ** The worked example *)

Lemma example_train_Ok :
  train Py.ascii_lower init example_corpus example_weights example_weights
  = (example_generator, Ok ()).
Proof. vm_compute. reflexivity. Qed.

Lemma example_consistent : consistent example_generator.
Proof. exact (train_consistent _ _ _ _ _ _ example_train_Ok). Qed.

(** C1. A generator trained on the example corpus has vocab_size 7 and
    max_sequence_length 5 and completes the line "a".  After
    [save_model] and [load_model] into a new generator, vocab_size
    is 7 again but max_sequence_length is the 0 of [__init__]: nothing
    in [load_model] restores it.  With the same draws and temperature,
    the loaded generator raises in [pad_sequences] where the trained
    one returned a completion. *)
Theorem load_model_drops_max_sequence_length :
  (load_model init MODEL_PATH TOKENIZER_PATH
              (save_model example_generator MODEL_PATH TOKENIZER_PATH ∅)).2 = Ok ()
  ∧ model reloaded_generator = model example_generator
  ∧ tokenizer reloaded_generator = tokenizer example_generator
  ∧ vocab_size example_generator = 7
  ∧ vocab_size reloaded_generator = 7
  ∧ max_sequence_length example_generator = 5
  ∧ max_sequence_length reloaded_generator = 0
  ∧ example_generate example_generator "a" [(3 # 7)%Q] = Ok "b"
  ∧ example_generate reloaded_generator "a" [(3 # 7)%Q]
    = Raise (ValueError CannotBroadcast).
Proof. repeat split; vm_compute; reflexivity. Qed.

(** C2, as stated, fails on the example corpus: the haiku has four
    tokens after its first marker and yields four pairs, but their
    inputs have the lengths 2, 3, 4, 5, not 1, 2, 3, 4, because every
    input starts with the first line and the marker. *)
Lemma prefix_lengths_do_not_start_at_1 :
  let pairs := [([3; 2], 4); ([3; 2; 4], 2); ([3; 2; 4; 2], 5); ([3; 2; 4; 2; 5], 6)] in
  Keras.texts_to_sequences Py.ascii_lower (fitted Py.ascii_lower example_corpus)
                           (full_haiku ("a", "b", "c"))
  = Ok ([3] ++ 2 :: [4; 2; 5; 6])
  ∧ Keras.word_index (fitted Py.ascii_lower example_corpus) !! LINE = Some 2
  ∧ training_pairs Py.ascii_lower (fitted Py.ascii_lower example_corpus) example_corpus
    = Ok pairs
  ∧ map (λ p, length p.1) pairs = [2; 3; 4; 5]%nat
  ∧ map (λ p, length p.1) pairs ≠ seq 1 (length [4; 2; 5; 6]).
Proof.
  repeat split; try (vm_compute; reflexivity). discriminate.
Qed.

Lemma pairs_after_first_line_witness :
  ∃ pairs,
    training_pairs Py.ascii_lower (fitted Py.ascii_lower example_corpus) example_corpus
    = Ok (pairs ++ [])
    ∧ length pairs = 4%nat
    ∧ map (λ p, length p.1) pairs = seq 2 4
    ∧ ∀ j y, [4; 2; 5; 6] !! j = Some y →
             pairs !! j = Some ([3] ++ 2 :: take j [4; 2; 5; 6], y).
Proof.
  apply (pairs_after_first_line Py.ascii_lower (fitted Py.ascii_lower example_corpus)
           ("a", "b", "c") [] [3] [4; 2; 5; 6] []).
  - vm_compute. reflexivity.
  - vm_compute. intros H. apply list_elem_of_singleton in H. discriminate.
  - vm_compute. reflexivity.
Defined.

(** C3, as stated, fails on the example generator after a second
    [train] has raised on an empty corpus: vocab_size is 2, that of
    the new vocabulary, the model still has the 7 outputs of the first
    training, and every round of the loop draws the id 6, which is
    not in 1..vocab_size-1. *)
Lemma sampled_id_beyond_vocab_size :
  let st := mkLoop [] "a <line>" (replicate 15 6) 15 in
  train Py.ascii_lower example_generator [] example_weights example_weights
  = (failed_retrain, Raise (ValueError NoSequences))
  ∧ vocab_size failed_retrain = 2
  ∧ model failed_retrain = Some (mkModel 5 7 example_weights)
  ∧ ¬ consistent failed_retrain
  ∧ example_run failed_retrain "a" [] = Some (st, Exhausted)
  ∧ sampled st !! 0%nat = Some 6
  ∧ ¬ (1 ≤ 6 ≤ vocab_size failed_retrain - 1).
Proof.
  intros st.
  split; [vm_compute; reflexivity|]. split; [vm_compute; reflexivity|].
  split; [vm_compute; reflexivity|]. split.
  { intros Hc.
    assert (H := Hc (mkModel 5 7 example_weights) ltac:(vm_compute; reflexivity)).
    vm_compute in H. discriminate H. }
  split; [vm_compute; reflexivity|]. split; [reflexivity|].
  replace (vocab_size failed_retrain) with 2 by (vm_compute; reflexivity). lia.
Qed.

Lemma sampled_ids_exclude_padding_witness :
  Forall (λ id, 1 ≤ id ≤ Z.of_nat 7 - 1) [2; 3; 4; 5; 6]
  ∧ Forall (λ id, 1 ≤ id ≤ vocab_size example_generator - 1) [2; 3; 4; 5; 6].
Proof.
  destruct (sampled_ids_exclude_padding Py.ascii_lower Py.integral_pow example_generator
              (mkModel 5 7 example_weights) (fitted Py.ascii_lower example_corpus)
              "a" 15 1
              (draws_of [(1 # 7); (2 # 7); (3 # 7); (4 # 7); (5 # 7)]%Q)
              (mkLoop ["<line>"; "a"; "b"; "c"] "a <line> <line> a b c" [2; 3; 4; 5; 6] 5)
              Break) as [Hunits Hvocab].
  - vm_compute. reflexivity.
  - vm_compute. reflexivity.
  - vm_compute. reflexivity.
  - split; [exact Hunits | exact (Hvocab example_consistent)].
Defined.

Lemma generation_bounded_witness :
  Z.of_nat 5 ≤ 15 ∧ Z.of_nat 4 ≤ 15.
Proof.
  refine (generation_bounded Py.ascii_lower Py.integral_pow
            (fitted Py.ascii_lower example_corpus)
            (mkModel 5 7 example_weights) 5 "a" 15 1
            (draws_of [(1 # 7); (2 # 7); (3 # 7); (4 # 7); (5 # 7)]%Q)
            (mkLoop ["<line>"; "a"; "b"; "c"] "a <line> <line> a b c" [2; 3; 4; 5; 6] 5)
            Break _ _).
  - lia.
  - vm_compute. reflexivity.
Defined.

(** C5, as stated, fails on the example generator: the first draw
    decodes to ["<unk>"] and is dropped, the second one, at step 1,
    decodes to ["<end>"]; the loop stops there with no word generated,
    not with one. *)
Lemma unk_before_end_is_not_counted :
  let wi := Keras.word_index (fitted Py.ascii_lower example_corpus) in
  let st := mkLoop [] "a <line>" [1; 6] 2 in
  tokenizer example_generator = Some (fitted Py.ascii_lower example_corpus)
  ∧ example_run example_generator "a" [0%Q] = Some (st, Break)
  ∧ decode wi 1 = UNK
  ∧ sampled st !! 1%nat = Some 6
  ∧ decode wi 6 = END
  ∧ 1 < 15
  ∧ length (generated_words st) ≠ 1%nat.
Proof.
  repeat split; try (vm_compute; reflexivity). discriminate.
Qed.

Lemma end_stops_generation_witness :
  Break = Break
  ∧ 2%nat = 2%nat
  ∧ Z.of_nat 1 < 15
  ∧ (length (@nil string)
     + unk_count (Keras.word_index (fitted Py.ascii_lower example_corpus))
                 (take 1 [1%Z; 6%Z]))%nat = 1%nat.
Proof.
  refine (end_stops_generation Py.ascii_lower Py.integral_pow
            (fitted Py.ascii_lower example_corpus)
            (mkModel 5 7 example_weights) 5 "a" 15 1 (draws_of [0%Q])
            (mkLoop [] "a <line>" [1; 6] 2) Break 1 6 _ _ _).
  - vm_compute. reflexivity.
  - vm_compute. reflexivity.
  - vm_compute. reflexivity.
Defined.

(** C7, as stated, fails on the example corpus: ["a"] is the first
    token seen, and its id is 3, not 1.  The ids 1 and 2 go to
    ["<unk>"] and to ["<line>"], which occurs twice. *)
Lemma first_seen_token_is_not_id_1 :
  first_seen (corpus_words Py.ascii_lower example_corpus) !! 0%nat = Some "a"
  ∧ Keras.word_index (fitted Py.ascii_lower example_corpus) !! "a" = Some 3
  ∧ Keras.word_index (fitted Py.ascii_lower example_corpus) !! UNK = Some 1
  ∧ Keras.word_index (fitted Py.ascii_lower example_corpus) !! LINE = Some 2
  ∧ ¬ (∀ i w, first_seen (corpus_words Py.ascii_lower example_corpus) !! i = Some w →
              Keras.word_index (fitted Py.ascii_lower example_corpus) !! w
              = Some (Z.of_nat i + 1)).
Proof.
  assert (Ha : Keras.word_index (fitted Py.ascii_lower example_corpus) !! "a" = Some 3)
    by (vm_compute; reflexivity).
  assert (Hf : first_seen (corpus_words Py.ascii_lower example_corpus) !! 0%nat = Some "a")
    by (vm_compute; reflexivity).
  repeat split; try assumption; try (vm_compute; reflexivity).
  intros H. specialize (H 0%nat "a" Hf). rewrite Ha in H. discriminate.
Qed.

(** C9, as stated, fails on the corpus with a marker inside a word:
    the word ["x<line>y"] is sampled and generated, the formatting
    deletes the marker in it, and the string returned is ["xy"], which
    is no key of the word index. *)
Lemma returned_word_not_in_vocabulary :
  let wi := Keras.word_index (fitted Py.ascii_lower marker_corpus) in
  tokenizer marker_generator = Some (fitted Py.ascii_lower marker_corpus)
  ∧ example_run marker_generator "q" [(2 # 7)%Q]
    = Some (mkLoop ["x<line>y"] "q <line> x<line>y" [3; 6] 2, Break)
  ∧ example_generate marker_generator "q" [(2 # 7)%Q] = Ok "xy"
  ∧ wi !! "x<line>y" = Some 3
  ∧ words "xy" = ["xy"]
  ∧ wi !! "xy" = None.
Proof.
  repeat split; vm_compute; reflexivity.
Qed.

(** The vocabulary of the example has no word with whitespace or a
    marker in it. *)
Lemma example_vocabulary_plain (w : string) (id : Z) :
  Keras.word_index (fitted Py.ascii_lower example_corpus) !! w = Some id →
  w = LINE ∨ w = END ∨ plain w.
Proof.
  intros H. apply elem_of_map_to_list in H.
  assert (Hl : map_to_list (Keras.word_index (fitted Py.ascii_lower example_corpus))
               = [("c", 5); ("a", 3); ("b", 4); ("<unk>", 1); ("<end>", 6); ("<line>", 2)])
    by (vm_compute; reflexivity).
  rewrite Hl in H. clear Hl.
  repeat (apply elem_of_cons in H as [[= -> ->]|H];
          [first [ by left | by right; left
                 | right; right; repeat split; vm_compute; reflexivity ]|]).
  by apply elem_of_nil in H.
Qed.

Lemma generated_words_in_vocabulary_witness :
  let wi := Keras.word_index (fitted Py.ascii_lower example_corpus) in
  ["b"] = omap (kept wi) [4; 6]
  ∧ Forall (λ w, is_Some (wi !! w) ∧ w ≠ UNK ∧ w ≠ END) ["b"]
  ∧ (∀ w, w ∈ words "b" → is_Some (wi !! w) ∧ w ≠ UNK ∧ w ≠ END ∧ w ≠ LINE).
Proof.
  intros wi.
  assert (Hgen : example_generate example_generator "a" [(3 # 7)%Q] = Ok "b")
    by (vm_compute; reflexivity).
  destruct (generated_words_in_vocabulary Py.ascii_lower Py.integral_pow example_generator
              (mkModel 5 7 example_weights) (fitted Py.ascii_lower example_corpus)
              "a" 15 1 (draws_of [(3 # 7)%Q])
              (mkLoop ["b"] "a <line> b" [4; 6] 2) Break)
    as (Hwords & Hkeys & _ & Hret).
  - vm_compute. reflexivity.
  - vm_compute. reflexivity.
  - vm_compute. reflexivity.
  - destruct (Hret "b" Hgen) as [_ Hplain].
    split; [exact Hwords|]. split; [exact Hkeys|].
    exact (Hplain example_vocabulary_plain).
Defined.

Lemma vocabulary_ids_witness :
  let t := fitted Py.ascii_lower example_corpus in
  let ws := corpus_words Py.ascii_lower example_corpus in
  (UNK ∉ ws)
  ∧ Keras.word_index t !! UNK = Some 1
  ∧ size (Keras.word_index t) = S (length (first_seen ws))
  ∧ vocab_size (prepare_data Py.ascii_lower init example_corpus).1
    = Z.of_nat (size (Keras.word_index t)) + 1.
Proof.
  intros t ws.
  assert (Hunk : UNK ∉ ws).
  { vm_compute. intros H. repeat (apply elem_of_cons in H as [H|H]; [discriminate|]).
    by apply elem_of_nil in H. }
  destruct (vocabulary_ids Py.ascii_lower init example_corpus)
    as (_ & Hv & _ & _ & Hrest).
  destruct (Hrest Hunk) as (H1 & Hsize & _).
  repeat split; assumption.
Defined.

(** * Further properties of [training.py] *)

(** ** Training *)

Section Training.

Variable str_lower : string → string.

Abbreviation prepare_data := (prepare_data str_lower).
Abbreviation train := (train str_lower).
Abbreviation fitted := (fitted str_lower).
Abbreviation training_pairs := (training_pairs str_lower).


(** What a [train] that returns has put into the generator. *)
Lemma train_Ok_model self haikus w weights g :
  train self haikus w weights = (g, Ok ()) →
  tokenizer g = Some (fitted haikus)
  ∧ vocab_size g = Z.of_nat (size (Keras.word_index (fitted haikus))) + 1
  ∧ 1 ≤ max_sequence_length g
  ∧ model g = Some (mkModel (max_sequence_length g) (Z.to_nat (vocab_size g)) weights).
Proof.
  intros Htrain. pose proof (train_Ok _ _ _ _ _ _ Htrain) as (Ht & Hv & _ & Hmsl).
  repeat split; try done.
  unfold train in Htrain.
  destruct (prepare_data self haikus) as [g' [Xy|e]]; [|done].
  injection Htrain as <-. done.
Qed.

(** X1. A [train] that returns has put into the generator the
    tokenizer fitted on the corpus, its vocab_size, the length of the
    longest training input, which is at least 1, and a model with the
    fitted weights that takes inputs of that length and has one output
    per vocabulary id. *)
Theorem train_postcondition self haikus w weights g :
  train self haikus w weights = (g, Ok ()) →
  tokenizer g = Some (fitted haikus)
  ∧ vocab_size g = Z.of_nat (size (Keras.word_index (fitted haikus))) + 1
  ∧ 1 ≤ max_sequence_length g
  ∧ model g = Some (mkModel (max_sequence_length g) (Z.to_nat (vocab_size g)) weights)
  ∧ consistent g.
Proof.
  intros Htrain. destruct (train_Ok_model _ _ _ _ _ Htrain) as (Ht & Hv & Hmsl & Hm).
  pose proof (train_consistent _ _ _ _ _ _ Htrain) as Hc. done.
Qed.


(** X3. What a [train] that returns leaves in the generator does not
    depend on what the generator held before: training a used
    generator again gives the same generator as training a new one. *)
Theorem train_forgets self other haikus w weights g :
  train self haikus w weights = (g, Ok ()) →
  train other haikus w weights = (g, Ok ()).
Proof.
  unfold train, prepare_data.
  destruct (training_pairs _ haikus) as [[|p pairs]|e]; [done| |done].
  cbn [map vocab_size max_sequence_length tokenizer model].
  match goal with |- context [Keras.pad_sequences ?i ?n ≫= ?k] =>
    destruct (Keras.pad_sequences i n ≫= k) as [Xy|e] end; [|done].
  by intros [= <-].
Qed.

End Training.

(** ** The model store *)

(** X4. [load_model] after [save_model] with two different paths, into
    any generator: it returns, the generator has the model and the
    tokenizer that were saved and the vocab_size of that tokenizer; its
    max_sequence_length is the one it had before the call. *)
Theorem save_then_load self target m t model_path tokenizer_path disk :
  model self = Some m → tokenizer self = Some t → model_path ≠ tokenizer_path →
  load_model target model_path tokenizer_path
             (save_model self model_path tokenizer_path disk)
  = (mkGenerator (Some t) (Some m) (Z.of_nat (size (Keras.word_index t)) + 1)
                 (max_sequence_length target),
     Ok ()).
Proof.
  intros Hm Ht Hne. unfold load_model, save_model. rewrite Hm, Ht.
  rewrite lookup_insert_ne, lookup_insert_eq by done. cbn [fst snd].
  by rewrite lookup_insert_eq.
Qed.

(** ** The decoder *)

Lemma join_snoc (sep w : string) (l : list string) :
  l ≠ [] → Py.join sep (l ++ [w]) = Py.join sep l +:+ sep +:+ w.
Proof.
  induction l as [|x l IH]; [done|]. intros _.
  destruct l as [|y l]; [done|].
  change (Py.join sep (x :: y :: (l ++ [w]))
          = Py.join sep (x :: y :: l) +:+ sep +:+ w).
  rewrite !join_cons_cons.
  change (y :: l ++ [w]) with ((y :: l) ++ [w]). rewrite IH by done.
  by rewrite !append_assoc.
Qed.

Lemma slice_from_zero {A : Type} (l : list A) : Py.slice_from l (- 0) = l.
Proof.
  unfold Py.slice_from. change (- 0 <? 0) with false. cbv iota.
  by replace (Z.to_nat (Z.min (- 0) (Z.of_nat (length l)))) with 0%nat by lia.
Qed.

(** [pad_sequences] with [maxlen=0] rejects a sequence of two or more
    ids. *)
Lemma pad_row_zero (s : list Z) :
  (2 ≤ length s)%nat → Keras.pad_row 0 s = Raise (ValueError CannotBroadcast).
Proof.
  intros Hs. unfold Keras.pad_row. destruct s as [|x [|y s]]; simpl in Hs; [lia | lia |].
  rewrite slice_from_zero. reflexivity.
Qed.

Section Generation.

Variable str_lower : string → string.
Variable float_pow : Q → Q → Q.

Abbreviation sample := (sample_id str_lower float_pow).
Abbreviation loop := (generation_loop str_lower float_pow).
Abbreviation run := (run_loop str_lower float_pow).
Abbreviation generate := (generate_haiku_completion str_lower float_pow).
Abbreviation to_ids := (Keras.texts_to_sequences str_lower).

(** The running text is the seed followed by the generated words. *)
Lemma generation_loop_text t m msl temperature draws n st st' e seed :
  loop t m msl temperature draws n st = (st', e) →
  current_text st = Py.join " " (seed :: generated_words st) →
  current_text st' = Py.join " " (seed :: generated_words st').
Proof.
  revert st. induction n as [|n IH]; intros st; cbn [generation_loop].
  - by intros [= <- <-].
  - destruct (sample t m msl temperature (draws (iterations st)) (current_text st))
      as [id|err]; [|by intros [= <- <-]].
    destruct (String.eqb (decode (Keras.word_index t) id) END); [by intros [= <- <-]|].
    destruct (String.eqb (decode (Keras.word_index t) id) UNK).
    + intros H Hst. by apply IH in H.
    + intros H Hst. apply IH in H; [done|]. cbn [current_text generated_words].
      rewrite Hst, app_comm_cons. by rewrite join_snoc.
Qed.

(** X5. Whenever the loop is left, the running text is the seed line,
    the marker and the words generated so far, separated by single
    spaces. *)
Theorem running_text_invariant t m msl first_line max_length temperature draws st e :
  run_loop str_lower float_pow t m msl first_line max_length temperature draws = (st, e) →
  current_text st = Py.join " " ((first_line +:+ " <line>") :: generated_words st).
Proof.
  intros H. unfold run_loop in H.
  by apply (generation_loop_text _ _ _ _ _ _ _ _ _ (first_line +:+ " <line>")) in H.
Qed.

(** X6. When [range(max_length)] runs out, for a max_length >= 0,
    exactly max_length ids have been drawn, none of them decodes to
    ["<end>"], and the number of generated words is max_length less
    the number of draws that decoded to ["<unk>"]. *)
Theorem exhausted_budget t m msl first_line max_length temperature draws st :
  0 ≤ max_length →
  run_loop str_lower float_pow t m msl first_line max_length temperature draws
  = (st, Exhausted) →
  Z.of_nat (iterations st) = max_length
  ∧ Z.of_nat (length (sampled st)) = max_length
  ∧ Forall (λ id, decode (Keras.word_index t) id ≠ END) (sampled st)
  ∧ Z.of_nat (length (generated_words st)
              + unk_count (Keras.word_index t) (sampled st)) = max_length.
Proof.
  intros Hm H. unfold run_loop in H.
  apply generation_loop_history in H as (ids & Hs & Hg & _ & _ & Hit & Hlen & Hend).
  simpl in *. subst ids. rewrite Hg, length_omap_kept by done.
  repeat split; try done; lia.
Qed.

(** At temperature 0 the loop body cannot get past [1/temperature]. *)
Lemma sample_id_zero_temperature t m msl temperature u text :
  Qeq_bool temperature 0 = true →
  ∃ e, sample t m msl temperature u text = Raise e.
Proof.
  intros HT. unfold sample_id. rewrite HT.
  destruct (to_ids t text) as [ids|e]; simpl; [|eauto].
  match goal with |- context [Keras.pad_sequences ?s ?n] =>
    destruct (Keras.pad_sequences s n) as [padded|e] end; simpl; [|eauto].
  destruct (predict m (concat padded)) as [probs|e]; simpl; eauto.
Qed.

(** X7. At temperature 0 a generator with a model and a tokenizer
    raises for every max_length >= 1, and nothing is sampled: the
    float division [1/temperature] fails if nothing fails before. *)
Theorem zero_temperature_raises self m t first_line max_length temperature draws :
  model self = Some m → tokenizer self = Some t →
  Qeq_bool temperature 0 = true → 1 ≤ max_length →
  (∃ e, generate_haiku_completion str_lower float_pow self first_line max_length
                                  temperature draws = Raise e)
  ∧ sampled (run_loop str_lower float_pow t m (max_sequence_length self) first_line
                      max_length temperature draws).1 = [].
Proof.
  intros Hm Ht HT Hlen. unfold generate_haiku_completion, run_loop. rewrite Hm, Ht.
  destruct (Z.to_nat max_length) as [|n] eqn:Hn; [lia|]. cbn [generation_loop].
  cbn [iterations current_text].
  destruct (sample_id_zero_temperature t m (max_sequence_length self) temperature
              (draws 0%nat) (first_line +:+ " <line>") HT) as [e He].
  rewrite He. split; [eauto | done].
Qed.

(** A generator whose max_sequence_length is 0 raises in
    [pad_sequences] for every seed whose text, with the marker, has
    two or more tokens. *)
Lemma generate_zero_window self m t first_line max_length temperature draws ids :
  model self = Some m → tokenizer self = Some t →
  max_sequence_length self = 0 →
  to_ids t (first_line +:+ " <line>") = Ok ids → (2 ≤ length ids)%nat →
  1 ≤ max_length →
  generate self first_line max_length temperature draws
  = Raise (ValueError CannotBroadcast).
Proof.
  intros Hm Ht Hmsl Hids Hlen Hmax.
  unfold generate_haiku_completion, run_loop. rewrite Hm, Ht, Hmsl.
  destruct (Z.to_nat max_length) as [|n] eqn:Hn; [lia|]. cbn [generation_loop].
  cbn [iterations current_text]. unfold sample_id. rewrite Hids. cbn [mbind result_bind].
  destruct (Z.ltb_spec 0 (Z.of_nat (length ids))); [|lia].
  rewrite slice_from_zero. unfold Keras.pad_sequences. cbn [Z.ltb Z.compare].
  rewrite mapM_cons, pad_row_zero by done. reflexivity.
Qed.

(** X8. Whatever files [load_model] reads into a new generator, the
    generator it leaves has the max_sequence_length 0 of [__init__],
    and raises in [pad_sequences] for every seed whose text, with the
    marker, has two or more tokens, for every max_length >= 1,
    temperature and draw. *)
Theorem loaded_generator_raises model_path tokenizer_path disk g t first_line
    max_length temperature draws ids :
  load_model init model_path tokenizer_path disk = (g, Ok ()) →
  tokenizer g = Some t →
  Keras.texts_to_sequences str_lower t (first_line +:+ " <line>") = Ok ids →
  (2 ≤ length ids)%nat → 1 ≤ max_length →
  max_sequence_length g = 0
  ∧ generate_haiku_completion str_lower float_pow g first_line max_length temperature draws
    = Raise (ValueError CannotBroadcast).
Proof.
  intros Hload Ht Hids Hlen Hmax. unfold load_model in Hload.
  destruct (disk !! model_path) as [[m|]|]; [|done..].
  destruct (disk !! tokenizer_path) as [[|t']|]; [done| |done].
  injection Hload as <-. split; [done|].
  by apply (generate_zero_window _ m t _ _ _ _ ids).
Qed.

(** X9. In every round that samples an id, for a max_sequence_length
    of at least 1, the model has been evaluated on a row of exactly
    max_sequence_length ids: the most recent max_sequence_length tokens
    of the running text, or all of them behind as many zeros as are
    missing. *)
Theorem model_sees_window t m msl temperature u text id :
  1 ≤ msl →
  sample_id str_lower float_pow t m msl temperature u text = Ok id →
  ∃ ids f,
    Keras.texts_to_sequences str_lower t text = Ok ids
    ∧ let row := replicate (Z.to_nat msl - length ids) 0
                 ++ drop (length ids - Z.to_nat msl) ids in
      Z.of_nat (length row) = msl ∧ forward m row = Ok f.
Proof.
  intros Hmsl H. unfold sample_id in H.
  apply bind_Ok in H as (ids & Hids & H).
  apply bind_Ok in H as (padded & Hpad & H).
  apply bind_Ok in H as (probs & Hprobs & _).
  set (window := drop (length ids - Z.to_nat msl) ids).
  assert (Hwin : (if msl <? Z.of_nat (length ids)
                  then Py.slice_from ids (- msl) else ids) = window).
  { unfold window, Py.slice_from. destruct (Z.ltb_spec msl (Z.of_nat (length ids))).
    - destruct (Z.ltb_spec (- msl) 0); [|lia]. f_equal. lia.
    - replace (length ids - Z.to_nat msl)%nat with 0%nat by lia. done. }
  rewrite Hwin in Hpad.
  assert (Hlen : length window = (length ids - (length ids - Z.to_nat msl))%nat).
  { unfold window. apply length_drop. }
  unfold Keras.pad_sequences in Hpad. destruct (Z.ltb_spec msl 0); [lia|].
  rewrite mapM_cons, pad_row_fits in Hpad by lia. injection Hpad as <-.
  cbn [concat] in Hprobs. rewrite app_nil_r in Hprobs.
  replace (Z.to_nat msl - length window)%nat with (Z.to_nat msl - length ids)%nat
    in Hprobs by lia.
  unfold predict in Hprobs. apply bind_Ok in Hprobs as (f & Hf & _).
  exists ids, f. split; [done|]. cbn zeta. fold window. split; [|done].
  rewrite length_app, length_replicate. lia.
Qed.

End Generation.

(** ** The formatting of the result *)

Lemma lstrip_shape (s : string) :
  Py.lstrip s = "" ∨ starts_space (Py.lstrip s) = false.
Proof.
  induction s as [|c s IH]; [by left|]. cbn [Py.lstrip].
  destruct (Py.isspace c) eqn:Hc; [done|]. right. exact Hc.
Qed.

Lemma rev_nil_inv (s : string) : String.rev s = "" → s = "".
Proof. intros H. apply (f_equal String.rev) in H. by rewrite rev_involutive in H. Qed.

(** What [strip] returns has no whitespace at either end. *)
Lemma strip_shape (s : string) :
  Py.strip s = ""
  ∨ (starts_space (Py.strip s) = false ∧ starts_space (String.rev (Py.strip s)) = false).
Proof.
  unfold Py.strip. set (t := Py.lstrip s). set (u := Py.lstrip (String.rev t)).
  destruct (decide (u = "")) as [Hu|Hu]; [left; by rewrite Hu|]. right.
  destruct (lstrip_shape (String.rev t)) as [?|Hstart]; [done|]. fold u in Hstart.
  split; [|by rewrite rev_involutive].
  destruct (lstrip_prefix (String.rev t)) as (a & _ & Ht). fold u in Ht.
  apply (f_equal String.rev) in Ht. rewrite rev_involutive, rev_append in Ht.
  assert (Hr : String.rev u ≠ "") by (intros ?%rev_nil_inv; done).
  destruct (lstrip_shape s) as [Hnil|Hs]; [fold t in Hnil | fold t in Hs].
  - rewrite Hnil in Ht. destruct (String.rev u); [done | discriminate].
  - rewrite Ht in Hs. destruct (String.rev u); [done | exact Hs].
Qed.

(** What [format_result] returns consists of at most two lines,
    joined by a newline; none of them is empty and none starts or ends
    with whitespace. *)
Lemma format_result_shape (generated_words : list string) :
  ∃ lines,
    format_result generated_words = Py.join (String (ascii_of_nat 10) "") lines
    ∧ (length lines ≤ 2)%nat
    ∧ Forall (λ line, line ≠ ""
                      ∧ starts_space line = false
                      ∧ starts_space (String.rev line) = false) lines.
Proof.
  unfold format_result.
  set (clean := λ line, Py.strip (Py.replace "<end>" "" (Py.replace "<line>" "" line))).
  set (formatted := filter (λ clean_line, Keras.nonempty clean_line = true)
                           (map clean (Py.split " <line> " (Py.join " " generated_words)))).
  assert (Hshape : Forall (λ line, line ≠ "" ∧ starts_space line = false
                                   ∧ starts_space (String.rev line) = false) formatted).
  { apply Forall_forall. intros l Hl. apply list_elem_of_filter in Hl as [Hne Hl].
    apply list_elem_of_fmap in Hl as (line & -> & _).
    assert (clean line ≠ "") by (intros H; by rewrite H in Hne).
    split; [done|]. unfold clean in *. by destruct (strip_shape
      (Py.replace "<end>" "" (Py.replace "<line>" "" line))). }
  destruct (Nat.ltb_spec 2 (length formatted)).
  - exists (take 2 formatted). split; [done|]. split.
    + rewrite length_take. lia.
    + by apply Forall_take.
  - exists formatted. split; [done|]. split; [lia | done].
Qed.

Lemma lstrip_fixed (s : string) : starts_space s = false → Py.lstrip s = s.
Proof. destruct s as [|c s]; [done|]. cbn [starts_space Py.lstrip]. by intros ->. Qed.

Lemma strip_fixed (s : string) :
  starts_space s = false → starts_space (String.rev s) = false → Py.strip s = s.
Proof.
  intros Hs Hr. unfold Py.strip. by rewrite (lstrip_fixed s), lstrip_fixed, rev_involutive.
Qed.

Lemma starts_space_append (a b : string) :
  a ≠ "" → starts_space (a +:+ b) = starts_space a.
Proof. by destruct a. Qed.

(** [strip] changes nothing in what [format_result] returns. *)
Lemma format_result_stripped (generated_words : list string) :
  Py.strip (format_result generated_words) = format_result generated_words.
Proof.
  destruct (format_result_shape generated_words) as (lines & -> & Hlen & Hlines).
  destruct lines as [|a [|b [|c lines]]]; [done | | | simpl in Hlen; lia].
  - apply Forall_cons in Hlines as [(_ & Ha & Hra) _]. by apply strip_fixed.
  - apply Forall_cons in Hlines as [(Ha0 & Ha & _) Hlines].
    apply Forall_cons in Hlines as [(Hb0 & _ & Hrb) _].
    rewrite join_cons_cons. cbn [Py.join]. apply strip_fixed.
    + by rewrite starts_space_append.
    + rewrite !rev_append, append_assoc, starts_space_append; [done|].
      intros H. by apply rev_nil_inv in H.
Qed.

Section Shape.

Variable str_lower : string → string.
Variable float_pow : Q → Q → Q.

Abbreviation generate := (generate_haiku_completion str_lower float_pow).

Lemma generate_Ok self first_line max_length temperature draws completion :
  generate self first_line max_length temperature draws = Ok completion →
  ∃ generated_words, completion = format_result generated_words.
Proof.
  unfold generate_haiku_completion.
  destruct (model self) as [m|]; [|done]. destruct (tokenizer self) as [t|]; [|done].
  destruct (run_loop _ _ _ _ _ _ _ _ _) as [st []]; intros [= <-]; eauto.
Qed.

(** X10. The string that [generate_haiku_completion] returns consists
    of at most two lines, joined by a newline; none of them is empty
    and none starts or ends with whitespace, so that [strip] leaves
    the string as it is. *)
Theorem completion_shape self first_line max_length temperature draws completion :
  generate_haiku_completion str_lower float_pow self first_line max_length temperature
                            draws = Ok completion →
  (∃ lines,
     completion = Py.join (String (ascii_of_nat 10) "") lines
     ∧ (length lines ≤ 2)%nat
     ∧ Forall (λ line, line ≠ ""
                       ∧ starts_space line = false
                       ∧ starts_space (String.rev line) = false) lines)
  ∧ Py.strip completion = completion.
Proof.
  intros (ws & ->)%generate_Ok.
  split; [apply format_result_shape | apply format_result_stripped].
Qed.

End Shape.

(** ** The fitted vocabulary *)

Lemma mapM_Forall2 {A B : Type} (f : A → result B) (l : list A) (k : list B) :
  mapM f l = Ok k → Forall2 (λ x y, f x = Ok y) l k.
Proof.
  revert k. induction l as [|x l IH]; intros k.
  - intros [= <-]. constructor.
  - rewrite mapM_cons. intros H.
    apply bind_Ok in H as (y & Hy & H). apply bind_Ok in H as (k' & Hk' & [= <-]).
    constructor; [done | by apply IH].
Qed.

Lemma Forall2_impl_elem_of {A B : Type} (P Q : A → B → Prop) (l : list A) (k : list B) :
  Forall2 P l k → (∀ x y, x ∈ l → P x y → Q x y) → Forall2 Q l k.
Proof.
  induction 1 as [|x y l k Hxy _ IH]; intros H; constructor.
  - apply H; [left | done].
  - apply IH. intros x' y' Hx'. apply H. by right.
Qed.

Lemma reverse_word_map_fold_inj (l : list (string * Z)) (m0 : gmap Z string) w id :
  (∀ w1 w2 id', (w1, id') ∈ l → (w2, id') ∈ l → w1 = w2) →
  (w, id) ∈ l →
  foldl (λ m kv, <[kv.2 := kv.1]> m) m0 l !! id = Some w.
Proof.
  revert m0. induction l as [|[w' id'] l IH] using rev_ind; intros m0 Hinj Hin.
  - by apply elem_of_nil in Hin.
  - rewrite foldl_snoc. cbn [fst snd].
    destruct (decide (id' = id)) as [->|Hne].
    + rewrite lookup_insert_eq. f_equal. apply (Hinj w' w id).
      * apply elem_of_app. right. left.
      * done.
    + rewrite lookup_insert_ne by done. apply IH.
      * intros w1 w2 i H1 H2. apply (Hinj w1 w2 i); apply elem_of_app; by left.
      * apply elem_of_app in Hin as [?|Hin]; [done|].
        apply list_elem_of_singleton in Hin. congruence.
Qed.

(** The reverse map of a word index without repeated ids inverts it. *)
Lemma reverse_word_map_lookup (wi : gmap string Z) w id :
  (∀ w1 w2 id', wi !! w1 = Some id' → wi !! w2 = Some id' → w1 = w2) →
  wi !! w = Some id → reverse_word_map wi !! id = Some w.
Proof.
  intros Hinj Hw. unfold reverse_word_map. apply reverse_word_map_fold_inj.
  - intros w1 w2 i H1%elem_of_map_to_list H2%elem_of_map_to_list. by eapply Hinj.
  - by apply elem_of_map_to_list.
Qed.

Section Fitted.

Variable str_lower : string → string.

Abbreviation fitted_on := (fitted str_lower).
Abbreviation to_ids := (Keras.texts_to_sequences str_lower).
Abbreviation to_words := (Keras.text_to_word_sequence str_lower FILTERS).
Abbreviation pairs_of := (training_pairs str_lower).
Abbreviation prepare := (prepare_data str_lower).

Lemma fitted_injective haikus w1 w2 id :
  Keras.word_index (fitted_on haikus) !! w1 = Some id →
  Keras.word_index (fitted_on haikus) !! w2 = Some id → w1 = w2.
Proof.
  rewrite fitted_word_index. intros [_ H1]%dict_zip_lookup_Some [_ H2]%dict_zip_lookup_Some.
  congruence.
Qed.

Lemma fitted_ids_positive haikus w id :
  Keras.word_index (fitted_on haikus) !! w = Some id → 1 ≤ id.
Proof. rewrite fitted_word_index. intros H%dict_zip_lookup_Some. lia. Qed.

Lemma fitted_has_unk haikus : is_Some (Keras.word_index (fitted_on haikus) !! UNK).
Proof. rewrite fitted_word_index. apply dict_zip_is_Some. left. Qed.

(** X11. In the vocabulary that [prepare_data] fits, token to id to
    token is the identity: the reverse map of [generate_haiku_completion]
    decodes the id of every token to that token; and an id that decodes
    to a word other than ["<unk>"] is the id of that word. *)
Theorem vocabulary_round_trip haikus w id :
  let wi := Keras.word_index (fitted str_lower haikus) in
  (wi !! w = Some id → decode wi id = w)
  ∧ (decode wi id = w → w ≠ UNK → wi !! w = Some id).
Proof.
  intros wi. split.
  - intros Hw. unfold decode.
    rewrite (reverse_word_map_lookup wi w id); [done | | done].
    intros w1 w2 i. apply fitted_injective.
  - intros Hd Hunk. unfold decode in Hd.
    destruct (reverse_word_map wi !! id) as [w'|] eqn:Hr; simpl in Hd; [|congruence].
    subst w'. by apply reverse_word_map_Some.
Qed.

(** The ids that the fitted tokenizer gives to a list of words. *)
Lemma to_ids_words haikus oov text :
  Keras.word_index (fitted_on haikus) !! UNK = Some oov →
  to_ids (fitted_on haikus) text
  = Ok (map (λ w, default oov (Keras.word_index (fitted_on haikus) !! w))
            (to_words text)).
Proof.
  intros Hoov. unfold Keras.texts_to_sequences.
  change (Keras.oov_token (fitted_on haikus)) with (Some UNK).
  change (Keras.filters (fitted_on haikus)) with FILTERS.
  cbn [mbind option_bind]. rewrite Hoov.
  induction (to_words text) as [|w ws IH]; [done|].
  cbn [foldr map]. rewrite IH.
  by destruct (Keras.word_index (fitted_on haikus) !! w).
Qed.

Lemma tokenization_total_ids haikus text ids :
  to_ids (fitted_on haikus) text = Ok ids → Forall (λ id, 1 ≤ id) ids.
Proof.
  destruct (fitted_has_unk haikus) as [oov Hoov].
  rewrite (to_ids_words haikus oov text Hoov).
  remember (Keras.word_index (fitted_on haikus)) as wi eqn:Hwi.
  intros H. injection H as <-.
  apply Forall_forall. intros id (w & -> & _)%list_elem_of_fmap.
  destruct (wi !! w) as [i|] eqn:Hw; simpl; subst wi.
  - by eapply fitted_ids_positive.
  - by eapply fitted_ids_positive.
Qed.

(** X12. The tokenizer that [prepare_data] fits turns every text into
    ids without raising: one id per word of the text, the id of the
    word if it is in the vocabulary and the id of ["<unk>"] otherwise;
    all of them are at least 1. *)
Theorem tokenization_total haikus text :
  ∃ oov,
    Keras.word_index (fitted str_lower haikus) !! UNK = Some oov
    ∧ Keras.texts_to_sequences str_lower (fitted str_lower haikus) text
      = Ok (map (λ w, default oov (Keras.word_index (fitted str_lower haikus) !! w))
                (Keras.text_to_word_sequence str_lower FILTERS text))
    ∧ Forall (λ id, 1 ≤ id)
             (map (λ w, default oov (Keras.word_index (fitted str_lower haikus) !! w))
                  (Keras.text_to_word_sequence str_lower FILTERS text)).
Proof.
  destruct (fitted_has_unk haikus) as [oov Hoov]. exists oov.
  split; [done|]. split; [by apply to_ids_words|].
  apply Forall_forall. intros id (w & -> & _)%list_elem_of_fmap.
  destruct (Keras.word_index (fitted_on haikus) !! w) as [i|] eqn:Hw; simpl.
  - by eapply fitted_ids_positive.
  - by eapply fitted_ids_positive.
Qed.

Lemma haiku_pairs_elements (line : Z) (full_sequence : list Z) pairs p :
  haiku_pairs line full_sequence = Ok pairs → p ∈ pairs →
  p.2 ∈ full_sequence ∧ ∀ x, x ∈ p.1 → x ∈ full_sequence.
Proof.
  destruct (first_occurrence line full_sequence) as [H | (pre & post & -> & H)].
  - rewrite haiku_pairs_absent by done. intros [= <-] Hp. by apply elem_of_nil in Hp.
  - rewrite haiku_pairs_split by done. intros [= <-] Hp.
    apply list_elem_of_lookup in Hp as [j Hj]. rewrite list_lookup_imap in Hj.
    destruct (post !! j) as [y|] eqn:Hy; [|done]. injection Hj as <-. cbn [fst snd].
    split.
    + apply elem_of_app. right; right. by eapply list_elem_of_lookup_2.
    + intros x [Hx|Hx]%elem_of_app; apply elem_of_app; [by left|]. right.
      apply elem_of_cons in Hx as [->|Hx]; [left|]. right.
      eapply elem_of_sublist; [exact Hx|]. apply sublist_take.
Qed.

(** Every id in a training pair of the fitted tokenizer is at least 1. *)
Lemma pairs_ids_positive haikus hs pairs p :
  pairs_of (fitted_on haikus) hs = Ok pairs → p ∈ pairs →
  1 ≤ p.2 ∧ Forall (λ id, 1 ≤ id) p.1.
Proof.
  revert pairs. induction hs as [|h hs IH]; intros pairs.
  - intros [= <-] Hp. by apply elem_of_nil in Hp.
  - rewrite training_pairs_cons. intros H.
    apply bind_Ok in H as (s & Hs & H). apply bind_Ok in H as (ps & Hps & H).
    apply bind_Ok in H as (rest & Hrest & [= <-]).
    intros [Hp|Hp]%elem_of_app; [|by eapply IH].
    pose proof (tokenization_total_ids haikus (full_haiku h) s Hs) as Hpos.
    rewrite Forall_forall in Hpos.
    destruct (haiku_pairs_elements _ _ _ _ Hps Hp) as [H2 H1].
    split; [by apply Hpos|]. apply Forall_forall. intros x Hx. by apply Hpos, H1.
Qed.

Lemma one_hot_row (num_classes y : Z) (row : list Z) :
  0 ≤ y → Keras.one_hot num_classes y = Ok row →
  y < num_classes
  ∧ Z.of_nat (length row) = num_classes
  ∧ ∀ j, (j < length row)%nat →
         row !! j = Some (if decide (Z.of_nat j = y) then 1 else 0).
Proof.
  intros Hy. unfold Keras.one_hot.
  destruct (Z.ltb_spec y (- num_classes)); [done|].
  destruct (Z.leb_spec num_classes y); [done|]. cbn [orb].
  destruct (Z.ltb_spec y 0); [lia|]. intros [= <-].
  rewrite length_map, length_range. split; [done|]. split; [lia|].
  intros j Hj. rewrite list_lookup_fmap, lookup_range by done. cbn [fmap option_fmap option_map].
  f_equal. destruct (Z.eqb_spec (0 + Z.of_nat j) y); case_decide; try done; lia.
Qed.

(** X13. When [prepare_data] returns, the corpus has given at least
    one training pair; max_sequence_length is the length of the
    longest input; the rows of X are the inputs, each behind as many
    zeros as it needs to have that length; and the rows of y are the
    one-hot encodings, of width vocab_size, of the targets, which lie
    in 1..vocab_size-1. *)
Theorem prepare_data_returns self haikus g X y :
  prepare_data str_lower self haikus = (g, Ok (X, y)) →
  ∃ pairs,
    training_pairs str_lower (fitted str_lower haikus) haikus = Ok pairs
    ∧ pairs ≠ []
    ∧ max_sequence_length g
      = foldr Z.max 0 (map (λ p, Z.of_nat (length p.1)) pairs)
    ∧ X = map (λ p, replicate (Z.to_nat (max_sequence_length g) - length p.1) 0 ++ p.1)
              pairs
    ∧ Forall (λ row, Z.of_nat (length row) = max_sequence_length g) X
    ∧ Forall2 (λ p row,
                 1 ≤ p.2 < vocab_size g
                 ∧ Z.of_nat (length row) = vocab_size g
                 ∧ ∀ j, (j < length row)%nat →
                        row !! j = Some (if decide (Z.of_nat j = p.2) then 1 else 0))
              pairs y.
Proof.
  unfold prepare_data. fold (fitted_on haikus).
  destruct (pairs_of (fitted_on haikus) haikus) as [pairs|e] eqn:Hpairs; [|done].
  destruct pairs as [|p0 pairs0] eqn:Hp; [done|]. rewrite <- Hp in *.
  destruct (map fst pairs) as [|i0 inputs0] eqn:Hinputs; [by rewrite Hp in Hinputs|].
  rewrite <- Hinputs. cbn [max_sequence_length vocab_size].
  pose proof (pad_sequences_to_longest (map fst pairs)) as Hpad. cbn zeta in Hpad.
  rewrite Hpad. cbn [mbind result_bind].
  destruct (Keras.to_categorical (map snd pairs) _) as [cat|e] eqn:Hcat; [|done].
  intros [= <- <- <-]. cbn [max_sequence_length vocab_size].
  exists pairs. rewrite !map_map.
  assert (Hmax : ∀ p, p ∈ pairs →
            Z.of_nat (length p.1)
            ≤ foldr Z.max 0 (map (λ x, Z.of_nat (length x.1)) pairs)).
  { clear. induction pairs as [|q l IH]; intros p Hp; [by apply elem_of_nil in Hp|].
    cbn [map foldr]. apply elem_of_cons in Hp as [->|Hp]; [lia|].
    specialize (IH p Hp). lia. }
  split; [done|]. split; [by rewrite Hp|]. split; [done|]. split; [done|]. split.
  - apply Forall_forall. intros row (p & -> & Hin)%list_elem_of_fmap.
    rewrite length_app, length_replicate. specialize (Hmax p Hin). lia.
  - unfold Keras.to_categorical in Hcat.
    assert (Hv : (Z.of_nat (size (Keras.word_index (fitted_on haikus))) + 1 =? 0) = false)
      by (apply Z.eqb_neq; lia).
    rewrite Hv in Hcat. apply mapM_Forall2 in Hcat.
    apply Forall2_fmap_l in Hcat.
    eapply Forall2_impl_elem_of; [exact Hcat|].
    intros p row Hin Hrow. cbn beta in Hrow.
    destruct (pairs_ids_positive haikus haikus pairs p Hpairs Hin) as [Hpos _].
    apply one_hot_row in Hrow as (? & ? & ?); [|lia]. repeat split; try done; lia.
Qed.

End Fitted.

(** ** The markers in the corpus *)

Lemma translate_append (filters a b : string) :
  Keras.translate filters (a +:+ b)
  = Keras.translate filters a +:+ Keras.translate filters b.
Proof. induction a as [|c a IH]; simpl; [done | by rewrite IH]. Qed.

Lemma startswith_char (d c : Ascii.ascii) (s : string) :
  Py.startswith (String d "") (String c s) = Ascii.eqb d c.
Proof. cbn [Py.startswith]. by destruct (Ascii.eqb d c). Qed.

(** Splitting at spaces splits a text at every space. *)
Lemma split_space_append (a b : string) :
  Py.split " " (a +:+ " " +:+ b) = Py.split " " a ++ Py.split " " b.
Proof.
  induction a as [|c a IH].
  - change ("" +:+ " " +:+ b) with (" " +:+ b). by rewrite split_match.
  - change (String c a +:+ " " +:+ b) with (String c (a +:+ " " +:+ b)).
    destruct (Ascii.eqb_spec " " c) as [<-|Hc].
    + change (String " " ?s) with (" " +:+ s). by rewrite !split_match, IH.
    + assert (Hs : ∀ s, Py.startswith " " (String c s) = false).
      { intros s. rewrite startswith_char. by apply Ascii.eqb_neq. }
      destruct (split_skip " " c _ (Hs (a +:+ " " +:+ b))) as (p & ps & Hsplit & ->).
      destruct (split_skip " " c _ (Hs a)) as (p' & ps' & Hsplit' & ->).
      rewrite IH, Hsplit' in Hsplit. by injection Hsplit as <- <-.
Qed.

Lemma first_occurrence_bound (l : Z) (pre post front rest : list Z) :
  l ∉ pre → pre ++ l :: post = front ++ l :: rest → (length rest ≤ length post)%nat.
Proof.
  intros Hpre Heq. apply (f_equal length) in Heq as Hlen.
  rewrite !length_app in Hlen. simpl in Hlen.
  destruct (decide (length front < length pre)%nat) as [Hlt|?]; [|lia].
  exfalso. apply Hpre. apply list_elem_of_lookup. exists (length front).
  rewrite <- (lookup_app_l pre (l :: post)) by done.
  rewrite Heq. by rewrite lookup_app_r, Nat.sub_diag by done.
Qed.

Section Markers.

Variable str_lower : string → string.
Hypothesis lower_append : ∀ a b, str_lower (a +:+ b) = str_lower a +:+ str_lower b.
Hypothesis lower_line : str_lower " <line> " = " <line> ".
Hypothesis lower_end : str_lower " <end>" = " <end>".

Abbreviation fitted_on := (fitted str_lower).
Abbreviation to_ids := (Keras.texts_to_sequences str_lower).
Abbreviation to_words := (Keras.text_to_word_sequence str_lower FILTERS).
Abbreviation pairs_of := (training_pairs str_lower).
Abbreviation prepare := (prepare_data str_lower).
Abbreviation words_of := (corpus_words str_lower).

Lemma to_words_line (a b : string) :
  to_words (a +:+ " <line> " +:+ b) = to_words a ++ LINE :: to_words b.
Proof.
  unfold Keras.text_to_word_sequence.
  rewrite !lower_append, lower_line, !translate_append.
  change (Keras.translate FILTERS " <line> ") with (" " +:+ "<line>" +:+ " ").
  rewrite !append_assoc, !split_space_append, !filter_app. done.
Qed.

Lemma to_words_end (a : string) : to_words (a +:+ " <end>") = to_words a ++ [END].
Proof.
  unfold Keras.text_to_word_sequence.
  rewrite lower_append, lower_end, translate_append.
  change (Keras.translate FILTERS " <end>") with (" " +:+ "<end>").
  rewrite split_space_append, filter_app. done.
Qed.

(** The words of a flattened haiku: those of its lines, a marker
    between them and ["<end>"] behind. *)
Lemma full_haiku_words (haiku : Haiku) :
  to_words (full_haiku haiku)
  = to_words haiku.1.1 ++ LINE :: to_words haiku.1.2
    ++ LINE :: to_words haiku.2 ++ [END].
Proof.
  unfold full_haiku. by rewrite !to_words_line, to_words_end.
Qed.

Lemma corpus_word_id haikus w :
  w ∈ words_of haikus → is_Some (Keras.word_index (fitted_on haikus) !! w).
Proof.
  intros Hw. rewrite fitted_word_index. apply dict_zip_is_Some. right.
  rewrite sorted_counts_keys. by apply elem_of_first_seen.
Qed.

Lemma haiku_words_in_corpus haikus haiku w :
  haiku ∈ haikus → w ∈ to_words (full_haiku haiku) → w ∈ words_of haikus.
Proof.
  intros Hh Hw. unfold corpus_words. induction haikus as [|h hs IH].
  - by apply elem_of_nil in Hh.
  - cbn [map concat]. apply elem_of_app.
    apply elem_of_cons in Hh as [<-|Hh]; [by left | right; by apply IH].
Qed.

(** Every haiku of the corpus gives at least two pairs. *)
Lemma haiku_gives_pairs haikus haiku :
  haiku ∈ haikus →
  ∃ full_sequence pairs,
    to_ids (fitted_on haikus) (full_haiku haiku) = Ok full_sequence
    ∧ haiku_pairs (default 0 (Keras.word_index (fitted_on haikus) !! LINE)) full_sequence
      = Ok pairs
    ∧ (2 ≤ length pairs)%nat.
Proof.
  intros Hh. destruct (fitted_has_unk str_lower haikus) as [oov Hoov].
  set (wi := Keras.word_index (fitted_on haikus)).
  assert (Hline : LINE ∈ to_words (full_haiku haiku)).
  { rewrite full_haiku_words. apply elem_of_app. right. left. }
  destruct (corpus_word_id haikus LINE (haiku_words_in_corpus _ _ _ Hh Hline))
    as [l Hl]. fold wi in Hl.
  set (idof := λ w, default oov (wi !! w)).
  set (front := map idof (to_words haiku.1.1)).
  set (rest := map idof (to_words haiku.1.2 ++ LINE :: to_words haiku.2 ++ [END])).
  assert (Hids : map idof (to_words (full_haiku haiku)) = front ++ l :: rest).
  { rewrite full_haiku_words, map_app. cbn [map]. unfold idof at 2. by rewrite Hl. }
  assert (Hrest : (2 ≤ length rest)%nat).
  { unfold rest. rewrite length_map, !length_app. cbn [length].
    rewrite length_app. cbn [length]. lia. }
  destruct (first_occurrence l (front ++ l :: rest)) as [Habs | (pre & post & Heq & Hpre)].
  { exfalso. apply Habs. apply elem_of_app. right. left. }
  exists (front ++ l :: rest), (imap (λ j y, (pre ++ l :: take j post, y)) post).
  rewrite (to_ids_words str_lower haikus oov _ Hoov). fold wi idof.
  rewrite Hl, Hids. cbn [default]. split; [done|]. split.
  - rewrite Heq. by apply haiku_pairs_split.
  - rewrite length_imap.
    symmetry in Heq. apply (first_occurrence_bound l pre post front rest Hpre) in Heq.
    lia.
Qed.

Lemma corpus_gives_pairs haikus hs :
  (∀ haiku, haiku ∈ hs → haiku ∈ haikus) →
  ∃ pairs, pairs_of (fitted_on haikus) hs = Ok pairs ∧ (hs ≠ [] → pairs ≠ []).
Proof.
  induction hs as [|h hs IH]; intros Hsub; [by exists []|].
  destruct IH as (rest & Hrest & _); [intros x Hx; apply Hsub; by right|].
  destruct (haiku_gives_pairs haikus h) as (s & ps & Hs & Hps & Hlen); [apply Hsub; left|].
  exists (ps ++ rest). rewrite training_pairs_cons, Hs. cbn [mbind result_bind].
  rewrite Hps. cbn [mbind result_bind]. rewrite Hrest. split; [done|].
  intros _ Hnil. apply app_eq_nil in Hnil as [-> _]. simpl in Hlen. lia.
Qed.

(** X14. For a [str.lower] that distributes over concatenation and
    leaves the markers as they are, the branch that skips a haiku is
    never taken: every haiku of the corpus gives at least two training
    pairs, and [prepare_data] raises the [ValueError] of training.py:81
    exactly on the empty corpus. *)
Theorem prepare_data_fails_on_empty_corpus_only self haikus :
  (∀ haiku, haiku ∈ haikus →
     ∃ full_sequence pairs,
       Keras.texts_to_sequences str_lower (fitted str_lower haikus) (full_haiku haiku)
       = Ok full_sequence
       ∧ haiku_pairs (default 0 (Keras.word_index (fitted str_lower haikus) !! LINE))
                     full_sequence = Ok pairs
       ∧ (2 ≤ length pairs)%nat)
  ∧ ((prepare_data str_lower self haikus).2 = Raise (ValueError NoSequences) ↔ haikus = []).
Proof.
  split; [apply haiku_gives_pairs|].
  destruct (corpus_gives_pairs haikus haikus) as (pairs & Hpairs & Hne); [done|].
  destruct (prepare_data_outcome str_lower self haikus pairs Hpairs)
    as [(-> & H) | (Hpairs' & [H | (Xy & H)])]; rewrite H.
  - split; [|done]. intros _. destruct haikus; [done|]. by destruct Hne.
  - split; [done|]. intros ->. by injection Hpairs as <-.
  - split; [done|]. intros ->. by injection Hpairs as <-.
Qed.

End Markers.

(** * Properties of the bot, [haiku.py] *)

(** ** Callback data *)

Lemma split_max_scan_rest (sep rest : string) :
  Bot.split_max_scan sep rest 0 0 "" = [rest].
Proof. by destruct rest. Qed.

(** The scan up to the first colon. *)
Lemma split_max_scan_piece (a rest cur : string) (n : nat) :
  contains ":" a = false →
  Bot.split_max_scan ":" (a +:+ ":" +:+ rest) (S n) 0 cur
  = (String.rev cur +:+ a) :: Bot.split_max_scan ":" rest n 0 "".
Proof.
  revert cur. induction a as [|c a IH]; intros cur Ha.
  - change ("" +:+ ":" +:+ rest) with (String ":" rest).
    cbn [Bot.split_max_scan]. rewrite startswith_char. by rewrite append_nil_r.
  - apply contains_cons in Ha as [Hc Ha]. rewrite startswith_char in Hc.
    change (String c a +:+ ":" +:+ rest) with (String c (a +:+ ":" +:+ rest)).
    cbn [Bot.split_max_scan]. rewrite startswith_char, Hc, IH by done.
    by rewrite rev_cons, append_assoc.
Qed.

Lemma split_regenerate (first_line : string) :
  Bot.split_max ":" ("regenerate:" +:+ first_line) 1 = ["regenerate"; first_line].
Proof.
  unfold Bot.split_max. change ("regenerate:" +:+ first_line)
    with ("regenerate" +:+ ":" +:+ first_line).
  by rewrite split_max_scan_piece, split_max_scan_rest.
Qed.

Lemma split_save (a rest : string) :
  contains ":" a = false →
  Bot.split_max ":" ("save:" +:+ a +:+ ":" +:+ rest) 2 = ["save"; a; rest].
Proof.
  intros Ha. unfold Bot.split_max.
  change ("save:" +:+ a +:+ ":" +:+ rest) with ("save" +:+ ":" +:+ a +:+ ":" +:+ rest).
  by rewrite !split_max_scan_piece, split_max_scan_rest.
Qed.

(** A call that is none of those of a list. *)
Ltac not_in H :=
  repeat first [ by apply elem_of_nil in H
               | apply elem_of_cons in H as [H|H]; [try discriminate H|] ].

Section Replies.

Variable str_lower : string → string.
Variable float_pow : Q → Q → Q.
Variable telegram : Bot.Call → bool.
Variable str_len : string → nat.
Variable str_strip : string → string.

Abbreviation generate_haiku :=
  (Bot.generate_haiku str_lower float_pow telegram str_len str_strip).
Abbreviation button_handler := (Bot.button_handler str_lower float_pow telegram).
Abbreviation generate := (generate_haiku_completion str_lower float_pow).
Abbreviation to_ids := (Keras.texts_to_sequences str_lower).

(** For what the generator returns, the second half of the test
    [completion and completion.strip()] adds nothing. *)
Lemma truthy_completion self first_line max_length temperature draws completion :
  generate self first_line max_length temperature draws = Ok completion →
  Bot.truthy completion = Keras.nonempty completion.
Proof.
  intros (ws & ->)%generate_Ok. unfold Bot.truthy. rewrite format_result_stripped.
  by destruct (Keras.nonempty _).
Qed.

(** What [generate_and_reply] comes to, case by case. *)
Lemma generate_and_reply_run first_line temperature draws haiku nothing failure self :
  Bot.generate_and_reply str_lower float_pow telegram first_line temperature draws
                         haiku nothing failure self
  = let failed := if telegram (Bot.ReplyText failure [])
                  then (Bot.count_failure self, Some ()) else (self, None) in
    match generate (Bot.generator self) first_line 15 temperature draws with
    | Ok completion =>
        let reply :=
          if Keras.nonempty completion
          then Bot.ReplyText (haiku first_line completion)
                             (Bot.haiku_keyboard first_line completion)
          else Bot.ReplyText nothing [] in
        if telegram reply
        then (if Keras.nonempty completion then Bot.count_success self
              else Bot.count_failure self, [reply], Some ())
        else (failed.1, [reply; Bot.ReplyText failure []], failed.2)
    | Raise _ => (failed.1, [Bot.ReplyText failure []], failed.2)
    end.
Proof.
  unfold Bot.generate_and_reply, Bot.try_except, Bot.await, mbind, Bot.handler_bind,
    Bot.gets, Bot.modify, Bot.lift. cbn zeta.
  destruct (generate (Bot.generator self) first_line 15 temperature draws)
    as [completion|e] eqn:Hc.
  - rewrite (truthy_completion _ _ _ _ _ _ Hc).
    destruct (Keras.nonempty completion); destruct (telegram (Bot.ReplyText _ _));
      cbn [app fst snd]; try done; by destruct (telegram _).
  - cbn [app fst snd]. by destruct (telegram _).
Qed.

(** What [generate_and_reply] does to the statistics. *)
Lemma generate_and_reply_counts first_line temperature draws haiku nothing failure self :
  let s := Bot.stats self in
  let s' := Bot.stats (Bot.generate_and_reply str_lower float_pow telegram first_line
                         temperature draws haiku nothing failure self).1.1 in
  Bot.total_requests s' = Bot.total_requests s
  ∧ Bot.users s' = Bot.users s
  ∧ Bot.successful_generations s ≤ Bot.successful_generations s'
  ∧ Bot.failed_generations s ≤ Bot.failed_generations s'
  ∧ (Bot.successful_generations s' + Bot.failed_generations s')
    - (Bot.successful_generations s + Bot.failed_generations s) ≤ 1.
Proof.
  rewrite generate_and_reply_run. cbn zeta.
  repeat case_match; cbn; repeat split; lia.
Qed.

(** [generate_haiku] for a message that gets to the generator. *)
Lemma generate_haiku_accepted text user_id draws self :
  Bot.model_loaded self = true →
  (3 ≤ str_len (str_strip text) ≤ 100)%nat →
  generate_haiku text user_id draws self
  = (Bot.await telegram Bot.SendChatAction;;
     Bot.generate_and_reply str_lower float_pow telegram (str_strip text) (8 # 10) draws
                            Bot.YourHaiku Bot.NoHaiku Bot.GenerationError)
      (Bot.count_request (Bot.add_user user_id self)).
Proof.
  intros Hloaded Hlen. unfold Bot.generate_haiku. cbn zeta.
  destruct (Nat.ltb_spec 100 (str_len (str_strip text))); [lia|].
  destruct (Nat.ltb_spec (str_len (str_strip text)) 3); [lia|].
  unfold mbind, Bot.handler_bind, Bot.gets, Bot.modify, Bot.await.
  rewrite Hloaded. cbn [negb app].
  destruct (telegram Bot.SendChatAction); [|done].
  by destruct (Bot.generate_and_reply _ _ _ _ _ _ _ _ _ _) as [[??]?].
Qed.

(** [generate_haiku] for a message that does not. *)
Lemma generate_haiku_rejected text user_id draws self :
  Bot.model_loaded self = false
  ∨ (str_len (str_strip text) < 3)%nat ∨ (100 < str_len (str_strip text))%nat →
  ∃ counted text', (generate_haiku text user_id draws self).1
                   = (counted, [Bot.ReplyText text' []])
                   ∧ text' ∈ [Bot.StillTraining; Bot.NotLoaded; Bot.TooLong; Bot.TooShort].
Proof.
  intros Hrejected. unfold Bot.generate_haiku. cbn zeta.
  unfold mbind, Bot.handler_bind, Bot.gets, Bot.modify, Bot.await.
  destruct (Bot.model_loaded self); cbn [negb].
  - destruct Hrejected as [?|Hlen]; [done|]. cbn [app].
    destruct (Nat.ltb_spec 100 (str_len (str_strip text))).
    + eexists _, Bot.TooLong. split; [by destruct (telegram _)|]. by do 2 right; left.
    + destruct (Nat.ltb_spec (str_len (str_strip text)) 3); [|lia].
      eexists _, Bot.TooShort. split; [by destruct (telegram _)|]. by do 3 right; left.
  - destruct (Bot.training_in_progress self).
    + eexists _, Bot.StillTraining. split; [by destruct (telegram _)|]. by left.
    + eexists _, Bot.NotLoaded. split; [by destruct (telegram _)|]. by right; left.
Qed.

(** X16. A text message counts as at most one request, and adds at
    most one to the successful and failed generations together, and
    only if it was counted as a request, whatever the generator and
    Telegram do; so a bot whose successful and failed generations do
    not exceed its requests stays so.  No user is forgotten. *)
Theorem text_message_counts text user_id draws self :
  let s := Bot.stats self in
  let s' := Bot.stats (Bot.generate_haiku str_lower float_pow telegram str_len str_strip
                                          text user_id draws self).1.1 in
  Bot.total_requests s ≤ Bot.total_requests s' ≤ Bot.total_requests s + 1
  ∧ Bot.successful_generations s ≤ Bot.successful_generations s'
  ∧ Bot.failed_generations s ≤ Bot.failed_generations s'
  ∧ (Bot.successful_generations s' + Bot.failed_generations s')
    - (Bot.successful_generations s + Bot.failed_generations s)
    ≤ Bot.total_requests s' - Bot.total_requests s
  ∧ (Bot.successful_generations s + Bot.failed_generations s ≤ Bot.total_requests s →
     Bot.successful_generations s' + Bot.failed_generations s' ≤ Bot.total_requests s')
  ∧ Bot.users s ⊆ Bot.users s'.
Proof.
  unfold Bot.generate_haiku, Bot.generate_and_reply, Bot.try_except, Bot.await, mbind,
    Bot.handler_bind, Bot.gets, Bot.modify, Bot.lift.
  cbn zeta. destruct (Bot.model_loaded self); cbn [negb].
  - repeat case_match; simplify_eq; cbn; (repeat split; [lia..|set_solver]).
  - repeat case_match; simplify_eq; cbn; (repeat split; [lia..|set_solver]).
Qed.

(** X17. A button never counts as a request and records no user; it
    adds at most one to the successful and failed generations
    together, and only if its data starts with ["regenerate:"]. *)
Theorem button_counts data random_start draws self :
  let s := Bot.stats self in
  let s' := Bot.stats (Bot.button_handler str_lower float_pow telegram data random_start
                                          draws self).1.1 in
  Bot.total_requests s' = Bot.total_requests s
  ∧ Bot.users s' = Bot.users s
  ∧ Bot.successful_generations s ≤ Bot.successful_generations s'
  ∧ Bot.failed_generations s ≤ Bot.failed_generations s'
  ∧ (Bot.successful_generations s' + Bot.failed_generations s')
    - (Bot.successful_generations s + Bot.failed_generations s) ≤ 1
  ∧ (Py.startswith "regenerate:" data = false → s' = s).
Proof.
  pose proof (generate_and_reply_counts) as Hcounts. cbn zeta in *.
  unfold Bot.button_handler, Bot.example_command, Bot.help_command, Bot.stats_command,
    Bot.send, Bot.await, mbind, mret, Bot.handler_ret, Bot.handler_bind, Bot.gets,
    Bot.lift.
  destruct (telegram Bot.Answer); [|by cbn; repeat split; try lia].
  repeat (case_match; try by simplify_eq; cbn; repeat split; try lia).
  all: simplify_eq.
  all: match goal with
       | H : Bot.generate_and_reply _ _ _ ?l ?T ?d ?h ?n ?f ?b = _ |- _ =>
           specialize (Hcounts l T d h n f b); rewrite H in Hcounts
       end.
  all: cbn in *; repeat split; try lia; try done; try apply Hcounts.
Qed.

(** The branch that [button_handler] takes for the first button of
    [haiku_keyboard]. *)
Lemma button_regenerate first_line random_start draws self :
  button_handler ("regenerate:" +:+ first_line) random_start draws self
  = (Bot.await telegram Bot.Answer;;
     Bot.await telegram Bot.SendChatAction;;
     Bot.generate_and_reply str_lower float_pow telegram first_line (9 # 10) draws
                            Bot.NewVariant Bot.NoVariant Bot.VariantError) self.
Proof.
  unfold Bot.button_handler.
  change (String.eqb ("regenerate:" +:+ first_line) "examples") with false.
  change (String.eqb ("regenerate:" +:+ first_line) "help") with false.
  change (String.eqb ("regenerate:" +:+ first_line) "stats") with false.
  change (String.eqb ("regenerate:" +:+ first_line) "random_start") with false.
  rewrite startswith_append, split_regenerate. cbv iota.
  unfold mbind, Bot.handler_bind, Bot.await, Bot.lift. cbn [lookup list_lookup].
  destruct (telegram Bot.Answer); [|done]. cbn [app].
  destruct (telegram Bot.SendChatAction); [|done].
  by destruct (Bot.generate_and_reply _ _ _ _ _ _ _ _ _ _) as [[??]?].
Qed.

(** X18. The first button under a haiku carries the first line
    through: pressed, it runs the generator on exactly that line,
    whatever characters it has, with max_length 15 and temperature 0.9.
    When Telegram accepts the calls, a completion that is not empty is
    sent with the same two buttons and counted as successful, an empty
    one and an exception are counted as failed. *)
Theorem regenerate_button_round_trip first_line completion random_start draws self :
  (∀ call, telegram call = true) →
  Bot.button_handler str_lower float_pow telegram
                     (hd "" (Bot.haiku_keyboard first_line completion)) random_start draws
                     self
  = match generate_haiku_completion str_lower float_pow (Bot.generator self) first_line
                                    15 (9 # 10) draws with
    | Ok new =>
        if Keras.nonempty new
        then (Bot.count_success self,
              [Bot.Answer; Bot.SendChatAction;
               Bot.ReplyText (Bot.NewVariant first_line new)
                             (Bot.haiku_keyboard first_line new)],
              Some ())
        else (Bot.count_failure self,
              [Bot.Answer; Bot.SendChatAction; Bot.ReplyText Bot.NoVariant []],
              Some ())
    | Raise _ =>
        (Bot.count_failure self,
         [Bot.Answer; Bot.SendChatAction; Bot.ReplyText Bot.VariantError []],
         Some ())
    end.
Proof.
  intros Htelegram. cbn [hd Bot.haiku_keyboard]. rewrite button_regenerate.
  unfold Bot.generate_and_reply, Bot.try_except, Bot.await, mbind, Bot.handler_bind,
    Bot.gets, Bot.modify, Bot.lift.
  rewrite !Htelegram. cbn [app].
  destruct (generate (Bot.generator self) first_line 15 (9 # 10) draws)
    as [new|e] eqn:Hnew.
  - rewrite (truthy_completion _ _ _ _ _ _ Hnew).
    by destruct (Keras.nonempty new); rewrite ?Htelegram.
  - by rewrite ?Htelegram.
Qed.

(** X19. The second button under a haiku is taken apart at its first
    two colons: what is shown as the saved first line ends at the
    first colon of the data behind ["save:"], and the rest is shown as
    the completion.  The line and the completion come back as they
    were when the first line has no colon. *)
Theorem save_button_splits_at_first_colon line rest random_start draws self :
  contains ":" line = false →
  Bot.button_handler str_lower float_pow telegram ("save:" +:+ line +:+ ":" +:+ rest)
                     random_start draws self
  = (self,
     if telegram Bot.Answer
     then [Bot.Answer; Bot.EditMessageText (Bot.SavedHaiku line rest) []]
     else [Bot.Answer],
     if telegram Bot.Answer
        && telegram (Bot.EditMessageText (Bot.SavedHaiku line rest) [])
     then Some () else None).
Proof.
  intros Hline. unfold Bot.button_handler. rewrite split_save by done.
  change (String.eqb ("save:" +:+ line +:+ ":" +:+ rest) "examples") with false.
  change (String.eqb ("save:" +:+ line +:+ ":" +:+ rest) "help") with false.
  change (String.eqb ("save:" +:+ line +:+ ":" +:+ rest) "stats") with false.
  change (String.eqb ("save:" +:+ line +:+ ":" +:+ rest) "random_start") with false.
  change (Py.startswith "regenerate:" ("save:" +:+ line +:+ ":" +:+ rest)) with false.
  rewrite startswith_append. cbv iota.
  unfold mbind, Bot.handler_bind, Bot.await.
  destruct (telegram Bot.Answer); [|done]. cbn [app andb].
  by destruct (telegram _).
Qed.

(** X20. A haiku is sent in reply to a text message only if the model
    is loaded, the text, stripped by [str.strip], has a [len] between
    3 and 100, and the generator, called on it with max_length 15 and
    temperature 0.8, returned a completion that is not empty; the
    reply shows the stripped line and that completion and has the two
    buttons for them. *)
Theorem haiku_reply_sound text user_id draws self first_line completion keyboard :
  Bot.ReplyText (Bot.YourHaiku first_line completion) keyboard
    ∈ (Bot.generate_haiku str_lower float_pow telegram str_len str_strip text user_id
                          draws self).1.2 →
  Bot.model_loaded self = true
  ∧ first_line = str_strip text
  ∧ (3 ≤ str_len first_line ≤ 100)%nat
  ∧ generate_haiku_completion str_lower float_pow (Bot.generator self) first_line
                              15 (8 # 10) draws = Ok completion
  ∧ completion ≠ ""
  ∧ keyboard = Bot.haiku_keyboard first_line completion.
Proof.
  intros Hin.
  destruct (Bot.model_loaded self) eqn:Hloaded;
    [destruct (decide (3 ≤ str_len (str_strip text) ≤ 100)%nat) as [Hlen|Hlen]|].
  - rewrite generate_haiku_accepted in Hin by done.
    unfold mbind, Bot.handler_bind, Bot.await in Hin.
    destruct (telegram Bot.SendChatAction); [|by not_in Hin].
    rewrite generate_and_reply_run in Hin.
    change (Bot.generator (Bot.count_request (Bot.add_user user_id self)))
      with (Bot.generator self) in Hin.
    destruct (generate (Bot.generator self) (str_strip text) 15 (8 # 10) draws)
      as [c|e] eqn:Hgen; cbn zeta in Hin; [|by not_in Hin].
    destruct (Keras.nonempty c) eqn:Hc;
      [|by destruct (telegram (Bot.ReplyText Bot.NoHaiku [])); not_in Hin].
    assert (Bot.ReplyText (Bot.YourHaiku first_line completion) keyboard
            = Bot.ReplyText (Bot.YourHaiku (str_strip text) c)
                            (Bot.haiku_keyboard (str_strip text) c)) as [= -> -> ->].
    { destruct (telegram (Bot.ReplyText (Bot.YourHaiku _ _) _)); cbn in Hin.
      - apply elem_of_cons in Hin as [Hin|Hin]; [done|].
        apply elem_of_cons in Hin as [Hin|Hin]; [done | by not_in Hin].
      - apply elem_of_cons in Hin as [Hin|Hin]; [done|].
        apply elem_of_cons in Hin as [Hin|Hin]; [done|].
        apply elem_of_cons in Hin as [Hin|Hin]; [done | by not_in Hin]. }
    split; [done|]. split; [done|]. split; [lia|]. split; [done|]. split; [|done].
    by destruct c.
  - destruct (generate_haiku_rejected text user_id draws self) as (? & t' & Hrun & Ht');
      [right; lia|].
    rewrite Hrun in Hin. cbn [snd] in Hin.
    apply elem_of_cons in Hin as [[= Heq _]|Hin]; [subst t'; by not_in Ht' | by not_in Hin].
  - destruct (generate_haiku_rejected text user_id draws self) as (? & t' & Hrun & Ht');
      [by left|].
    rewrite Hrun in Hin. cbn [snd] in Hin.
    apply elem_of_cons in Hin as [[= Heq _]|Hin]; [subst t'; by not_in Ht' | by not_in Hin].
Qed.

(** X21. A bot that finds the two files of a saved model loads them
    without training and takes requests; but the generator it has
    loaded has max_sequence_length 0, so every text message whose
    stripped text has a [len] between 3 and 100 and, with the marker,
    two or more tokens is answered with the error text and counted as
    a failed generation. *)
Theorem loaded_bot_fails_every_request train_model disk m t text user_id draws ids :
  disk !! MODEL_PATH = Some (H5 m) → disk !! TOKENIZER_PATH = Some (Pickle t) →
  (∀ call, telegram call = true) →
  (3 ≤ str_len (str_strip text) ≤ 100)%nat →
  Keras.texts_to_sequences str_lower t (str_strip text +:+ " <line>") = Ok ids →
  (2 ≤ length ids)%nat →
  let bot := (Bot.load_or_train_model train_model disk Bot.init).1.1 in
  Bot.model_loaded bot = true
  ∧ Bot.generate_haiku str_lower float_pow telegram str_len str_strip text user_id draws
                       bot
    = (Bot.count_failure (Bot.count_request (Bot.add_user user_id bot)),
       [Bot.SendChatAction; Bot.ReplyText Bot.GenerationError []],
       Some ()).
Proof.
  intros Hm Ht Htelegram Hlen Hids Htokens.
  assert (Hbot : (Bot.load_or_train_model train_model disk Bot.init).1.1
                 = Bot.mkBot (mkGenerator (Some t) (Some m)
                                (Z.of_nat (size (Keras.word_index t)) + 1) 0)
                             true false (Bot.mkStats 0 0 0 ∅)).
  { unfold Bot.load_or_train_model, Bot.try_except. rewrite Hm, Ht.
    rewrite !bool_decide_eq_true_2 by eauto. cbn [andb].
    unfold mbind, Bot.handler_bind, Bot.gets, Bot.modify, Bot.lift, load_model.
    cbn [Bot.init Bot.generator]. rewrite Hm. cbn [init tokenizer model]. by rewrite Ht. }
  cbn zeta. rewrite Hbot. split; [done|].
  rewrite generate_haiku_accepted by done.
  unfold mbind, Bot.handler_bind, Bot.await. rewrite Htelegram, generate_and_reply_run.
  cbn [Bot.generator Bot.count_request Bot.add_user Bot.set_stats].
  rewrite (generate_zero_window str_lower float_pow _ m t _ _ _ _ ids) by done.
  cbn zeta. by rewrite Htelegram.
Qed.

End Replies.

(** * The properties on the worked example *)

(** [str.lower] on ASCII text distributes over concatenation. *)
Lemma ascii_lower_append (a b : string) :
  Py.ascii_lower (a +:+ b) = Py.ascii_lower a +:+ Py.ascii_lower b.
Proof. induction a as [|c a IH]; [done|]. cbn [String.append Py.ascii_lower]. by rewrite IH. Qed.

Lemma train_postcondition_witness :
  tokenizer example_generator = Some (fitted Py.ascii_lower example_corpus)
  ∧ vocab_size example_generator
    = Z.of_nat (size (Keras.word_index (fitted Py.ascii_lower example_corpus))) + 1
  ∧ 1 ≤ max_sequence_length example_generator
  ∧ model example_generator
    = Some (mkModel (max_sequence_length example_generator)
                    (Z.to_nat (vocab_size example_generator)) example_weights)
  ∧ consistent example_generator.
Proof.
  apply (train_postcondition Py.ascii_lower init example_corpus example_weights
           example_weights example_generator).
  vm_compute. reflexivity.
Defined.


Lemma train_forgets_witness :
  train Py.ascii_lower example_generator example_corpus example_weights example_weights
  = (example_generator, Ok ()).
Proof.
  apply (train_forgets Py.ascii_lower init example_generator example_corpus
           example_weights example_weights example_generator).
  vm_compute. reflexivity.
Defined.

Lemma save_then_load_witness :
  load_model init MODEL_PATH TOKENIZER_PATH
             (save_model example_generator MODEL_PATH TOKENIZER_PATH ∅)
  = (mkGenerator (Some (fitted Py.ascii_lower example_corpus))
                 (Some (mkModel 5 7 example_weights))
                 (Z.of_nat (size (Keras.word_index (fitted Py.ascii_lower example_corpus)))
                  + 1)
                 (max_sequence_length init),
     Ok ()).
Proof.
  apply (save_then_load example_generator init (mkModel 5 7 example_weights)
           (fitted Py.ascii_lower example_corpus) MODEL_PATH TOKENIZER_PATH ∅).
  - vm_compute. reflexivity.
  - vm_compute. reflexivity.
  - vm_compute. discriminate.
Defined.

Lemma running_text_invariant_witness :
  "a <line> <line> a b c"
  = Py.join " " (("a" +:+ " <line>") :: ["<line>"; "a"; "b"; "c"]).
Proof.
  apply (running_text_invariant Py.ascii_lower Py.integral_pow
           (fitted Py.ascii_lower example_corpus) (mkModel 5 7 example_weights) 5 "a" 15 1
           (draws_of [(1 # 7); (2 # 7); (3 # 7); (4 # 7); (5 # 7)]%Q)
           (mkLoop ["<line>"; "a"; "b"; "c"] "a <line> <line> a b c" [2; 3; 4; 5; 6] 5)
           Break).
  vm_compute. reflexivity.
Defined.

Lemma exhausted_budget_witness :
  let wi := Keras.word_index (fitted Py.ascii_lower example_corpus) in
  Z.of_nat 2 = 2
  ∧ Z.of_nat (length [2; 1]) = 2
  ∧ Forall (λ id, decode wi id ≠ END) [2; 1]
  ∧ Z.of_nat (length ["<line>"] + unk_count wi [2; 1]) = 2.
Proof.
  apply (exhausted_budget Py.ascii_lower Py.integral_pow
           (fitted Py.ascii_lower example_corpus) (mkModel 5 7 example_weights) 5 "a" 2 1
           (draws_of [(1 # 7); 0]%Q)
           (mkLoop ["<line>"] "a <line> <line>" [2; 1] 2)).
  - lia.
  - vm_compute. reflexivity.
Defined.

Lemma zero_temperature_raises_witness :
  (∃ e, generate_haiku_completion Py.ascii_lower Py.integral_pow example_generator
                                  "a" 15 0 (draws_of []) = Raise e)
  ∧ sampled (run_loop Py.ascii_lower Py.integral_pow
                      (fitted Py.ascii_lower example_corpus)
                      (mkModel 5 7 example_weights)
                      (max_sequence_length example_generator) "a" 15 0 (draws_of [])).1
    = [].
Proof.
  apply (zero_temperature_raises Py.ascii_lower Py.integral_pow example_generator
           (mkModel 5 7 example_weights) (fitted Py.ascii_lower example_corpus)
           "a" 15 0 (draws_of [])).
  - vm_compute. reflexivity.
  - vm_compute. reflexivity.
  - reflexivity.
  - lia.
Defined.

Lemma loaded_generator_raises_witness :
  max_sequence_length reloaded_generator = 0
  ∧ generate_haiku_completion Py.ascii_lower Py.integral_pow reloaded_generator
                              "a" 15 1 (draws_of [])
    = Raise (ValueError CannotBroadcast).
Proof.
  apply (loaded_generator_raises Py.ascii_lower Py.integral_pow MODEL_PATH TOKENIZER_PATH
           (save_model example_generator MODEL_PATH TOKENIZER_PATH ∅)
           reloaded_generator (fitted Py.ascii_lower example_corpus)
           "a" 15 1 (draws_of []) [3; 2]).
  - vm_compute. reflexivity.
  - vm_compute. reflexivity.
  - vm_compute. reflexivity.
  - simpl. lia.
  - lia.
Defined.

Lemma model_sees_window_witness :
  ∃ ids f,
    Keras.texts_to_sequences Py.ascii_lower (fitted Py.ascii_lower example_corpus)
                             "a <line>" = Ok ids
    ∧ let row := replicate (Z.to_nat 5 - length ids) 0
                 ++ drop (length ids - Z.to_nat 5) ids in
      Z.of_nat (length row) = 5
      ∧ forward (mkModel 5 7 example_weights) row = Ok f.
Proof.
  apply (model_sees_window Py.ascii_lower Py.integral_pow
           (fitted Py.ascii_lower example_corpus) (mkModel 5 7 example_weights) 5 1
           (3 # 7)%Q "a <line>" 4).
  - lia.
  - vm_compute. reflexivity.
Defined.

Lemma completion_shape_witness :
  (∃ lines,
     "b" = Py.join (String (ascii_of_nat 10) "") lines
     ∧ (length lines ≤ 2)%nat
     ∧ Forall (λ line, line ≠ ""
                       ∧ starts_space line = false
                       ∧ starts_space (String.rev line) = false) lines)
  ∧ Py.strip "b" = "b".
Proof.
  apply (completion_shape Py.ascii_lower Py.integral_pow example_generator "a" 15 1
           (draws_of [(3 # 7)%Q]) "b").
  vm_compute. reflexivity.
Defined.

Lemma vocabulary_round_trip_witness :
  let wi := Keras.word_index (fitted Py.ascii_lower example_corpus) in
  decode wi 4 = "b" ∧ wi !! "c" = Some 5.
Proof.
  intros wi.
  destruct (vocabulary_round_trip Py.ascii_lower example_corpus "b" 4) as [Hdecode _].
  destruct (vocabulary_round_trip Py.ascii_lower example_corpus "c" 5) as [_ Hid].
  split.
  - apply Hdecode. vm_compute. reflexivity.
  - apply Hid; [vm_compute; reflexivity | discriminate].
Defined.

Lemma prepare_data_returns_witness :
  let g := (prepare_data Py.ascii_lower init example_corpus).1 in
  let X := [[0; 0; 0; 3; 2]; [0; 0; 3; 2; 4]; [0; 3; 2; 4; 2]; [3; 2; 4; 2; 5]] in
  let y := [[0; 0; 0; 0; 1; 0; 0]; [0; 0; 1; 0; 0; 0; 0];
            [0; 0; 0; 0; 0; 1; 0]; [0; 0; 0; 0; 0; 0; 1]] in
  ∃ pairs,
    training_pairs Py.ascii_lower (fitted Py.ascii_lower example_corpus) example_corpus
    = Ok pairs
    ∧ pairs ≠ []
    ∧ max_sequence_length g
      = foldr Z.max 0 (map (λ p, Z.of_nat (length p.1)) pairs)
    ∧ X = map (λ p, replicate (Z.to_nat (max_sequence_length g) - length p.1) 0 ++ p.1)
              pairs
    ∧ Forall (λ row, Z.of_nat (length row) = max_sequence_length g) X
    ∧ Forall2 (λ p row,
                 1 ≤ p.2 < vocab_size g
                 ∧ Z.of_nat (length row) = vocab_size g
                 ∧ ∀ j, (j < length row)%nat →
                        row !! j = Some (if decide (Z.of_nat j = p.2) then 1 else 0))
              pairs y.
Proof.
  intros g X y.
  apply (prepare_data_returns Py.ascii_lower init example_corpus g X y).
  vm_compute. reflexivity.
Defined.

Lemma prepare_data_fails_on_empty_corpus_only_witness :
  (∀ haiku, haiku ∈ example_corpus →
     ∃ full_sequence pairs,
       Keras.texts_to_sequences Py.ascii_lower (fitted Py.ascii_lower example_corpus)
                                (full_haiku haiku) = Ok full_sequence
       ∧ haiku_pairs
           (default 0 (Keras.word_index (fitted Py.ascii_lower example_corpus) !! LINE))
           full_sequence = Ok pairs
       ∧ (2 ≤ length pairs)%nat)
  ∧ ((prepare_data Py.ascii_lower init example_corpus).2 = Raise (ValueError NoSequences)
     ↔ example_corpus = []).
Proof.
  apply (prepare_data_fails_on_empty_corpus_only Py.ascii_lower ascii_lower_append).
  - reflexivity.
  - reflexivity.
Defined.

Lemma text_message_counts_witness :
  let s' := Bot.stats (Bot.generate_haiku Py.ascii_lower Py.integral_pow accepting String.length Py.strip
                         "a b" 7 (draws_of [(3 # 7)%Q]) example_bot).1.1 in
  Bot.successful_generations s' + Bot.failed_generations s' ≤ Bot.total_requests s'.
Proof.
  intros s'.
  destruct (text_message_counts Py.ascii_lower Py.integral_pow accepting String.length Py.strip
              "a b" 7 (draws_of [(3 # 7)%Q]) example_bot) as (_ & _ & _ & _ & Hkept & _).
  apply Hkept. simpl. lia.
Defined.

Lemma button_counts_witness :
  Bot.stats (Bot.button_handler Py.ascii_lower Py.integral_pow accepting
               "help" 0 (draws_of []) example_bot).1.1
  = Bot.stats example_bot.
Proof.
  destruct (button_counts Py.ascii_lower Py.integral_pow accepting
              "help" 0 (draws_of []) example_bot) as (_ & _ & _ & _ & _ & Hsame).
  apply Hsame. reflexivity.
Defined.

Lemma regenerate_button_round_trip_witness :
  Bot.button_handler Py.ascii_lower Py.integral_pow accepting
                     (hd "" (Bot.haiku_keyboard "a b" "b")) 0 (draws_of [(3 # 7)%Q])
                     example_bot
  = match generate_haiku_completion Py.ascii_lower Py.integral_pow
            (Bot.generator example_bot) "a b" 15 (9 # 10) (draws_of [(3 # 7)%Q]) with
    | Ok new =>
        if Keras.nonempty new
        then (Bot.count_success example_bot,
              [Bot.Answer; Bot.SendChatAction;
               Bot.ReplyText (Bot.NewVariant "a b" new) (Bot.haiku_keyboard "a b" new)],
              Some ())
        else (Bot.count_failure example_bot,
              [Bot.Answer; Bot.SendChatAction; Bot.ReplyText Bot.NoVariant []],
              Some ())
    | Raise _ =>
        (Bot.count_failure example_bot,
         [Bot.Answer; Bot.SendChatAction; Bot.ReplyText Bot.VariantError []],
         Some ())
    end.
Proof.
  apply (regenerate_button_round_trip Py.ascii_lower Py.integral_pow accepting
           "a b" "b" 0 (draws_of [(3 # 7)%Q]) example_bot).
  intros call. reflexivity.
Defined.

Lemma save_button_splits_at_first_colon_witness :
  Bot.button_handler Py.ascii_lower Py.integral_pow accepting
                     ("save:" +:+ "a" +:+ ":" +:+ "b:c") 0 (draws_of []) example_bot
  = (example_bot,
     if accepting Bot.Answer
     then [Bot.Answer; Bot.EditMessageText (Bot.SavedHaiku "a" "b:c") []]
     else [Bot.Answer],
     if accepting Bot.Answer
        && accepting (Bot.EditMessageText (Bot.SavedHaiku "a" "b:c") [])
     then Some () else None).
Proof.
  apply (save_button_splits_at_first_colon Py.ascii_lower Py.integral_pow accepting
           "a" "b:c" 0 (draws_of []) example_bot).
  reflexivity.
Defined.

Lemma haiku_reply_sound_witness :
  Bot.model_loaded example_bot = true
  ∧ "a b" = Py.strip " a b "
  ∧ (3 ≤ String.length "a b" ≤ 100)%nat
  ∧ generate_haiku_completion Py.ascii_lower Py.integral_pow (Bot.generator example_bot)
                              "a b" 15 (8 # 10) (draws_of [(3 # 7)%Q]) = Ok "b"
  ∧ "b" ≠ ""
  ∧ ["regenerate:a b"; "save:a b:b"] = Bot.haiku_keyboard "a b" "b".
Proof.
  apply (haiku_reply_sound Py.ascii_lower Py.integral_pow accepting String.length Py.strip " a b " 7
           (draws_of [(3 # 7)%Q]) example_bot "a b" "b" ["regenerate:a b"; "save:a b:b"]).
  vm_compute. right. left.
Defined.

Lemma loaded_bot_fails_every_request_witness :
  let bot := (Bot.load_or_train_model (mret ())
                (save_model example_generator MODEL_PATH TOKENIZER_PATH ∅) Bot.init).1.1 in
  Bot.model_loaded bot = true
  ∧ Bot.generate_haiku Py.ascii_lower Py.integral_pow accepting String.length Py.strip "a b" 7 (draws_of []) bot
    = (Bot.count_failure (Bot.count_request (Bot.add_user 7 bot)),
       [Bot.SendChatAction; Bot.ReplyText Bot.GenerationError []],
       Some ()).
Proof.
  apply (loaded_bot_fails_every_request Py.ascii_lower Py.integral_pow accepting String.length Py.strip (mret ())
           (save_model example_generator MODEL_PATH TOKENIZER_PATH ∅)
           (mkModel 5 7 example_weights) (fitted Py.ascii_lower example_corpus)
           "a b" 7 (draws_of []) [3; 4; 2]).
  - vm_compute. reflexivity.
  - vm_compute. reflexivity.
  - intros call. reflexivity.
  - vm_compute. lia.
  - vm_compute. reflexivity.
  - simpl. lia.
Defined.
